(** * EmoHeal study front end: a model of the flow control and of the
    therapy page sequencer, with the properties the specification states.

    Sources modelled (paths below [src/]):
    - [unnamed/part_000]: class [StudyFlowManager] (step order, form
      validation, persistence, export, submission);
    - [unnamed/part_003]: the therapy page, version V13 ([getText],
      [fadeAudio], [startPolling], [handleState]);
    - [frontend/study_flow.js]: the therapy page, version V2, and [mockApi].

    Conventions.  A JS object used as a dictionary is a [gmap string _]
    holding its own keys; where the source looks up a key that comes from
    outside, the names every object inherits from [Object.prototype] are
    taken into account ([inherited]), in the definition or as a hypothesis.
    [undefined] is [None].  A JS number that only ever holds an integer is
    a [Z]; the media volume and the fade step are binary64 values, the
    primitive floats of the kernel.
    Callbacks handed to [setTimeout]/[setInterval] are defunctionalised: one
    constructor per closure of the source, interpreted by a [fire]
    function.  Wall-clock readings ([Date.now()], [new Date().toISOString()])
    are parameters of the operation that reads them. *)

From Stdlib Require Import ZArith String Ascii List Lia Bool.
From stdpp Require Import base option gmap strings list pretty.
From Stdlib Require Import Floats.
Import ListNotations.

Open Scope string_scope.
Open Scope Z_scope.

(* ===================================================================== *)
(** * Values shared by the modules                                        *)
(* ===================================================================== *)

(** The values that a form or a JSON record of this application holds:
    a text input, a flag, or the array that [collectFormData] builds for a
    repeated key. *)
Inductive jval : Type :=
| JStr (s : string)
| JBool (b : bool)
| JArr (l : list string).

#[global] Instance jval_eq_dec : EqDecision jval.
Proof. solve_decision. Defined.

(** JS truthiness of a present value; an empty string is falsy, an array
    (an object) always truthy. *)
Definition truthy (v : jval) : bool :=
  match v with
  | JStr s => negb (String.eqb s "")
  | JBool b => b
  | JArr _ => true
  end.

(** [!!x] for a possibly [undefined] value. *)
Definition truthy_opt (v : option jval) : bool :=
  match v with
  | Some x => truthy x
  | None => false
  end.

(** An object that may be [null]/[undefined]; [o?.k] is [opt_get o k]. *)
Definition obj : Type := option (gmap string jval).

Definition opt_get (o : obj) (k : string) : option jval :=
  match o with
  | Some m => m !! k
  | None => None
  end.

(** The property names every object inherits from [Object.prototype]: a
    lookup of one of them in an object literal that has no such key of its
    own finds the inherited value, a function (the prototype itself for
    [__proto__]), which is truthy. *)
Definition inherited (name : string) : bool :=
  existsb (String.eqb name)
    ["constructor"; "hasOwnProperty"; "isPrototypeOf"; "propertyIsEnumerable";
     "toLocaleString"; "toString"; "valueOf"; "__proto__"; "__defineGetter__";
     "__defineSetter__"; "__lookupGetter__"; "__lookupSetter__"].

(** [Array.prototype.indexOf] on an array of strings: the first position
    holding [x], or [-1]. *)
Fixpoint indexOf_from (l : list string) (x : string) (i : Z) : Z :=
  match l with
  | [] => -1
  | y :: l' => if String.eqb y x then i else indexOf_from l' x (i + 1)
  end.

Definition indexOf (l : list string) (x : string) : Z := indexOf_from l x 0.

(** [s.trim()] is the empty string exactly when [s] holds white space only
    (the ASCII white space of the ECMAScript [WhiteSpace] and
    [LineTerminator] classes). *)
Definition is_white (c : ascii) : bool :=
  let n := nat_of_ascii c in
  ((n =? 32) || (n =? 9) || (n =? 10) || (n =? 11) || (n =? 12) || (n =? 13))%nat.

Fixpoint trim_is_empty (s : string) : bool :=
  match s with
  | EmptyString => true
  | String c s' => is_white c && trim_is_empty s'
  end.

(* ===================================================================== *)
(** * StudyFlowManager ([unnamed/part_000])                               *)
(* ===================================================================== *)

Module StudyFlow.

(** ** Data *)

(** [this.participantData]: the record [loadParticipantData] creates or
    parses back.  [endTime] is absent until the questionnaire is saved. *)
Record ParticipantData : Type := mkPD {
  sessionId : string;
  startTime : string;
  endTime : option string;
  participantInfo : obj;
  consentData : obj;
  therapyData : obj;
  questionnaireData : obj;
  completed : bool
}.

(** What a [localStorage] key holds: a plain string, or the text
    [JSON.stringify(d)] of a participant record, kept as the record. *)
Inductive stored : Type :=
| SText (s : string)
| SJson (d : ParticipantData).

(** Callbacks this class hands to [setTimeout]. *)
Inductive task : Type :=
| RemoveAlert (element : nat)   (* showAlert: remove that alert after 5 s *)
| SubmitData.                   (* saveFormData: submitDataToServer() *)

(** The manager together with the part of the browser it touches. *)
Record World : Type := mkWorld {
  currentStep : string;                  (* this.currentStep *)
  participantData : ParticipantData;     (* this.participantData *)
  localStorage : gmap string stored;
  href : option string;                  (* Some u once window.location.href := u *)
  has_container : bool;                  (* document.querySelector('.container') *)
  alert : option (nat * string * string);  (* the alert shown: element, text, class *)
  alert_seq : nat;                       (* alert elements created so far *)
  timeouts : list (Z * task)             (* setTimeout registrations: delay, callback *)
}.

Definition set_step (w : World) (s : string) (ls : gmap string stored) : World :=
  mkWorld s (participantData w) ls (href w) (has_container w) (alert w) (alert_seq w) (timeouts w).

Definition set_href (w : World) (u : string) : World :=
  mkWorld (currentStep w) (participantData w) (localStorage w) (Some u)
          (has_container w) (alert w) (alert_seq w) (timeouts w).

Definition set_data (w : World) (d : ParticipantData) : World :=
  mkWorld (currentStep w) d (localStorage w) (href w)
          (has_container w) (alert w) (alert_seq w) (timeouts w).

Definition set_storage (w : World) (ls : gmap string stored) : World :=
  mkWorld (currentStep w) (participantData w) ls (href w)
          (has_container w) (alert w) (alert_seq w) (timeouts w).

Definition add_timeout (w : World) (delay : Z) (t : task) : World :=
  mkWorld (currentStep w) (participantData w) (localStorage w) (href w)
          (has_container w) (alert w) (alert_seq w) (timeouts w ++ [(delay, t)]).

(** ** Step management *)

(** [getCurrentStep]: [localStorage.getItem('qmul_study_step') || 'portal']. *)
Definition getCurrentStep (ls : gmap string stored) : string :=
  match ls !! "qmul_study_step" with
  | Some (SText s) => if String.eqb s "" then "portal" else s
  | Some (SJson _) => "portal"
  | None => "portal"
  end.

Definition setCurrentStep (step : string) (w : World) : World :=
  set_step w step (<["qmul_study_step" := SText step]> (localStorage w)).

Definition saveParticipantData (w : World) : World :=
  set_storage w (<["qmul_participant_data" := SJson (participantData w)]> (localStorage w)).

(** ** Flow control *)

Definition stepOrder : list string :=
  ["portal"; "participant_info"; "consent_form"; "therapy"; "questionnaire"; "thank_you"].

Definition canProceedToStep (targetStep : string) (w : World) : bool :=
  let currentIndex := indexOf stepOrder (currentStep w) in
  let targetIndex := indexOf stepOrder targetStep in
  targetIndex <=? currentIndex + 1.

Definition pageMap : gmap string string :=
  list_to_map
    [("portal", "experiment_portal.html");
     ("participant_info", "participant_info.html");
     ("consent_form", "consent_form.html");
     ("therapy", "therapy_interface_bilingual.html?from=experiment");
     ("questionnaire", "questionnaire.html");
     ("thank_you", "thank_you.html")].

Definition navigateToPage (step : string) (w : World) : World :=
  match pageMap !! step with
  | Some page => if String.eqb page "" then w else set_href w page
  | None => w
  end.

(** [showAlert]: drop the alerts on the page, insert the new one at the top
    of [.container] when the page has one, and schedule its removal. *)
Definition showAlert (message type : string) (w : World) : World :=
  let element := alert_seq w in
  let shown :=
    if has_container w then Some (element, message, "alert alert-" ++ type) else None in
  add_timeout
    (mkWorld (currentStep w) (participantData w) (localStorage w) (href w)
             (has_container w) shown (S element) (timeouts w))
    5000 (RemoveAlert element).

Definition order_warning : string :=
  "请按顺序完成所有步骤 / Please complete all steps in order".

Definition proceedToStep (targetStep : string) (w : World) : bool * World :=
  if negb (canProceedToStep targetStep w) then
    (false, showAlert order_warning "warning" w)
  else
    (true, navigateToPage targetStep (setCurrentStep targetStep w)).

Definition stepMap : gmap string string :=
  list_to_map
    [("participant_info", "consent_form");
     ("consent", "therapy");
     ("questionnaire", "thank_you")].

Definition getNextStep (formType : string) : option string := stepMap !! formType.

(** ** Forms and the consent page *)

(** An element matched by [[required]]: its value and whether
    [highlightError] has marked it. *)
Record Field : Type := mkField {
  value : string;
  error : bool
}.

(** An element of class [consent-checkbox]: its [checked] flag and, when it
    sits inside a [.checkbox-item], whether that item carries the class
    [checked]. *)
Record Checkbox : Type := mkCheckbox {
  checked : bool;
  item_checked : option bool
}.

(** A [form[data-study-form]] element. *)
Record Form : Type := mkForm {
  studyForm : string;                 (* form.dataset.studyForm *)
  required : list Field;              (* form.querySelectorAll('[required]') *)
  checkboxes : list Checkbox;         (* form.querySelectorAll('.consent-checkbox') *)
  entries : list (string * string)    (* new FormData(form).entries() *)
}.

(** The consent controls of the document. *)
Record Page : Type := mkPage {
  consent_checkboxes : list Checkbox;   (* document.querySelectorAll('.consent-checkbox') *)
  consent_submit : option bool          (* '.consent-submit', its disabled flag *)
}.

Definition highlightError (f : Field) : Field := mkField (value f) true.
Definition clearError (f : Field) : Field := mkField (value f) false.

Definition consent_warning : string :=
  "请阅读并同意所有条款才能继续 / Please read and agree to all terms to continue".

(** [validateForm]: the verdict, the form with its error marks, and the
    world (an alert may have been shown). *)
Definition validateForm (form : Form) (w : World) : bool * Form * World :=
  let marked :=
    map (fun f => if trim_is_empty (value f) then highlightError f else clearError f)
        (required form) in
  let isValid := forallb (fun f => negb (trim_is_empty (value f))) (required form) in
  let form' := mkForm (studyForm form) marked (checkboxes form) (entries form) in
  if String.eqb (studyForm form) "consent" then
    let allChecked := forallb checked (checkboxes form) in
    if negb allChecked then (false, form', showAlert consent_warning "warning" w)
    else (isValid, form', w)
  else (isValid, form', w).

(** The value [collectFormData] stores under a key: the single value, or
    the array of the values of a repeated key. *)
Inductive fval : Type :=
| FOne (s : string)
| FMany (l : list string).

Definition jval_of_fval (v : fval) : jval :=
  match v with
  | FOne s => JStr s
  | FMany l => JArr l
  end.

Definition collect_entry (data : gmap string fval) (kv : string * string) : gmap string fval :=
  let '(key, v) := kv in
  match data !! key with
  | Some (FMany l) => <[key := FMany (l ++ [v])]> data
  | Some (FOne s) =>
      if String.eqb s "" then <[key := FOne v]> data       (* data[key] is falsy *)
      else <[key := FMany [s; v]]> data
  | None => <[key := FOne v]> data
  end.

Definition collectFormData (form : Form) : gmap string jval :=
  jval_of_fval <$> fold_left collect_entry (entries form) ∅.

(** [saveFormData]; [now] and [now'] are the two readings of
    [new Date().toISOString()] the questionnaire case takes. *)
Definition saveFormData (formType : string) (formData : gmap string jval)
    (now now' : string) (w : World) : World :=
  let d := participantData w in
  let w1 :=
    if String.eqb formType "participant_info" then
      set_data w (mkPD (sessionId d) (startTime d) (endTime d) (Some formData)
                       (consentData d) (therapyData d) (questionnaireData d) (completed d))
    else if String.eqb formType "consent" then
      set_data w (mkPD (sessionId d) (startTime d) (endTime d) (participantInfo d)
                       (Some (<["timestamp" := JStr now]> formData))
                       (therapyData d) (questionnaireData d) (completed d))
    else if String.eqb formType "questionnaire" then
      add_timeout
        (set_data w (mkPD (sessionId d) (startTime d) (Some now') (participantInfo d)
                          (consentData d) (therapyData d)
                          (Some (<["timestamp" := JStr now]> formData)) true))
        1000 SubmitData
    else w in
  saveParticipantData w1.

(** [handleFormSubmission] for the form the submit event targets. *)
Definition handleFormSubmission (form : Form) (now now' : string) (w : World)
    : Form * World :=
  let '(valid, form', w1) := validateForm form w in
  if negb valid then (form', w1)
  else
    let formData := collectFormData form in
    let w2 := saveFormData (studyForm form) formData now now' w1 in
    match getNextStep (studyForm form) with
    | Some nextStep =>
        if String.eqb nextStep "" then (form', w2)
        else (form', snd (proceedToStep nextStep w2))
    | None => (form', w2)
    end.

(** [updateConsentStatus]. *)
Definition updateConsentStatus (p : Page) : Page :=
  let allChecked := forallb checked (consent_checkboxes p) in
  mkPage
    (map (fun c => mkCheckbox (checked c)
                     (match item_checked c with
                      | Some _ => Some (checked c)
                      | None => None
                      end))
         (consent_checkboxes p))
    (match consent_submit p with
     | Some _ => Some (negb allChecked)
     | None => None
     end).

(** [integrateWithTherapySystem]. *)
Definition integrateWithTherapySystem (now : string) (w : World) : World :=
  let d := participantData w in
  let therapy : gmap string jval :=
    <["completed" := JBool true]>
      (<["timestamp" := JStr now]> (<["sessionId" := JStr (sessionId d)]> ∅)) in
  setCurrentStep "questionnaire"
    (saveParticipantData
       (set_data w (mkPD (sessionId d) (startTime d) (endTime d) (participantInfo d)
                         (consentData d) (Some therapy) (questionnaireData d) (completed d)))).

(** ** Export and submission *)

(** [navigator], as far as the export reads it. *)
Record Navigator : Type := mkNavigator {
  userAgent : string;
  language : string;
  platform : string
}.

(** The [participantInfo] object of the export. *)
Record ExportInfo : Type := mkExportInfo {
  ageGroup : option jval;
  gender : option jval;
  digitalHealthExperience : option jval
}.

(** The object [prepareExportData] returns, field by field. *)
Record Export : Type := mkExport {
  export_sessionId : string;
  export_startTime : string;
  export_endTime : option string;
  export_completed : bool;
  export_participantInfo : ExportInfo;
  consentGiven : bool;
  consentTimestamp : option jval;
  therapyCompleted : bool;
  therapyTimestamp : option jval;
  export_questionnaireData : obj;
  studyVersion : string;
  browserInfo : Navigator
}.

Definition prepareExportData (nav : Navigator) (w : World) : Export :=
  let d := participantData w in
  mkExport
    (sessionId d)
    (startTime d)
    (endTime d)
    (completed d)
    (mkExportInfo (opt_get (participantInfo d) "ageGroup")
                  (opt_get (participantInfo d) "gender")
                  (opt_get (participantInfo d) "digitalHealthExperience"))
    (truthy_opt (opt_get (consentData d) "timestamp"))
    (opt_get (consentData d) "timestamp")
    (truthy_opt (opt_get (therapyData d) "completed"))
    (opt_get (therapyData d) "timestamp")
    (questionnaireData d)
    "v1.0"
    nav.

(** The request [submitDataToServer] hands to [fetch]. *)
Record Request : Type := mkRequest {
  url : string;
  method : string;
  content_type : string;
  body : Export;       (* JSON.stringify(exportData), kept as the record *)
  mode : string
}.

(** What the server does with the request when it is left alone. *)
Inductive reply : Type :=
| Replied (ok : bool) (status : Z) (json_parses : bool)   (* response.ok, response.status *)
| Failed (message : string).     (* fetch rejects: network or CORS error *)

(** The network as [submitDataToServer] meets it: when the request
    settles ([None]: never) and how. *)
Record Network : Type := mkNetwork {
  latency : option Z;
  answer : reply;
  abort_message : string;   (* the message of the AbortError of this browser *)
  parse_message : string    (* the message of the SyntaxError of response.json() *)
}.

Definition submit_timeout : Z := 15000.

(** How the awaited [fetch] ends: the abort timer registered before the
    call fires first unless the request settles before 15000 ms. *)
Inductive outcome : Type :=
| Settled (r : reply)
| Aborted.

Definition settle (n : Network) : outcome :=
  match latency n with
  | Some l => if l <? submit_timeout then Settled (answer n) else Aborted
  | None => Aborted
  end.

Definition submitted_message : string := "数据已安全提交 / Data submitted securely".

Definition unavailable_message (m : string) : string :=
  "无法连接服务器: " ++ m ++ " / Server unavailable: " ++ m.

(** [submitDataToServer]: the request issued, the value the promise
    resolves to, and the world afterwards.  The abort timer is cleared on
    both paths, so it leaves no registration behind. *)
Definition submitDataToServer (API_BASE : string) (nav : Navigator) (n : Network)
    (w : World) : Request * bool * World :=
  let exportData := prepareExportData nav w in
  let request := mkRequest (API_BASE ++ "/submit") "POST" "application/json" exportData "cors" in
  let fail m := (request, false, showAlert (unavailable_message m) "warning" w) in
  match settle n with
  | Settled (Replied ok status json_parses) =>
      if negb ok then fail ("Submit failed: " ++ pretty status)
      else if negb json_parses then fail (parse_message n)
      else (request, true, showAlert submitted_message "success" w)
  | Settled (Failed m) => fail m
  | Aborted => fail (abort_message n)
  end.

(** Running a registered callback once its delay has passed: the request
    it issues, if any, and the world afterwards. *)
Definition fire (t : task) (API_BASE : string) (nav : Navigator) (n : Network)
    (w : World) : option Request * World :=
  match t with
  | SubmitData =>
      let '(rq, _, w') := submitDataToServer API_BASE nav n w in (Some rq, w')
  | RemoveAlert element =>
      (None, mkWorld (currentStep w) (participantData w) (localStorage w) (href w)
                     (has_container w)
                     (match alert w with
                      | Some (e, m, c) => if Nat.eqb e element then None else Some (e, m, c)
                      | None => None
                      end)
                     (alert_seq w) (timeouts w))
  end.

(** ** Predicates and sample data *)

(** [a] and [b] are steps and [a] comes earlier in the step order. *)
Definition precedes (a b : string) : Prop :=
  0 <= indexOf stepOrder a /\ indexOf stepOrder a < indexOf stepOrder b.

(** [b] is the step right after step [a]. *)
Definition followed_by (a b : string) : Prop :=
  0 <= indexOf stepOrder a /\ indexOf stepOrder b = indexOf stepOrder a + 1.

(** A consent page and form with the second of two boxes unchecked. *)
Definition sample_page : Page :=
  mkPage [mkCheckbox true (Some true); mkCheckbox false None] (Some false).

Definition sample_consent_form : Form :=
  mkForm "consent" [mkField "yes" false]
         [mkCheckbox true (Some true); mkCheckbox false None]
         [("agree1", "on")].

Definition sample_data : ParticipantData :=
  mkPD "QMUL_1_abc" "2025-01-01T00:00:00.000Z" None (Some ∅) (Some ∅) (Some ∅) (Some ∅) false.

Definition sample_world : World :=
  mkWorld "consent_form" sample_data ∅ None true None 0 [].

(** The two participant records agree on every field but [participantInfo]. *)
Definition agree_outside_participantInfo (d1 d2 : ParticipantData) : Prop :=
  sessionId d1 = sessionId d2 /\
  startTime d1 = startTime d2 /\
  endTime d1 = endTime d2 /\
  consentData d1 = consentData d2 /\
  therapyData d1 = therapyData d2 /\
  questionnaireData d1 = questionnaireData d2 /\
  completed d1 = completed d2.

(** The two [participantInfo] objects agree on the three exported fields. *)
Definition agree_on_exported_info (i1 i2 : obj) : Prop :=
  opt_get i1 "ageGroup" = opt_get i2 "ageGroup" /\
  opt_get i1 "gender" = opt_get i2 "gender" /\
  opt_get i1 "digitalHealthExperience" = opt_get i2 "digitalHealthExperience".

(** Two records that differ in the participant's name and e-mail only. *)
Definition info_common : gmap string jval :=
  <["ageGroup" := JStr "25-34"]>
    (<["gender" := JStr "female"]> (<["digitalHealthExperience" := JStr "some"]> ∅)).

Definition info_alice : gmap string jval :=
  <["name" := JStr "Alice"]> (<["email" := JStr "alice@example.org"]> info_common).

Definition info_bob : gmap string jval := <["name" := JStr "Bob"]> info_common.

Definition world_with_info (i : gmap string jval) : World :=
  mkWorld "questionnaire"
    (mkPD "QMUL_1_abc" "2025-01-01T00:00:00.000Z" None (Some i) (Some ∅) (Some ∅) (Some ∅) false)
    ∅ None true None 0 [].

(** ** Construction, reload and reset *)

(** What the class reads from outside the page when it creates a record:
    [Date.now()], [new Date().toISOString()] and the characters
    [Math.random().toString(36).substr(2, 9)] yields. *)
Record Entropy : Type := mkEntropy {
  date_now : Z;
  iso_now : string;
  random : string
}.

Definition generateSessionId (e : Entropy) : string :=
  "QMUL_" ++ pretty (date_now e) ++ "_" ++ random e.

(** The record [loadParticipantData] creates when nothing is stored. *)
Definition fresh_data (e : Entropy) : ParticipantData :=
  mkPD (generateSessionId e) (iso_now e) None (Some ∅) (Some ∅) (Some ∅) (Some ∅) false.

(** [loadParticipantData].  A stored text that is not the JSON text of a
    participant record gives [None]: [JSON.parse] throws on it or returns a
    value of another shape, which the model does not follow. *)
Definition loadParticipantData (e : Entropy) (ls : gmap string stored)
    : option ParticipantData :=
  match ls !! "qmul_participant_data" with
  | Some (SJson d) => Some d
  | Some (SText s) => if String.eqb s "" then Some (fresh_data e) else None
  | None => Some (fresh_data e)
  end.

(** The constructor, run by the script of a page that has just loaded:
    nothing is shown and no timer is registered yet. *)
Definition construct (e : Entropy) (ls : gmap string stored) (container : bool)
    : option World :=
  match loadParticipantData e ls with
  | Some d => Some (mkWorld (getCurrentStep ls) d ls None container None 0 [])
  | None => None
  end.

(** The method [resetStudy]. *)
Definition resetStudy (e : Entropy) (w : World) : option World :=
  let ls := delete "qmul_participant_data" (delete "qmul_study_step" (localStorage w)) in
  match loadParticipantData e ls with
  | Some d =>
      Some (mkWorld "portal" d ls (href w) (has_container w) (alert w) (alert_seq w)
                    (timeouts w))
  | None => None
  end.

(** The global function [resetStudy]; [confirmed] is the answer of
    [confirm]. *)
Definition global_resetStudy (confirmed : bool) (e : Entropy) (w : World)
    : option World :=
  if confirmed then
    match resetStudy e w with
    | Some w' => Some (set_href w' "experiment_portal.html")
    | None => None
    end
  else Some w.

(** [handleNavigation]; [navigateTo] is [button.dataset.navigateTo]. *)
Definition handleNavigation (navigateTo : option string) (w : World) : World :=
  match navigateTo with
  | Some targetStep =>
      if String.eqb targetStep "" then w else snd (proceedToStep targetStep w)
  | None => w
  end.

(** ** Progress indicators *)

(** [updateProgressIndicators] on the class lists of the elements
    [.progress-steps .step], in document order. *)
Definition updateProgressIndicators (steps : list (gset string)) (w : World)
    : list (gset string) :=
  let currentIndex := indexOf stepOrder (currentStep w) in
  imap (fun index classList =>
          let cleared := classList ∖ {["completed"; "current"; "pending"]} in
          if Z.of_nat index <? currentIndex then cleared ∪ {["completed"]}
          else if Z.of_nat index =? currentIndex then cleared ∪ {["current"]}
          else cleared ∪ {["pending"]})
       steps.

(** ** Predicates on forms *)

(** The values the form submits under [key], in order. *)
Definition submitted (key : string) (form : Form) : list string :=
  map snd (List.filter (fun kv => String.eqb (fst kv) key) (entries form)).

(** The strings are UTF-8.  The three bytes encode one of the white space
    and line terminator characters of ECMAScript above U+00A0: U+1680,
    U+2000 to U+200A, U+2028, U+2029, U+202F, U+205F, U+3000, U+FEFF. *)
Definition js_space3 (a b c : ascii) : bool :=
  let x := nat_of_ascii a in
  let y := nat_of_ascii b in
  let z := nat_of_ascii c in
  ((x =? 225) && (y =? 154) && (z =? 128)
   || (x =? 226) && (y =? 128)
      && ((128 <=? z) && (z <=? 138) || (z =? 168) || (z =? 169) || (z =? 175))
   || (x =? 226) && (y =? 129) && (z =? 159)
   || (x =? 227) && (y =? 128) && (z =? 128)
   || (x =? 239) && (y =? 187) && (z =? 191))%nat.

(** [s.trim()] is the empty string, every white space character of
    ECMAScript counted, U+00A0 included. *)
Fixpoint js_blank (s : string) : bool :=
  match s with
  | EmptyString => true
  | String a s1 =>
      if is_white a then js_blank s1
      else
        match s1 with
        | EmptyString => false
        | String b s2 =>
            if ((nat_of_ascii a =? 194) && (nat_of_ascii b =? 160))%nat then js_blank s2
            else
              match s2 with
              | EmptyString => false
              | String c s3 => if js_space3 a b c then js_blank s3 else false
              end
        end
  end.

(** No required field is blank; on the consent form every box is checked;
    and no field goes by an inherited name. *)
Definition acceptable (form : Form) : Prop :=
  (forall f, In f (required form) -> js_blank (value f) = false) /\
  (studyForm form = "consent" -> forall c, In c (checkboxes form) -> checked c = true) /\
  (forall kv, In kv (entries form) -> inherited (fst kv) = false).

(** A run of [proceedToStep] over the targets, one after the other. *)
Definition proceedAll (targets : list string) (w : World) : World :=
  fold_left (fun st t => snd (proceedToStep t st)) targets w.

(** Sample forms of the three pages. *)
Definition sample_info_form : Form :=
  mkForm "participant_info" [mkField "25-34" false]
         [] [("ageGroup", "25-34"); ("gender", "female"); ("name", "Alice")].

Definition sample_agreed_form : Form :=
  mkForm "consent" [] [mkCheckbox true (Some true); mkCheckbox true None]
         [("agree1", "on"); ("agree2", "on")].

Definition sample_questionnaire : Form :=
  mkForm "questionnaire" [mkField "4" false] []
         [("q1", "4"); ("liked", "music"); ("liked", "video")].

Definition sample_entropy : Entropy :=
  mkEntropy 1700000000000 "2025-01-01T00:00:00.000Z" "k3j9x0abc".

(** ** The shape of collected values *)

(** What [collectFormData] holds under a key after the values [vs] have
    come in under it: nothing when there were none; otherwise the values
    from the first non-empty one on (the last one when all are empty), as a
    string when that is one value and as an array when it is more. *)
Definition collected (o : option fval) (vs : list string) : Prop :=
  match o with
  | None => vs = []
  | Some (FOne s) => exists blanks, vs = (blanks ++ [s])%list /\ Forall (fun b => b = "") blanks
  | Some (FMany l) =>
      exists blanks, vs = (blanks ++ l)%list /\ Forall (fun b => b = "") blanks /\
                     (2 <= length l)%nat /\ hd "" l <> ""
  end.

(** ** A run through the pages *)

(** A participant who goes through the study, each page constructing its
    own manager from what the page before left in [localStorage]: the
    portal, left by a navigation button; the participant information form;
    the consent form; the therapy page, which reports completion; the
    questionnaire.  [e0] to [e4] are the readings of clock and random
    source at the five page loads, the strings the times at which the forms
    are saved and the therapy is completed. *)
Definition study_run (e0 e1 e2 e3 e4 : Entropy) (info consent questionnaire : Form)
    (t_info t_consent t_therapy t_questionnaire t_end : string) : option World :=
  portal ← construct e0 ∅ true;
  info_page ←
    construct e1 (localStorage (handleNavigation (Some "participant_info") portal)) true;
  consent_page ←
    construct e2 (localStorage (snd (handleFormSubmission info t_info t_info info_page))) true;
  therapy_page ←
    construct e3
      (localStorage (snd (handleFormSubmission consent t_consent t_consent consent_page)))
      true;
  questionnaire_page ←
    construct e4 (localStorage (integrateWithTherapySystem t_therapy therapy_page)) true;
  Some (snd (handleFormSubmission questionnaire t_questionnaire t_end questionnaire_page)).

(** ** The page and its timers *)

(** A callback handed to [setTimeout] runs only while its document is
    there.  The document stays when no navigation was asked for; after
    [window.location.href := u] it is replaced when the next document
    commits, [commit] ms after the running task, and the timers still
    pending are dropped with it. *)
Definition outlives (commit : Z) (w : World) (delay : Z) : bool :=
  match href w with
  | None => true
  | Some _ => delay <? commit
  end.

(** The requests that go out after the running task, nothing else
    happening: one for every submission whose timer, registered in this
    task, runs before the document is replaced. *)
Definition requests_sent (API_BASE : string) (nav : Navigator) (n : Network) (commit : Z)
    (w : World) : list Request :=
  flat_map (fun dt : Z * task =>
              if outlives commit w (fst dt) then
                match fst (fire (snd dt) API_BASE nav n w) with
                | Some rq => [rq]
                | None => []
                end
              else [])
           (timeouts w).

(** The manager of the questionnaire page, as its script constructs it for
    a participant who has come to the questionnaire. *)
Definition questionnaire_page : World :=
  mkWorld "questionnaire" sample_data ∅ None true None 0 [].

(** A browser and a server that answers in 200 ms. *)
Definition sample_navigator : Navigator := mkNavigator "UA" "en-GB" "Linux".

Definition sample_network : Network :=
  mkNetwork (Some 200) (Replied true 200 true) "The user aborted a request." "Unexpected token".

(** ** Properties of the flow *)

Lemma canProceedToStep_spec (t : string) (w : World) :
  canProceedToStep t w = true <->
  indexOf stepOrder t <= indexOf stepOrder (currentStep w) + 1.
Proof. unfold canProceedToStep. cbv zeta. apply Z.leb_le. Qed.

Lemma step_has_page (t : string) :
  In t stepOrder -> exists page, pageMap !! t = Some page /\ page <> "".
Proof.
  unfold stepOrder. simpl.
  intros [<- | [<- | [<- | [<- | [<- | [<- | []]]]]]];
    eexists; (split; [vm_compute; reflexivity | discriminate]).
Qed.

Lemma showAlert_keeps (m ty : string) (w : World) :
  currentStep (showAlert m ty w) = currentStep w /\
  participantData (showAlert m ty w) = participantData w /\
  localStorage (showAlert m ty w) = localStorage w /\
  href (showAlert m ty w) = href w.
Proof. repeat split. Qed.

(** C1, as the code has it: in the step order the demographics step
    ([participant_info]) comes right after the portal and right before the
    consent step, which is followed by therapy, questionnaire and the final
    thank-you step; the successor map sends the demographics form to the
    consent step, the consent form to therapy and the questionnaire to the
    thank-you step. *)
Theorem flow_order_demographics_then_consent :
  followed_by "portal" "participant_info" /\
  followed_by "participant_info" "consent_form" /\
  followed_by "consent_form" "therapy" /\
  followed_by "therapy" "questionnaire" /\
  followed_by "questionnaire" "thank_you" /\
  getNextStep "participant_info" = Some "consent_form" /\
  getNextStep "consent" = Some "therapy" /\
  getNextStep "questionnaire" = Some "thank_you".
Proof.
  unfold followed_by.
  repeat match goal with |- _ /\ _ => split end; vm_compute; congruence.
Qed.

(** C1, as stated, fails: the consent step does not precede the
    demographics step in the step order, and the successor of the
    demographics form is not the therapy step. *)
Lemma flow_order_consent_first_fails :
  ~ precedes "consent_form" "participant_info" /\
  getNextStep "participant_info" <> Some "therapy" /\
  getNextStep "consent" <> Some "participant_info".
Proof.
  split; [| split].
  - unfold precedes. vm_compute. intros [_ H]. discriminate H.
  - vm_compute. discriminate.
  - vm_compute. discriminate.
Qed.

(** C3: [proceedToStep t] answers [true] exactly when
    [index t <= index (currentStep) + 1]; then the step in memory and the
    entry [qmul_study_step] are [t], and for a step of the order the browser
    is sent to its page; otherwise the step in memory, the storage, the
    participant record and the location are as before. *)
Theorem proceedToStep_guard (t : string) (w : World) :
  (fst (proceedToStep t w) = true <->
     indexOf stepOrder t <= indexOf stepOrder (currentStep w) + 1) /\
  (fst (proceedToStep t w) = true ->
     currentStep (snd (proceedToStep t w)) = t /\
     localStorage (snd (proceedToStep t w))
       = <["qmul_study_step" := SText t]> (localStorage w) /\
     (In t stepOrder ->
        exists page, pageMap !! t = Some page /\
                     href (snd (proceedToStep t w)) = Some page)) /\
  (fst (proceedToStep t w) = false ->
     currentStep (snd (proceedToStep t w)) = currentStep w /\
     localStorage (snd (proceedToStep t w)) = localStorage w /\
     participantData (snd (proceedToStep t w)) = participantData w /\
     href (snd (proceedToStep t w)) = href w).
Proof.
  rewrite <- canProceedToStep_spec. unfold proceedToStep.
  destruct (canProceedToStep t w) eqn:Hc; simpl.
  - split; [tauto |]. split; [| discriminate].
    intros _. unfold navigateToPage.
    split; [| split].
    + destruct (pageMap !! t) as [page |]; [destruct (page =? ""%string)%string |]; reflexivity.
    + destruct (pageMap !! t) as [page |]; [destruct (page =? ""%string)%string |]; reflexivity.
    + intros Hin. destruct (step_has_page t Hin) as (page & Hp & Hne).
      exists page. split; [exact Hp |]. rewrite Hp.
      destruct (String.eqb_spec page ""); [contradiction | reflexivity].
  - split; [split; [discriminate | intros H; rewrite H in Hc; discriminate] |].
    split; [discriminate |]. intros _. repeat split.
Qed.

(** ** Properties of the consent gate *)

Lemma every_checked_false (l : list Checkbox) :
  forallb checked l = false <-> exists c, In c l /\ checked c = false.
Proof.
  induction l as [| c l IH]; simpl.
  - split; [discriminate | intros (c & [] & _)].
  - rewrite andb_false_iff, IH. split.
    + intros [Hc | (c' & Hin & Hc')]; eauto.
    + intros (c' & [<- | Hin] & Hc'); eauto.
Qed.

Lemma every_checked_true (l : list Checkbox) :
  forallb checked l = true <-> forall c, In c l -> checked c = true.
Proof. apply forallb_forall. Qed.

Lemma validateForm_world (form : Form) (w : World) :
  currentStep (snd (validateForm form w)) = currentStep w /\
  participantData (snd (validateForm form w)) = participantData w /\
  localStorage (snd (validateForm form w)) = localStorage w /\
  href (snd (validateForm form w)) = href w.
Proof.
  unfold validateForm. cbv zeta.
  destruct (studyForm form =? "consent")%string; [| repeat split].
  destruct (negb (forallb checked (checkboxes form))); repeat split.
Qed.

(** C2: when the page has a consent submit button, [updateConsentStatus]
    leaves it disabled exactly when some consent checkbox is unchecked and
    enabled exactly when all are checked; and a consent form with an
    unchecked consent checkbox fails [validateForm], so that
    [handleFormSubmission] saves nothing and moves nowhere. *)
Theorem consent_requires_all_checked
    (p : Page) (form : Form) (now now' : string) (w : World) :
  (consent_submit p <> None ->
     (consent_submit (updateConsentStatus p) = Some true <->
        exists c, In c (consent_checkboxes p) /\ checked c = false) /\
     (consent_submit (updateConsentStatus p) = Some false <->
        forall c, In c (consent_checkboxes p) -> checked c = true)) /\
  (studyForm form = "consent" ->
   (exists c, In c (checkboxes form) /\ checked c = false) ->
     fst (fst (validateForm form w)) = false /\
     participantData (snd (handleFormSubmission form now now' w)) = participantData w /\
     localStorage (snd (handleFormSubmission form now now' w)) = localStorage w /\
     currentStep (snd (handleFormSubmission form now now' w)) = currentStep w /\
     href (snd (handleFormSubmission form now now' w)) = href w).
Proof.
  split.
  - intros Hbtn. unfold updateConsentStatus. simpl.
    destruct (consent_submit p) as [b |]; [| contradiction].
    rewrite <- every_checked_false, <- every_checked_true.
    destruct (forallb checked (consent_checkboxes p)); simpl;
      split; split; congruence.
  - intros Hty Hex.
    apply every_checked_false in Hex.
    assert (Hv : fst (fst (validateForm form w)) = false).
    { unfold validateForm. cbv zeta. rewrite Hty, Hex. reflexivity. }
    split; [exact Hv |].
    unfold handleFormSubmission.
    pose proof (validateForm_world form w) as Hw.
    destruct (validateForm form w) as [[valid form'] w1]. simpl in Hv, Hw.
    subst valid. simpl. tauto.
Qed.

Lemma consent_requires_all_checked_witness :
  consent_submit (updateConsentStatus sample_page) = Some true /\
  fst (fst (validateForm sample_consent_form sample_world)) = false /\
  localStorage (snd (handleFormSubmission sample_consent_form "t" "t" sample_world)) = ∅.
Proof.
  destruct (consent_requires_all_checked sample_page sample_consent_form "t" "t" sample_world)
    as [Hp Hf].
  split.
  - apply Hp; [discriminate |].
    exists (mkCheckbox false None). split; [simpl; auto | reflexivity].
  - destruct Hf as (Hv & _ & Hls & _).
    + reflexivity.
    + exists (mkCheckbox false None). split; [simpl; auto | reflexivity].
    + split; [exact Hv | exact Hls].
Defined.

(** ** Properties of saving, export and submission *)

Lemma submitDataToServer_keeps (API_BASE : string) (nav : Navigator) (n : Network)
    (w : World) :
  participantData (snd (submitDataToServer API_BASE nav n w)) = participantData w /\
  localStorage (snd (submitDataToServer API_BASE nav n w)) = localStorage w /\
  currentStep (snd (submitDataToServer API_BASE nav n w)) = currentStep w.
Proof.
  unfold submitDataToServer. cbv zeta.
  destruct (settle n) as [[ok status parses | m] |]; simpl; [| repeat split ..].
  destruct ok; simpl; [destruct parses; simpl |]; repeat split.
Qed.

Lemma submitDataToServer_request (API_BASE : string) (nav : Navigator) (n : Network)
    (w : World) :
  fst (fst (submitDataToServer API_BASE nav n w))
  = mkRequest (API_BASE ++ "/submit") "POST" "application/json"
              (prepareExportData nav w) "cors".
Proof.
  unfold submitDataToServer. cbv zeta.
  destruct (settle n) as [[ok status parses | m] |]; simpl; try reflexivity.
  destruct ok; simpl; [destruct parses |]; reflexivity.
Qed.

(** The promise resolves to [true] exactly when an ok reply whose body
    parses arrives before the abort timer. *)
Lemma submitDataToServer_true_iff (API_BASE : string) (nav : Navigator) (n : Network)
    (w : World) :
  snd (fst (submitDataToServer API_BASE nav n w)) = true <->
  exists status, settle n = Settled (Replied true status true).
Proof.
  unfold submitDataToServer. cbv zeta.
  destruct (settle n) as [[ok status parses | m] |]; simpl.
  - destruct ok; simpl; [destruct parses; simpl |].
    + split; [eauto | reflexivity].
    + split; [discriminate | intros [s' H]; discriminate H].
    + split; [discriminate | intros [s' H]; discriminate H].
  - split; [discriminate | intros [s' H]; discriminate H].
  - split; [discriminate | intros [s' H]; discriminate H].
Qed.

Lemma settle_timeout (n : Network) :
  (latency n = None \/ exists l, latency n = Some l /\ submit_timeout <= l) <->
  settle n = Aborted.
Proof.
  unfold settle. destruct (latency n) as [l |].
  - destruct (Z.ltb_spec l submit_timeout); split.
    + intros [H0 | (l' & Hl & Hle)]; [discriminate | injection Hl as <-; lia].
    + discriminate.
    + reflexivity.
    + intros _. right. exists l. split; [reflexivity | assumption].
  - split; [reflexivity | auto].
Qed.

(** Saving the questionnaire sets [completed], records [endTime], writes
    the record to [localStorage] and registers the submission for 1000 ms
    later; the submission, when its timer runs, posts the prepared export
    to [API_BASE + '/submit']; a reply that is not ok, or an abort by the
    15000 ms timer (the request has not settled by then), makes
    [submitDataToServer] answer [false]; in every case the stored and the
    in-memory participant record stay as saved. *)
Theorem questionnaire_saved_then_submitted
    (formData : gmap string jval) (now now' API_BASE : string)
    (nav : Navigator) (n : Network) (w : World) :
  let w1 := saveFormData "questionnaire" formData now now' w in
  let r := submitDataToServer API_BASE nav n w1 in
  completed (participantData w1) = true /\
  endTime (participantData w1) = Some now' /\
  localStorage w1 !! "qmul_participant_data" = Some (SJson (participantData w1)) /\
  timeouts w1 = (timeouts w ++ [(1000, SubmitData)])%list /\
  fire SubmitData API_BASE nav n w1 = (Some (fst (fst r)), snd r) /\
  url (fst (fst r)) = API_BASE ++ "/submit" /\
  method (fst (fst r)) = "POST" /\
  body (fst (fst r)) = prepareExportData nav w1 /\
  ((exists status parses, answer n = Replied false status parses) ->
     snd (fst r) = false) /\
  ((latency n = None \/ exists l, latency n = Some l /\ 15000 <= l) ->
     snd (fst r) = false) /\
  localStorage (snd r) = localStorage w1 /\
  participantData (snd r) = participantData w1.
Proof.
  intros w1 r.
  pose proof (submitDataToServer_keeps API_BASE nav n w1) as (Hd & Hls & _).
  pose proof (submitDataToServer_request API_BASE nav n w1) as Hrq.
  pose proof (submitDataToServer_true_iff API_BASE nav n w1) as Htrue.
  fold r in Hd, Hls, Hrq, Htrue.
  split; [reflexivity |]. split; [reflexivity |].
  split; [apply lookup_insert_eq |]. split; [reflexivity |].
  split.
  { unfold fire. fold r. destruct r as [[rq ok] w2]. reflexivity. }
  rewrite Hrq. split; [reflexivity |]. split; [reflexivity |]. split; [reflexivity |].
  split.
  { intros (status & parses & Ha).
    destruct (snd (fst r)); [| reflexivity].
    destruct Htrue as [Ht _]. destruct (Ht eq_refl) as [s' Hs].
    unfold settle in Hs. rewrite Ha in Hs.
    destruct (latency n) as [l |]; [destruct (l <? submit_timeout) |]; discriminate. }
  split.
  { intros Hlate. apply settle_timeout in Hlate.
    destruct (snd (fst r)); [| reflexivity].
    destruct Htrue as [Ht _]. destruct (Ht eq_refl) as [s' Hs]. congruence. }
  split; assumption.
Qed.

(** C6: the questionnaire submitted on its page, the next page committing
    within the second.  [handleFormSubmission] saves the record
    ([completed], [endTime], [localStorage]) and registers the submission
    for 1000 ms later, then asks for [thank_you.html] in the same task: the
    timer is still pending when the document is replaced, and no request
    goes out.  Had the page stayed, as after [saveFormData] alone, the
    export would have been posted to [API_BASE + '/submit']. *)
Theorem questionnaire_submission_lost :
  let w' := snd (handleFormSubmission sample_questionnaire "t1" "t2" questionnaire_page) in
  let stay := saveFormData "questionnaire" (collectFormData sample_questionnaire)
                           "t1" "t2" questionnaire_page in
  completed (participantData w') = true /\
  endTime (participantData w') = Some "t2" /\
  localStorage w' !! "qmul_participant_data" = Some (SJson (participantData w')) /\
  timeouts w' = [(1000, SubmitData)] /\
  href w' = Some "thank_you.html" /\
  (forall commit, commit <= 1000 ->
     requests_sent "https://example.org" sample_navigator sample_network commit w' = []) /\
  (forall commit,
     requests_sent "https://example.org" sample_navigator sample_network commit stay
     = [mkRequest "https://example.org/submit" "POST" "application/json"
                  (prepareExportData sample_navigator w') "cors"]).
Proof.
  cbv zeta.
  split; [reflexivity |]. split; [reflexivity |].
  split; [vm_compute; reflexivity |].
  split; [reflexivity |]. split; [reflexivity |].
  split.
  - intros commit Hc. unfold requests_sent, outlives.
    change (timeouts (snd (handleFormSubmission sample_questionnaire "t1" "t2"
                             questionnaire_page)))
      with [(1000, SubmitData)].
    change (href (snd (handleFormSubmission sample_questionnaire "t1" "t2"
                         questionnaire_page)))
      with (Some "thank_you.html").
    cbn [flat_map fst snd].
    destruct (Z.ltb_spec 1000 commit); [lia | reflexivity].
  - intros commit. vm_compute. reflexivity.
Qed.

(** C10: two states whose participant records agree outside
    [participantInfo], and inside it on [ageGroup], [gender] and
    [digitalHealthExperience], export the same object, whatever else their
    [participantInfo] objects hold. *)
Theorem export_ignores_other_participant_fields (nav : Navigator) (w1 w2 : World) :
  agree_outside_participantInfo (participantData w1) (participantData w2) ->
  agree_on_exported_info (participantInfo (participantData w1))
                         (participantInfo (participantData w2)) ->
  prepareExportData nav w1 = prepareExportData nav w2.
Proof.
  intros (Hs & Hst & He & Hc & Ht & Hq & Hcm) (Ha & Hg & Hx).
  unfold prepareExportData. cbv zeta.
  rewrite Hs, Hst, He, Hc, Ht, Hq, Hcm, Ha, Hg, Hx. reflexivity.
Qed.

Lemma export_ignores_other_participant_fields_witness :
  participantInfo (participantData (world_with_info info_alice))
    <> participantInfo (participantData (world_with_info info_bob)) /\
  prepareExportData (mkNavigator "UA" "en-GB" "Linux") (world_with_info info_alice)
  = prepareExportData (mkNavigator "UA" "en-GB" "Linux") (world_with_info info_bob).
Proof.
  split.
  - intros H. apply (f_equal (fun o : obj => opt_get o "name")) in H.
    vm_compute in H. discriminate H.
  - apply export_ignores_other_participant_fields.
    + repeat split.
    + repeat split.
Defined.

(** ** Properties of form collection *)

Lemma collected_step (o : option fval) (vs : list string) (v : string) :
  collected o vs ->
  collected (Some match o with
                  | Some (FMany l) => FMany (l ++ [v])%list
                  | Some (FOne s) => if String.eqb s "" then FOne v else FMany [s; v]
                  | None => FOne v
                  end) (vs ++ [v])%list.
Proof.
  destruct o as [[s | l] |]; simpl.
  - intros (blanks & -> & Hb). destruct (String.eqb_spec s "") as [-> | Hs].
    + exists (blanks ++ [""])%list. split; [reflexivity |].
      apply Forall_app. split; [exact Hb | repeat constructor].
    + exists blanks. rewrite <- List.app_assoc. split; [reflexivity |].
      split; [exact Hb |]. split; [simpl; lia | exact Hs].
  - intros (blanks & -> & Hb & Hlen & Hhd). exists blanks.
    rewrite List.app_assoc. split; [reflexivity |]. split; [exact Hb |].
    rewrite List.length_app. split; [lia |].
    destruct l; [simpl in Hlen; lia | exact Hhd].
  - intros ->. exists []. split; [reflexivity | constructor].
Qed.

Lemma collect_entries_shape (es : list (string * string)) (key : string) :
  collected (fold_left collect_entry es ∅ !! key)
            (map snd (List.filter (fun kv => String.eqb (fst kv) key) es)).
Proof.
  induction es as [| [k v] es IH] using rev_ind; [reflexivity |].
  rewrite fold_left_app, List.filter_app, List.map_app. simpl.
  set (data := fold_left collect_entry es ∅) in *.
  destruct (String.eqb_spec k key) as [-> | Hne]; simpl.
  - apply (collected_step _ _ v) in IH.
    destruct (data !! key) as [[s | l] |] eqn:E;
      [destruct (String.eqb s "") |..]; rewrite lookup_insert_eq; exact IH.
  - rewrite List.app_nil_r.
    destruct (data !! k) as [[s | l] |];
      [destruct (String.eqb s "") |..]; rewrite lookup_insert_ne by exact Hne; exact IH.
Qed.

(** X1: Under a key that is not a property name every object inherits (under
    such a name [data[key]] finds the inherited value), [collectFormData]
    returns nothing when the form submits no value under it; otherwise it
    returns the submitted values from the first non-empty one on (the empty
    values before it are lost), as a string when that is a single value and
    as an array, in order, when there are more. *)
Theorem collectFormData_shape (form : Form) (key : string) :
  inherited key = false ->
  match collectFormData form !! key with
  | None => submitted key form = []
  | Some (JStr s) =>
      exists blanks,
        submitted key form = (blanks ++ [s])%list /\ Forall (fun b => b = "") blanks
  | Some (JArr l) =>
      exists blanks,
        submitted key form = (blanks ++ l)%list /\ Forall (fun b => b = "") blanks /\
        (2 <= length l)%nat /\ hd "" l <> ""
  | Some (JBool _) => False
  end.
Proof.
  intros _. unfold collectFormData, submitted. rewrite lookup_fmap.
  pose proof (collect_entries_shape (entries form) key) as H.
  destruct (fold_left collect_entry (entries form) ∅ !! key) as [[s | l] |]; exact H.
Qed.

Lemma collectFormData_shape_witness :
  collectFormData sample_questionnaire !! "liked" = Some (JArr ["music"; "video"]) /\
  exists blanks,
    submitted "liked" sample_questionnaire = (blanks ++ ["music"; "video"])%list /\
    Forall (fun b => b = "") blanks.
Proof.
  pose proof (collectFormData_shape sample_questionnaire "liked" eq_refl) as H.
  assert (E : collectFormData sample_questionnaire !! "liked"
              = Some (JArr ["music"; "video"])) by (vm_compute; reflexivity).
  rewrite E in H. split; [exact E |].
  destruct H as (blanks & Hs & Hb & _). exists blanks. split; assumption.
Defined.

(** ** Properties of form submission *)

(** The required fields as [validateForm] leaves them: the blank ones
    marked, the others cleared. *)
Lemma validateForm_marks (form : Form) (w : World) :
  snd (fst (validateForm form w))
  = mkForm (studyForm form)
           (map (fun f => mkField (value f) (trim_is_empty (value f))) (required form))
           (checkboxes form) (entries form).
Proof.
  assert (Hmap : map (fun f => if trim_is_empty (value f) then highlightError f else clearError f)
                     (required form)
                 = map (fun f => mkField (value f) (trim_is_empty (value f))) (required form)).
  { apply List.map_ext. intros f. unfold highlightError, clearError.
    destruct (trim_is_empty (value f)); reflexivity. }
  unfold validateForm. cbv zeta. rewrite Hmap.
  destruct (studyForm form =? "consent")%string; [| reflexivity].
  destruct (negb (forallb checked (checkboxes form))); reflexivity.
Qed.

Lemma blank_field_fails (form : Form) (w : World) :
  (exists f, In f (required form) /\ trim_is_empty (value f) = true) ->
  fst (fst (validateForm form w)) = false.
Proof.
  intros (f & Hin & Hblank).
  assert (Hall : forallb (fun f => negb (trim_is_empty (value f))) (required form) = false).
  { destruct (forallb _ (required form)) eqn:E; [| reflexivity].
    rewrite forallb_forall in E. specialize (E f Hin). cbv beta in E.
    rewrite Hblank in E. discriminate E. }
  unfold validateForm. cbv zeta. rewrite Hall.
  destruct (studyForm form =? "consent")%string; [| reflexivity].
  destruct (negb (forallb checked (checkboxes form))); reflexivity.
Qed.

(** A string that is blank for [trim_is_empty] is blank for [js_blank]. *)
Lemma js_blank_ascii (s : string) : trim_is_empty s = true -> js_blank s = true.
Proof.
  induction s as [| a s IH]; [reflexivity |].
  cbn [trim_is_empty js_blank]. intros H. apply andb_true_iff in H.
  destruct H as [Ha Hs]. rewrite Ha. apply IH. exact Hs.
Qed.

Lemma validateForm_acceptable (form : Form) (w : World) :
  acceptable form ->
  fst (fst (validateForm form w)) = true /\ snd (validateForm form w) = w.
Proof.
  intros (Hreq & Hboxes & _).
  assert (Hall : forallb (fun f => negb (trim_is_empty (value f))) (required form) = true).
  { apply forallb_forall. intros f Hin.
    destruct (trim_is_empty (value f)) eqn:E; [| reflexivity].
    apply js_blank_ascii in E. rewrite (Hreq f Hin) in E. discriminate E. }
  unfold validateForm. cbv zeta. rewrite Hall.
  destruct (String.eqb_spec (studyForm form) "consent") as [Hty | Hty]; [| split; reflexivity].
  rewrite (proj2 (every_checked_true (checkboxes form)) (Hboxes Hty)).
  split; reflexivity.
Qed.

Lemma getNextStep_is_step (formType next : string) :
  getNextStep formType = Some next -> next <> "" /\ In next stepOrder.
Proof.
  unfold getNextStep, stepMap. intros H.
  apply elem_of_list_to_map_2 in H. apply list_elem_of_In in H. simpl in H.
  destruct H as [H | [H | [H | []]]]; injection H as _ <-;
    (split; [discriminate | simpl; tauto]).
Qed.

(** What [handleFormSubmission] comes to on an acceptable form whose type
    has a successor: save, then ask [proceedToStep]. *)
Lemma handleFormSubmission_acceptable
    (form : Form) (now now' next : string) (w : World) :
  acceptable form -> getNextStep (studyForm form) = Some next ->
  snd (handleFormSubmission form now now' w)
  = snd (proceedToStep next
           (saveFormData (studyForm form) (collectFormData form) now now' w)).
Proof.
  intros Hok Hnext. unfold handleFormSubmission.
  destruct (validateForm_acceptable form w Hok) as [Hv Hw].
  destruct (validateForm form w) as [[valid form'] w1]. simpl in Hv, Hw. subst valid w1.
  simpl. rewrite Hnext.
  destruct (getNextStep_is_step _ _ Hnext) as [Hne _].
  destruct (String.eqb_spec next ""); [contradiction | reflexivity].
Qed.

Lemma saveFormData_keeps (formType : string) (formData : gmap string jval)
    (now now' : string) (w : World) :
  currentStep (saveFormData formType formData now now' w) = currentStep w /\
  href (saveFormData formType formData now now' w) = href w /\
  has_container (saveFormData formType formData now now' w) = has_container w /\
  localStorage (saveFormData formType formData now now' w)
  = <["qmul_participant_data" :=
        SJson (participantData (saveFormData formType formData now now' w))]>
      (localStorage w).
Proof.
  unfold saveFormData. cbv zeta.
  destruct (formType =? "participant_info")%string; [repeat split |].
  destruct (formType =? "consent")%string; [repeat split |].
  destruct (formType =? "questionnaire")%string; repeat split.
Qed.

(** X2: A form with a blank required field (empty or white space only) is
    turned down: [handleFormSubmission] saves nothing, stays on the step and
    the page, and leaves each required field marked exactly when it is
    blank.  The fields are taken to hold no white space outside ASCII in a
    value that is blank, where [trim_is_empty] and [trim] of JavaScript
    agree. *)
Theorem blank_required_field_stops_submission
    (form : Form) (now now' : string) (w : World) :
  (forall f, In f (required form) -> js_blank (value f) = trim_is_empty (value f)) ->
  (exists f, In f (required form) /\ js_blank (value f) = true) ->
  participantData (snd (handleFormSubmission form now now' w)) = participantData w /\
  localStorage (snd (handleFormSubmission form now now' w)) = localStorage w /\
  currentStep (snd (handleFormSubmission form now now' w)) = currentStep w /\
  href (snd (handleFormSubmission form now now' w)) = href w /\
  required (fst (handleFormSubmission form now now' w))
  = map (fun f => mkField (value f) (js_blank (value f))) (required form).
Proof.
  intros Hagree (f & Hin & Hf).
  assert (Hblank : exists f, In f (required form) /\ trim_is_empty (value f) = true).
  { exists f. split; [exact Hin |]. rewrite <- (Hagree f Hin). exact Hf. }
  assert (Hmap : map (fun f => mkField (value f) (js_blank (value f))) (required form)
                 = map (fun f => mkField (value f) (trim_is_empty (value f))) (required form)).
  { apply List.map_ext_in. intros g Hg. rewrite (Hagree g Hg). reflexivity. }
  rewrite Hmap.
  pose proof (blank_field_fails form w Hblank) as Hv.
  pose proof (validateForm_world form w) as Hw.
  pose proof (validateForm_marks form w) as Hm.
  unfold handleFormSubmission.
  destruct (validateForm form w) as [[valid form'] w1]. simpl in Hv, Hw, Hm.
  subst valid form'. simpl. tauto.
Qed.

Lemma blank_required_field_stops_submission_witness :
  localStorage
    (snd (handleFormSubmission
            (mkForm "questionnaire" [mkField "4" false; mkField "  " false] [] [("q1", "4")])
            "t" "t" sample_world)) = ∅ /\
  required
    (fst (handleFormSubmission
            (mkForm "questionnaire" [mkField "4" false; mkField "  " false] [] [("q1", "4")])
            "t" "t" sample_world))
  = [mkField "4" false; mkField "  " true].
Proof.
  destruct (blank_required_field_stops_submission
              (mkForm "questionnaire" [mkField "4" false; mkField "  " false] [] [("q1", "4")])
              "t" "t" sample_world) as (_ & Hls & _ & _ & Hreq).
  - intros f [<- | [<- | []]]; reflexivity.
  - exists (mkField "  " false). split; [simpl; auto | reflexivity].
  - split; [exact Hls | exact Hreq].
Defined.

(** The three parts of an acceptable submission: the record is saved; the
    guard lets the participant on; the guard turns the participant down. *)
Lemma submission_saved (form : Form) (now now' next : string) (w : World) :
  acceptable form -> getNextStep (studyForm form) = Some next ->
  participantData (snd (handleFormSubmission form now now' w))
  = participantData (saveFormData (studyForm form) (collectFormData form) now now' w) /\
  localStorage (snd (handleFormSubmission form now now' w)) !! "qmul_participant_data"
  = Some (SJson (participantData (snd (handleFormSubmission form now now' w)))).
Proof.
  intros Hok Hnext.
  rewrite (handleFormSubmission_acceptable form now now' next w Hok Hnext).
  destruct (getNextStep_is_step _ _ Hnext) as [Hne Hstep].
  destruct (saveFormData_keeps (studyForm form) (collectFormData form) now now' w)
    as (_ & _ & _ & Hls).
  set (saved := saveFormData (studyForm form) (collectFormData form) now now' w) in *.
  clearbody saved.
  destruct (step_has_page next Hstep) as (page & Hpage & Hpne).
  unfold proceedToStep.
  destruct (canProceedToStep next saved); simpl.
  - unfold navigateToPage. rewrite Hpage.
    destruct (page =? "")%string; simpl;
      (split; [reflexivity |]);
      (rewrite lookup_insert_ne by discriminate; rewrite Hls; apply lookup_insert_eq).
  - split; [reflexivity |]. rewrite Hls. apply lookup_insert_eq.
Qed.

Lemma submission_admitted (form : Form) (now now' next : string) (w : World) :
  acceptable form -> getNextStep (studyForm form) = Some next ->
  indexOf stepOrder next <= indexOf stepOrder (currentStep w) + 1 ->
  currentStep (snd (handleFormSubmission form now now' w)) = next /\
  localStorage (snd (handleFormSubmission form now now' w)) !! "qmul_study_step"
  = Some (SText next) /\
  href (snd (handleFormSubmission form now now' w)) = pageMap !! next.
Proof.
  intros Hok Hnext Hle.
  rewrite (handleFormSubmission_acceptable form now now' next w Hok Hnext).
  destruct (getNextStep_is_step _ _ Hnext) as [Hne Hstep].
  destruct (saveFormData_keeps (studyForm form) (collectFormData form) now now' w)
    as (Hcur & _).
  set (saved := saveFormData (studyForm form) (collectFormData form) now now' w) in *.
  clearbody saved.
  destruct (step_has_page next Hstep) as (page & Hpage & Hpne).
  assert (Hyes : canProceedToStep next saved = true)
    by (apply canProceedToStep_spec; rewrite Hcur; exact Hle).
  unfold proceedToStep. rewrite Hyes. simpl.
  unfold navigateToPage. rewrite Hpage.
  destruct (String.eqb_spec page ""); [contradiction |]. simpl.
  split; [reflexivity |]. split; [apply lookup_insert_eq | reflexivity].
Qed.

Lemma submission_refused (form : Form) (now now' next : string) (w : World) :
  acceptable form -> getNextStep (studyForm form) = Some next ->
  indexOf stepOrder (currentStep w) + 1 < indexOf stepOrder next ->
  currentStep (snd (handleFormSubmission form now now' w)) = currentStep w /\
  localStorage (snd (handleFormSubmission form now now' w))
  = localStorage (saveFormData (studyForm form) (collectFormData form) now now' w) /\
  href (snd (handleFormSubmission form now now' w)) = href w /\
  (has_container w = true ->
     exists element,
       alert (snd (handleFormSubmission form now now' w))
       = Some (element, order_warning, "alert alert-warning")).
Proof.
  intros Hok Hnext Hgt.
  rewrite (handleFormSubmission_acceptable form now now' next w Hok Hnext).
  destruct (saveFormData_keeps (studyForm form) (collectFormData form) now now' w)
    as (Hcur & Hhref & Hcont & _).
  set (saved := saveFormData (studyForm form) (collectFormData form) now now' w) in *.
  clearbody saved.
  assert (Hno : canProceedToStep next saved = false).
  { destruct (canProceedToStep next saved) eqn:E; [| reflexivity].
    apply canProceedToStep_spec in E. rewrite Hcur in E. lia. }
  unfold proceedToStep. rewrite Hno. simpl.
  split; [exact Hcur |]. split; [reflexivity |]. split; [exact Hhref |].
  intros Hc. rewrite Hcont, Hc. eexists. reflexivity.
Qed.

(** X3: An acceptable form is saved before the step guard is asked: the record
    with the collected data is in memory and in [localStorage] whether or
    not the guard lets the participant on.  When the next step is at most
    one past the current one, the step becomes the next step and its page is
    loaded; otherwise step, page and the rest of the storage stay and the
    order warning is shown. *)
Theorem acceptable_form_saved_then_guarded
    (form : Form) (now now' next : string) (w : World) :
  acceptable form -> getNextStep (studyForm form) = Some next ->
  let saved := saveFormData (studyForm form) (collectFormData form) now now' w in
  let w' := snd (handleFormSubmission form now now' w) in
  participantData w' = participantData saved /\
  localStorage w' !! "qmul_participant_data" = Some (SJson (participantData saved)) /\
  (studyForm form = "participant_info" ->
     participantInfo (participantData w') = Some (collectFormData form)) /\
  (studyForm form = "consent" ->
     consentData (participantData w')
     = Some (<["timestamp" := JStr now]> (collectFormData form))) /\
  (indexOf stepOrder next <= indexOf stepOrder (currentStep w) + 1 ->
     currentStep w' = next /\
     localStorage w' !! "qmul_study_step" = Some (SText next) /\
     href w' = pageMap !! next) /\
  (indexOf stepOrder (currentStep w) + 1 < indexOf stepOrder next ->
     currentStep w' = currentStep w /\
     localStorage w' = localStorage saved /\
     href w' = href w /\
     (has_container w = true ->
        exists element, alert w' = Some (element, order_warning, "alert alert-warning"))).
Proof.
  intros Hok Hnext saved w'.
  destruct (submission_saved form now now' next w Hok Hnext) as [Hdata Hls].
  fold w' saved in Hdata, Hls.
  split; [exact Hdata |].
  split; [rewrite <- Hdata; exact Hls |].
  split.
  { intros Hty. rewrite Hdata. unfold saved, saveFormData. rewrite Hty. reflexivity. }
  split.
  { intros Hty. rewrite Hdata. unfold saved, saveFormData. rewrite Hty. reflexivity. }
  split.
  - apply submission_admitted; assumption.
  - apply submission_refused; assumption.
Qed.

Lemma acceptable_sample_info_form : acceptable sample_info_form.
Proof.
  split; [| split].
  - intros f [<- | []]. reflexivity.
  - discriminate.
  - intros kv [<- | [<- | [<- | []]]]; reflexivity.
Qed.

Lemma acceptable_form_saved_then_guarded_witness :
  currentStep (snd (handleFormSubmission sample_info_form "t" "t"
                      (mkWorld "participant_info" sample_data ∅ None true None 0 [])))
  = "consent_form" /\
  href (snd (handleFormSubmission sample_info_form "t" "t"
               (mkWorld "participant_info" sample_data ∅ None true None 0 [])))
  = Some "consent_form.html" /\
  href (snd (handleFormSubmission sample_info_form "t" "t"
               (mkWorld "portal" sample_data ∅ None true None 0 [])))
  = None.
Proof.
  destruct (acceptable_form_saved_then_guarded sample_info_form "t" "t" "consent_form"
              (mkWorld "participant_info" sample_data ∅ None true None 0 [])
              acceptable_sample_info_form eq_refl)
    as (_ & _ & _ & _ & Hon & _).
  destruct (acceptable_form_saved_then_guarded sample_info_form "t" "t" "consent_form"
              (mkWorld "portal" sample_data ∅ None true None 0 [])
              acceptable_sample_info_form eq_refl)
    as (_ & _ & _ & _ & _ & Hoff).
  destruct Hon as (Hstep & _ & Hhref); [vm_compute; discriminate |].
  destruct Hoff as (_ & _ & Hstay & _); [vm_compute; reflexivity |].
  split; [exact Hstep |]. split; [exact Hhref | exact Hstay].
Defined.

(** X4: The page loaded after an admitted submission resumes the flow: the
    manager its script constructs stands at the next step and holds the
    record just saved. *)
Theorem next_page_resumes_after_submission
    (e : Entropy) (form : Form) (now now' next : string) (w : World) (container : bool) :
  acceptable form -> getNextStep (studyForm form) = Some next ->
  indexOf stepOrder next <= indexOf stepOrder (currentStep w) + 1 ->
  construct e (localStorage (snd (handleFormSubmission form now now' w))) container
  = Some (mkWorld next
                  (participantData (snd (handleFormSubmission form now now' w)))
                  (localStorage (snd (handleFormSubmission form now now' w)))
                  None container None 0 []).
Proof.
  intros Hok Hnext Hle.
  destruct (submission_saved form now now' next w Hok Hnext) as [_ Hls].
  destruct (submission_admitted form now now' next w Hok Hnext Hle) as (_ & Hstep & _).
  destruct (getNextStep_is_step _ _ Hnext) as [Hne _].
  unfold construct, loadParticipantData, getCurrentStep. rewrite Hls, Hstep.
  destruct (String.eqb_spec next ""); [contradiction | reflexivity].
Qed.

Lemma next_page_resumes_after_submission_witness :
  exists w,
    construct sample_entropy
      (localStorage (snd (handleFormSubmission sample_info_form "t" "t"
                            (mkWorld "participant_info" sample_data ∅ None true None 0 []))))
      true = Some w /\
    currentStep w = "consent_form" /\
    sessionId (participantData w) = "QMUL_1_abc".
Proof.
  eexists. split.
  - apply (next_page_resumes_after_submission sample_entropy sample_info_form "t" "t"
             "consent_form" (mkWorld "participant_info" sample_data ∅ None true None 0 [])
             true acceptable_sample_info_form eq_refl).
    vm_compute. discriminate.
  - split; [reflexivity | vm_compute; reflexivity].
Defined.

(** ** Properties of reset, therapy completion and export *)

(** X5: [resetStudy] forgets the participant: the step is the portal, the
    record is a new one, both keys are gone from [localStorage] while every
    other key stays, and the export of the manager carries nothing of the
    earlier record; the page loaded next starts at the portal with a record
    of its own.  The global function does this and loads the portal when
    the participant confirms, and nothing otherwise. *)
Theorem resetStudy_forgets_participant
    (e e' : Entropy) (nav : Navigator) (w : World) (container : bool) :
  exists w',
    resetStudy e w = Some w' /\
    currentStep w' = "portal" /\
    participantData w' = fresh_data e /\
    localStorage w' !! "qmul_study_step" = None /\
    localStorage w' !! "qmul_participant_data" = None /\
    (forall key, key <> "qmul_study_step" -> key <> "qmul_participant_data" ->
       localStorage w' !! key = localStorage w !! key) /\
    prepareExportData nav w'
    = mkExport (generateSessionId e) (iso_now e) None false
               (mkExportInfo None None None) false None false None (Some ∅) "v1.0" nav /\
    construct e' (localStorage w') container
    = Some (mkWorld "portal" (fresh_data e') (localStorage w') None container None 0 []) /\
    global_resetStudy true e w = Some (set_href w' "experiment_portal.html") /\
    global_resetStudy false e w = Some w.
Proof.
  unfold global_resetStudy, resetStudy, loadParticipantData. cbv zeta.
  rewrite lookup_delete_eq. eexists. split; [reflexivity |]. simpl.
  split; [reflexivity |]. split; [reflexivity |].
  split; [rewrite lookup_delete_ne by discriminate; apply lookup_delete_eq |].
  split; [apply lookup_delete_eq |].
  split; [intros key H1 H2; rewrite !lookup_delete_ne by congruence; reflexivity |].
  split; [reflexivity |].
  split; [| split; reflexivity].
  unfold construct, loadParticipantData, getCurrentStep.
  rewrite lookup_delete_eq, lookup_delete_ne by discriminate.
  rewrite lookup_delete_eq. reflexivity.
Qed.

(** X6: [integrateWithTherapySystem] asks no guard: from every step it puts the
    manager on the questionnaire step, in memory and in [localStorage],
    without loading a page; it stores the record with the therapy marked
    complete at [now], which the export then reports; the sections of the
    forms stay as they are; and the guard then admits the thank-you step,
    no questionnaire having been saved. *)
Theorem therapy_completion_opens_questionnaire
    (now : string) (nav : Navigator) (w : World) :
  currentStep (integrateWithTherapySystem now w) = "questionnaire" /\
  getCurrentStep (localStorage (integrateWithTherapySystem now w)) = "questionnaire" /\
  localStorage (integrateWithTherapySystem now w) !! "qmul_participant_data"
  = Some (SJson (participantData (integrateWithTherapySystem now w))) /\
  href (integrateWithTherapySystem now w) = href w /\
  therapyCompleted (prepareExportData nav (integrateWithTherapySystem now w)) = true /\
  therapyTimestamp (prepareExportData nav (integrateWithTherapySystem now w))
  = Some (JStr now) /\
  participantInfo (participantData (integrateWithTherapySystem now w))
  = participantInfo (participantData w) /\
  consentData (participantData (integrateWithTherapySystem now w))
  = consentData (participantData w) /\
  questionnaireData (participantData (integrateWithTherapySystem now w))
  = questionnaireData (participantData w) /\
  fst (proceedToStep "thank_you" (integrateWithTherapySystem now w)) = true.
Proof.
  unfold integrateWithTherapySystem. cbv zeta.
  repeat match goal with |- _ /\ _ => split end; try reflexivity.
  - unfold getCurrentStep, setCurrentStep. simpl. rewrite lookup_insert_eq. reflexivity.
  - unfold setCurrentStep, saveParticipantData. simpl.
    rewrite lookup_insert_ne by discriminate. apply lookup_insert_eq.
Qed.

(** X7: Saving the consent form makes the export report consent, with the time
    of the saving as its timestamp, whatever the form submits, a field named
    [timestamp] included. *)
Theorem saved_consent_is_exported
    (formData : gmap string jval) (now now' : string) (nav : Navigator) (w : World) :
  now <> "" ->
  consentGiven (prepareExportData nav (saveFormData "consent" formData now now' w)) = true /\
  consentTimestamp (prepareExportData nav (saveFormData "consent" formData now now' w))
  = Some (JStr now).
Proof.
  intros Hnow. unfold prepareExportData, saveFormData. simpl.
  rewrite lookup_insert_eq. simpl.
  destruct (String.eqb_spec now ""); [contradiction |]. split; reflexivity.
Qed.

Lemma saved_consent_is_exported_witness :
  consentTimestamp
    (prepareExportData (mkNavigator "UA" "en-GB" "Linux")
       (saveFormData "consent" (<["timestamp" := JStr "1999"]> ∅)
                     "2025-01-01T00:00:00.000Z" "" sample_world))
  = Some (JStr "2025-01-01T00:00:00.000Z").
Proof.
  apply (saved_consent_is_exported (<["timestamp" := JStr "1999"]> ∅)
           "2025-01-01T00:00:00.000Z" "" (mkNavigator "UA" "en-GB" "Linux") sample_world).
  discriminate.
Defined.

(** ** Properties of the step guard *)

Lemma indexOf_from_bounds (l : list string) (x : string) (i : Z) :
  (indexOf_from l x i = -1 /\ ~ In x l) \/
  (i <= indexOf_from l x i /\ In x l) \/
  (i < 0 /\ In x l).
Proof.
  revert i. induction l as [| y l IH]; intros i; simpl.
  - left. split; [reflexivity | tauto].
  - destruct (String.eqb_spec y x) as [-> | Hne].
    + destruct (Z.le_gt_cases 0 i); [right; left; split; [lia | auto] | right; right; split; [lia | auto]].
    + destruct (IH (i + 1)) as [[H1 H2] | [[H1 H2] | [H1 H2]]].
      * left. split; [exact H1 | intros [? | ?]; congruence].
      * right. left. split; [lia | auto].
      * right. right. split; [lia | auto].
Qed.

Lemma indexOf_unknown (l : list string) (x : string) : ~ In x l -> indexOf l x = -1.
Proof.
  intros Hnot. unfold indexOf.
  destruct (indexOf_from_bounds l x 0) as [[H _] | [[_ H] | [_ H]]];
    [exact H | contradiction | contradiction].
Qed.

Lemma indexOf_known (l : list string) (x : string) : In x l -> 0 <= indexOf l x.
Proof.
  intros Hin. unfold indexOf.
  destruct (indexOf_from_bounds l x 0) as [[_ H] | [[H _] | [H _]]];
    [contradiction | exact H | lia].
Qed.

Lemma pageMap_only_steps (t page : string) : pageMap !! t = Some page -> In t stepOrder.
Proof.
  unfold pageMap. intros H.
  apply elem_of_list_to_map_2 in H. apply list_elem_of_In in H. simpl in H.
  destruct H as [H | [H | [H | [H | [H | [H | []]]]]]]; injection H as <- _; simpl; tauto.
Qed.

Lemma proceedToStep_current (t : string) (w : World) :
  currentStep (snd (proceedToStep t w))
  = if canProceedToStep t w then t else currentStep w.
Proof.
  unfold proceedToStep. destruct (canProceedToStep t w); simpl; [| reflexivity].
  unfold navigateToPage. destruct (pageMap !! t) as [page |]; [| reflexivity].
  destruct (page =? "")%string; reflexivity.
Qed.

(** X8: A target that is not one of the six steps always passes the guard: it
    becomes the current step, in memory and in [localStorage], and no page
    is loaded; from there the guard admits no step but the portal.  The
    target is taken not to be a property name every object inherits, under
    which [pageMap[step]] finds the inherited value. *)
Theorem unknown_target_sends_back_to_portal (t : string) (w : World) :
  ~ In t stepOrder -> inherited t = false ->
  fst (proceedToStep t w) = true /\
  currentStep (snd (proceedToStep t w)) = t /\
  localStorage (snd (proceedToStep t w)) !! "qmul_study_step" = Some (SText t) /\
  href (snd (proceedToStep t w)) = href w /\
  (forall t', In t' stepOrder ->
     (fst (proceedToStep t' (snd (proceedToStep t w))) = true <-> t' = "portal")).
Proof.
  intros Hnot _.
  assert (Hyes : canProceedToStep t w = true).
  { apply canProceedToStep_spec. rewrite (indexOf_unknown _ _ Hnot).
    destruct (indexOf_from_bounds stepOrder (currentStep w) 0)
      as [[H _] | [[H _] | [H _]]]; unfold indexOf; lia. }
  assert (Hpage : pageMap !! t = None).
  { destruct (pageMap !! t) as [page |] eqn:E; [| reflexivity].
    apply pageMap_only_steps in E. contradiction. }
  pose proof (proceedToStep_current t w) as Hcur. rewrite Hyes in Hcur.
  unfold proceedToStep in *. rewrite Hyes in *. simpl in *.
  unfold navigateToPage in *. rewrite Hpage in *. simpl.
  split; [reflexivity |]. split; [reflexivity |].
  split; [apply lookup_insert_eq |]. split; [reflexivity |].
  intros t' Hin.
  set (w1 := setCurrentStep t w).
  assert (Hguard : canProceedToStep t' w1 = true <-> indexOf stepOrder t' <= 0).
  { rewrite canProceedToStep_spec. unfold w1. simpl.
    rewrite (indexOf_unknown stepOrder t Hnot). lia. }
  destruct (canProceedToStep t' w1) eqn:E; simpl.
  - split; [intros _ | reflexivity].
    destruct Hguard as [Hg _]. specialize (Hg eq_refl).
    simpl in Hin.
    destruct Hin as [<- | [<- | [<- | [<- | [<- | [<- | []]]]]]];
      first [reflexivity | vm_compute in Hg; exfalso; apply Hg; reflexivity].
  - split; [discriminate |]. intros ->.
    destruct Hguard as [_ Hg].
    apply Hg. vm_compute. discriminate.
Qed.

Lemma unknown_target_sends_back_to_portal_witness :
  fst (proceedToStep "consent" sample_world) = true /\
  (fst (proceedToStep "therapy" (snd (proceedToStep "consent" sample_world))) = true
   <-> "therapy" = "portal").
Proof.
  destruct (unknown_target_sends_back_to_portal "consent" sample_world)
    as (Hyes & _ & _ & _ & Hnext).
  - simpl. intros [H | [H | [H | [H | [H | [H | []]]]]]]; discriminate H.
  - reflexivity.
  - split; [exact Hyes | apply Hnext; simpl; tauto].
Defined.

Lemma proceedToStep_one_step (t : string) (w : World) :
  indexOf stepOrder (currentStep (snd (proceedToStep t w)))
  <= indexOf stepOrder (currentStep w) + 1.
Proof.
  rewrite proceedToStep_current.
  destruct (canProceedToStep t w) eqn:E; [| lia].
  apply canProceedToStep_spec in E. exact E.
Qed.

(** X9: However the targets are chosen, [proceedToStep] moves the participant
    forward by at most one step per call. *)
Theorem proceedToStep_never_skips (targets : list string) (w : World) :
  indexOf stepOrder (currentStep (proceedAll targets w))
  <= indexOf stepOrder (currentStep w) + Z.of_nat (length targets).
Proof.
  unfold proceedAll. revert w.
  induction targets as [| t targets IH]; intros w; [simpl; lia |].
  cbn [fold_left length]. specialize (IH (snd (proceedToStep t w))).
  pose proof (proceedToStep_one_step t w). lia.
Qed.

(** ** Properties of the progress indicators *)

Lemma marked_classes (classList : gset string) (mark c : string) :
  c ∈ classList ∖ {["completed"; "current"; "pending"]} ∪ {[mark]} <->
  c = mark \/ (c ∈ classList /\ c <> "completed" /\ c <> "current" /\ c <> "pending").
Proof.
  rewrite elem_of_union, elem_of_difference, elem_of_singleton.
  rewrite !elem_of_union, !elem_of_singleton. tauto.
Qed.

(** X10: [updateProgressIndicators] gives every step element exactly one of the
    three marks: [completed] before the position of the current step,
    [current] at it, [pending] after it, and [pending] everywhere when the
    current step is not a step of the order; the other classes of the
    element stay, and no element is added or dropped. *)
Theorem progress_marks_follow_current_step
    (steps : list (gset string)) (w : World) (index : nat) (classList : gset string) :
  steps !! index = Some classList ->
  length (updateProgressIndicators steps w) = length steps /\
  exists marked mark,
    updateProgressIndicators steps w !! index = Some marked /\
    (forall c, c ∈ marked <->
       c = mark \/ (c ∈ classList /\ c <> "completed" /\ c <> "current" /\ c <> "pending")) /\
    (Z.of_nat index < indexOf stepOrder (currentStep w) -> mark = "completed") /\
    (Z.of_nat index = indexOf stepOrder (currentStep w) -> mark = "current") /\
    (indexOf stepOrder (currentStep w) < Z.of_nat index -> mark = "pending") /\
    (~ In (currentStep w) stepOrder -> mark = "pending").
Proof.
  intros Hlook. unfold updateProgressIndicators. cbv zeta.
  split; [apply length_imap |].
  rewrite list_lookup_imap, Hlook. cbn [fmap option_fmap option_map].
  set (cur := indexOf stepOrder (currentStep w)).
  assert (Hunknown : ~ In (currentStep w) stepOrder -> cur = -1)
    by (intros H; apply indexOf_unknown; exact H).
  destruct (Z.ltb_spec (Z.of_nat index) cur) as [Hlt | Hge];
    [eexists; exists "completed"
    | destruct (Z.eqb_spec (Z.of_nat index) cur) as [Heq | Hne];
      [eexists; exists "current" | eexists; exists "pending"]];
    (split; [reflexivity |]); (split; [intros c; apply marked_classes |]);
    repeat split; intros; try reflexivity; try lia;
    match goal with H : ~ In _ _ |- _ => apply Hunknown in H; lia end.
Qed.

Lemma progress_marks_follow_current_step_witness :
  exists marked,
    updateProgressIndicators [{["step"; "pending"]}; {["step"]}; {["step"; "current"]}]
                             sample_world !! 2%nat = Some marked /\
    "current" ∈ marked /\ "step" ∈ marked.
Proof.
  destruct (progress_marks_follow_current_step
              [{["step"; "pending"]}; {["step"]}; {["step"; "current"]}]
              sample_world 2 {["step"; "current"]} eq_refl)
    as (_ & marked & mark & Hlook & Hin & _ & Hcur & _).
  exists marked. split; [exact Hlook |].
  rewrite (Hcur eq_refl) in Hin.
  split; apply Hin; [left; reflexivity |].
  right. split; [| repeat split; discriminate].
  apply elem_of_union. left. apply elem_of_singleton. reflexivity.
Defined.

(** ** Properties of a run through the pages *)

Lemma reload_after_submission
    (e : Entropy) (form : Form) (now now' next : string) (w : World) (container : bool) :
  acceptable form -> getNextStep (studyForm form) = Some next ->
  indexOf stepOrder next <= indexOf stepOrder (currentStep w) + 1 ->
  construct e (localStorage (snd (handleFormSubmission form now now' w))) container
  = Some (mkWorld next
                  (participantData (snd (handleFormSubmission form now now' w)))
                  (localStorage (snd (handleFormSubmission form now now' w)))
                  None container None 0 []).
Proof.
  intros Hok Hnext Hle.
  destruct (submission_saved form now now' next w Hok Hnext) as [_ Hls].
  destruct (submission_admitted form now now' next w Hok Hnext Hle) as (_ & Hstep & _).
  destruct (getNextStep_is_step _ _ Hnext) as [Hne _].
  unfold construct, loadParticipantData, getCurrentStep. rewrite Hls, Hstep.
  destruct (String.eqb_spec next ""); [contradiction | reflexivity].
Qed.

Lemma reload_after_therapy (e : Entropy) (now : string) (w : World) (container : bool) :
  construct e (localStorage (integrateWithTherapySystem now w)) container
  = Some (mkWorld "questionnaire"
                  (participantData (integrateWithTherapySystem now w))
                  (localStorage (integrateWithTherapySystem now w))
                  None container None 0 []).
Proof.
  unfold construct, loadParticipantData, getCurrentStep, integrateWithTherapySystem.
  cbv zeta. unfold setCurrentStep, saveParticipantData. simpl.
  rewrite lookup_insert_ne by discriminate. rewrite !lookup_insert_eq. reflexivity.
Qed.

(** X11: A participant who fills in three acceptable forms and completes the
    therapy arrives at the thank-you page, and the export then reports the
    whole run: the session identifier and start time created when the
    participant information page was loaded (the record the portal page
    created is never stored), the three exported fields of the information
    form, consent and therapy with their times, the questionnaire answers,
    the end time and [completed]. *)
Theorem full_run_reaches_thank_you
    (e0 e1 e2 e3 e4 : Entropy) (info consent questionnaire : Form)
    (t_info t_consent t_therapy t_questionnaire t_end : string) (nav : Navigator) :
  acceptable info -> studyForm info = "participant_info" ->
  acceptable consent -> studyForm consent = "consent" ->
  acceptable questionnaire -> studyForm questionnaire = "questionnaire" ->
  t_consent <> "" ->
  exists w,
    study_run e0 e1 e2 e3 e4 info consent questionnaire
              t_info t_consent t_therapy t_questionnaire t_end = Some w /\
    currentStep w = "thank_you" /\
    href w = Some "thank_you.html" /\
    localStorage w !! "qmul_participant_data" = Some (SJson (participantData w)) /\
    prepareExportData nav w
    = mkExport (generateSessionId e1) (iso_now e1) (Some t_end) true
               (mkExportInfo (collectFormData info !! "ageGroup")
                             (collectFormData info !! "gender")
                             (collectFormData info !! "digitalHealthExperience"))
               true (Some (JStr t_consent))
               true (Some (JStr t_therapy))
               (Some (<["timestamp" := JStr t_questionnaire]> (collectFormData questionnaire)))
               "v1.0" nav.
Proof.
  intros Hinfo Tinfo Hconsent Tconsent Hquest Tquest Htime.
  assert (Ninfo : getNextStep (studyForm info) = Some "consent_form")
    by (rewrite Tinfo; reflexivity).
  assert (Nconsent : getNextStep (studyForm consent) = Some "therapy")
    by (rewrite Tconsent; reflexivity).
  assert (Nquest : getNextStep (studyForm questionnaire) = Some "thank_you")
    by (rewrite Tquest; reflexivity).
  unfold study_run.
  (* the portal *)
  change (construct e0 ∅ true)
    with (Some (mkWorld "portal" (fresh_data e0) ∅ None true None 0 [])).
  cbn [mbind option_bind].
  change (construct e1 _ true)
    with (Some (mkWorld "participant_info" (fresh_data e1)
                        (<["qmul_study_step" := SText "participant_info"]> ∅)
                        None true None 0 [])).
  cbn [mbind option_bind].
  set (w1 := mkWorld "participant_info" (fresh_data e1) _ None true None 0 []).
  (* the participant information form *)
  rewrite (reload_after_submission e2 info t_info t_info "consent_form" w1 true Hinfo Ninfo)
    by (vm_compute; discriminate).
  cbn [mbind option_bind].
  destruct (submission_saved info t_info t_info "consent_form" w1 Hinfo Ninfo) as [D1 _].
  set (w2 := mkWorld "consent_form" _ _ None true None 0 []).
  (* the consent form *)
  rewrite (reload_after_submission e3 consent t_consent t_consent "therapy" w2 true
             Hconsent Nconsent) by (vm_compute; discriminate).
  cbn [mbind option_bind].
  destruct (submission_saved consent t_consent t_consent "therapy" w2 Hconsent Nconsent)
    as [D2 _].
  set (w3 := mkWorld "therapy" _ _ None true None 0 []).
  (* the therapy page *)
  rewrite (reload_after_therapy e4 t_therapy w3 true).
  cbn [mbind option_bind].
  set (w4 := mkWorld "questionnaire" _ _ None true None 0 []).
  (* the questionnaire *)
  destruct (submission_saved questionnaire t_questionnaire t_end "thank_you" w4 Hquest Nquest)
    as [D4 L4].
  destruct (submission_admitted questionnaire t_questionnaire t_end "thank_you" w4
              Hquest Nquest) as (S4 & _ & H4); [vm_compute; discriminate |].
  eexists. split; [reflexivity |].
  split; [exact S4 |]. split; [exact H4 |]. split; [exact L4 |].
  unfold prepareExportData. cbv zeta. rewrite D4.
  unfold saveFormData. rewrite Tquest. cbv zeta.
  cbn [String.eqb Ascii.eqb Bool.eqb participantData set_data add_timeout saveParticipantData
       set_storage sessionId startTime endTime participantInfo consentData therapyData
       questionnaireData completed w4].
  unfold integrateWithTherapySystem. cbv zeta.
  cbn [participantData set_data setCurrentStep set_step saveParticipantData set_storage
       sessionId startTime endTime participantInfo consentData therapyData
       questionnaireData completed w3].
  rewrite D2. unfold saveFormData. rewrite Tconsent. cbv zeta.
  cbn [String.eqb Ascii.eqb Bool.eqb participantData set_data add_timeout saveParticipantData
       set_storage sessionId startTime endTime participantInfo consentData therapyData
       questionnaireData completed w2].
  rewrite D1. unfold saveFormData. rewrite Tinfo. cbv zeta.
  cbn [String.eqb Ascii.eqb Bool.eqb participantData set_data add_timeout saveParticipantData
       set_storage sessionId startTime endTime participantInfo consentData therapyData
       questionnaireData completed w1 fresh_data opt_get].
  rewrite !lookup_insert_eq.
  rewrite !lookup_insert_ne by discriminate. rewrite !lookup_insert_eq.
  cbn [truthy_opt truthy]. 
  destruct (String.eqb_spec t_consent ""); [contradiction | reflexivity].
Qed.

Lemma acceptable_sample_agreed_form : acceptable sample_agreed_form.
Proof.
  split; [| split].
  - intros f [].
  - intros _ c [<- | [<- | []]]; reflexivity.
  - intros kv [<- | [<- | []]]; reflexivity.
Qed.

Lemma acceptable_sample_questionnaire : acceptable sample_questionnaire.
Proof.
  split; [| split].
  - intros f [<- | []]. reflexivity.
  - discriminate.
  - intros kv [<- | [<- | [<- | []]]]; reflexivity.
Qed.

Lemma full_run_reaches_thank_you_witness :
  exists w,
    study_run sample_entropy sample_entropy sample_entropy sample_entropy sample_entropy
              sample_info_form sample_agreed_form sample_questionnaire
              "t1" "t2" "t3" "t4" "t5" = Some w /\
    currentStep w = "thank_you" /\
    ageGroup (export_participantInfo (prepareExportData (mkNavigator "UA" "en-GB" "Linux") w))
    = Some (JStr "25-34") /\
    consentGiven (prepareExportData (mkNavigator "UA" "en-GB" "Linux") w) = true.
Proof.
  destruct (full_run_reaches_thank_you
              sample_entropy sample_entropy sample_entropy sample_entropy sample_entropy
              sample_info_form sample_agreed_form sample_questionnaire
              "t1" "t2" "t3" "t4" "t5" (mkNavigator "UA" "en-GB" "Linux")
              acceptable_sample_info_form eq_refl
              acceptable_sample_agreed_form eq_refl
              acceptable_sample_questionnaire eq_refl)
    as (w & Hrun & Hstep & _ & _ & Hexport).
  - discriminate.
  - exists w. split; [exact Hrun |]. split; [exact Hstep |].
    rewrite Hexport. split; [vm_compute; reflexivity | reflexivity].
Defined.

(** ** Properties of the submission *)

(** X12: [submitDataToServer] answers [true] exactly when a reply with an ok
    status and a body that parses as JSON arrives before the 15000 ms abort
    timer; a reply whose body does not parse counts as a failure.  Either
    way one alert is raised and its removal registered: the success notice
    after [true], a warning that carries the message of the error after
    [false]. *)
Theorem submission_succeeds_exactly_when
    (API_BASE : string) (nav : Navigator) (n : Network) (w : World) :
  (snd (fst (submitDataToServer API_BASE nav n w)) = true <->
     exists l status,
       latency n = Some l /\ l < 15000 /\ answer n = Replied true status true) /\
  timeouts (snd (submitDataToServer API_BASE nav n w))
  = (timeouts w ++ [(5000, RemoveAlert (alert_seq w))])%list /\
  (has_container w = true ->
     (snd (fst (submitDataToServer API_BASE nav n w)) = true ->
        alert (snd (submitDataToServer API_BASE nav n w))
        = Some (alert_seq w, submitted_message, "alert alert-success")) /\
     (snd (fst (submitDataToServer API_BASE nav n w)) = false ->
        exists m,
          alert (snd (submitDataToServer API_BASE nav n w))
          = Some (alert_seq w, unavailable_message m, "alert alert-warning") /\
          (forall l status parses,
             latency n = Some l -> l < 15000 -> answer n = Replied false status parses ->
             m = "Submit failed: " ++ pretty status) /\
          (forall l status,
             latency n = Some l -> l < 15000 -> answer n = Replied true status false ->
             m = parse_message n) /\
          (forall l m',
             latency n = Some l -> l < 15000 -> answer n = Failed m' -> m = m') /\
          (forall l, latency n = Some l -> 15000 <= l -> m = abort_message n) /\
          (latency n = None -> m = abort_message n))).
Proof.
  unfold submitDataToServer, settle, submit_timeout. cbv zeta.
  destruct (latency n) as [l |]; [destruct (Z.ltb_spec l 15000) as [Hl | Hl] |].
  - destruct (answer n) as [ok status parses | m] eqn:Ha;
      [destruct ok; [destruct parses |] |]; simpl.
    + split; [split; [intros _; exists l, status; auto | reflexivity] |].
      split; [reflexivity |]. intros ->. split; [reflexivity | discriminate].
    + split; [split; [discriminate | intros (l' & s' & _ & _ & H); discriminate H] |].
      split; [reflexivity |]. intros ->. split; [discriminate |]. intros _.
      eexists. split; [reflexivity |].
      split; [intros l' s' p' _ _ H; discriminate H |].
      split; [reflexivity |].
      split; [intros l' m' _ _ H; discriminate H |].
      split; [intros l' H; injection H as <-; lia | discriminate].
    + split; [split; [discriminate | intros (l' & s' & _ & _ & H); discriminate H] |].
      split; [reflexivity |]. intros ->. split; [discriminate |]. intros _.
      eexists. split; [reflexivity |].
      split; [intros l' s' p' _ _ H; injection H as <- _; reflexivity |].
      split; [intros l' s' _ _ H; discriminate H |].
      split; [intros l' m' _ _ H; discriminate H |].
      split; [intros l' H; injection H as <-; lia | discriminate].
    + split; [split; [discriminate | intros (l' & s' & _ & _ & H); discriminate H] |].
      split; [reflexivity |]. intros ->. split; [discriminate |]. intros _.
      eexists. split; [reflexivity |].
      split; [intros l' s' p' _ _ H; discriminate H |].
      split; [intros l' s' _ _ H; discriminate H |].
      split; [intros l' m' _ _ H; injection H as <-; reflexivity |].
      split; [intros l' H; injection H as <-; lia | discriminate].
  - simpl.
    split; [split; [discriminate | intros (l' & s' & H & Hlt & _); injection H as <-; lia] |].
    split; [reflexivity |]. intros ->. split; [discriminate |]. intros _.
    eexists. split; [reflexivity |].
    split; [intros l' s' p' H Hlt _; injection H as <-; lia |].
    split; [intros l' s' H Hlt _; injection H as <-; lia |].
    split; [intros l' m' H Hlt _; injection H as <-; lia |].
    split; reflexivity.
  - simpl.
    split; [split; [discriminate | intros (l' & s' & H & _); discriminate H] |].
    split; [reflexivity |]. intros ->. split; [discriminate |]. intros _.
    eexists. split; [reflexivity |].
    split; [intros l' s' p' H; discriminate H |].
    split; [intros l' s' H; discriminate H |].
    split; [intros l' m' H; discriminate H |].
    split; [intros l' H; discriminate H | reflexivity].
Qed.

(** ** Properties of the alerts *)

(** X13: Each alert is taken down by its own timer only: when a second alert
    has replaced the first, the timer of the first leaves the second on the
    page, and the timer of the second removes it. *)
Theorem alert_timer_spares_later_alert
    (m1 type1 m2 type2 API_BASE : string) (nav : Navigator) (n : Network) (w : World) :
  has_container w = true ->
  alert (showAlert m2 type2 (showAlert m1 type1 w))
  = Some (S (alert_seq w), m2, "alert alert-" ++ type2) /\
  timeouts (showAlert m2 type2 (showAlert m1 type1 w))
  = (timeouts w ++ [(5000, RemoveAlert (alert_seq w));
                    (5000, RemoveAlert (S (alert_seq w)))])%list /\
  alert (snd (fire (RemoveAlert (alert_seq w)) API_BASE nav n
                   (showAlert m2 type2 (showAlert m1 type1 w))))
  = Some (S (alert_seq w), m2, "alert alert-" ++ type2) /\
  alert (snd (fire (RemoveAlert (S (alert_seq w))) API_BASE nav n
                   (showAlert m2 type2 (showAlert m1 type1 w))))
  = None.
Proof.
  intros Hc. unfold showAlert, add_timeout, fire. cbn [has_container alert alert_seq timeouts snd].
  rewrite Hc.
  split; [reflexivity |].
  split; [rewrite <- List.app_assoc; reflexivity |].
  split.
  - destruct (Nat.eqb_spec (S (alert_seq w)) (alert_seq w)) as [H | _]; [lia | reflexivity].
  - rewrite Nat.eqb_refl. reflexivity.
Qed.

Lemma alert_timer_spares_later_alert_witness :
  alert (snd (fire (RemoveAlert 0) "" (mkNavigator "UA" "en-GB" "Linux")
                   (mkNetwork None (Failed "") "" "")
                   (showAlert "second" "info" (showAlert "first" "warning" sample_world))))
  = Some (1%nat, "second", "alert alert-info").
Proof.
  apply (alert_timer_spares_later_alert "first" "warning" "second" "info" ""
           (mkNavigator "UA" "en-GB" "Linux") (mkNetwork None (Failed "") "" "")
           sample_world eq_refl).
Defined.

End StudyFlow.

(* ===================================================================== *)
(** * String tables of the therapy page ([unnamed/part_003], lines 3-42)  *)
(* ===================================================================== *)

Module I18n.

Definition newline : string := String (ascii_of_nat 10) EmptyString.

(** The two object literals of [langResources], entry by entry. *)
Definition zh_entries : list (string * string) :=
  [("analyzing", "分析中...");
   ("startJourney", "开启疗愈之旅");
   ("input_alert", "请输入你的感受！");
   ("unit_bpm", "BPM");
   ("analysis_step1", "连接情绪神经网络...");
   ("analysis_step2", "解析27维情绪向量...");
   ("analysis_step3", "正在构建您的情绪图谱...");
   ("stage_emotion_analysis", "情绪解码");
   ("comfort_text", "别担心，你的所有感受，都值得被看见。");
   ("emotion_name_admiration", "钦佩");
   ("emotion_name_adoration", "崇拜");
   ("emotion_name_aesthetic_appreciation", "审美欣赏");
   ("emotion_name_amusement", "娱乐");
   ("emotion_name_anger", "愤怒");
   ("emotion_name_anxiety", "焦虑");
   ("emotion_name_awe", "敬畏");
   ("emotion_name_embarrassment", "尴尬");
   ("emotion_name_boredom", "无聊");
   ("emotion_name_calm", "平静");
   ("emotion_name_confusion", "困惑");
   ("emotion_name_contempt", "蔑视");
   ("emotion_name_desire", "渴望");
   ("emotion_name_disappointment", "失望");
   ("emotion_name_disgust", "厌恶");
   ("emotion_name_sympathy", "同情");
   ("emotion_name_entrancement", "入迷");
   ("emotion_name_jealousy", "嫉妒");
   ("emotion_name_excitement", "兴奋");
   ("emotion_name_fear", "恐惧");
   ("emotion_name_guilt", "内疚");
   ("emotion_name_horror", "恐怖");
   ("emotion_name_interest", "兴趣");
   ("emotion_name_joy", "快乐");
   ("emotion_name_nostalgia", "怀旧");
   ("emotion_name_romance", "浪漫");
   ("emotion_name_sadness", "悲伤");
   ("emotion_name_unknown", "复杂感受");
   ("desc_admiration", "您的文字中充满了钦佩。欣赏他人的优点，也能激励我们自己变得更好。");
   ("desc_adoration", "我们感受到了崇拜的情感，这是一种强烈而积极的联结。");
   ("desc_aesthetic_appreciation", "您展现了对美的欣赏。感受美、欣赏美是生活中非常重要的疗愈力量。");
   ("desc_amusement", "您的文字中充满了娱乐和趣味，轻松的心情是最好的解压药。");
   ("desc_anger", "我们识别到了您心中的愤怒。愤怒是情绪的警报，提醒我们有些东西需要被关注和理解。");
   ("desc_anxiety", "我们察觉到了您当下的焦虑。请记得深呼吸，专注于此刻，一切都会过去。");
   ("desc_awe", "我们捕捉到了敬畏的情感。当面对宏大或壮丽时，敬畏之心油然而生。");
   ("desc_embarrassment", "您似乎感到有些尴尬。这是正常的社交情绪，帮助我们更好地融入群体。");
   ("desc_boredom", "我们察觉到了一丝无聊的情绪。也许这是一个信号，提示您去寻找新的挑战或兴趣。");
   ("desc_calm", "您的内心似乎处于一种平静的状态。愿您能享受这份宁静与和谐。");
   ("desc_confusion", "您的思绪似乎有些困惑。没关系，让我们一起在这片迷雾中寻找方向。");
   ("desc_contempt", "我们识别到了蔑视的情绪，它通常源于复杂的比较和判断。");
   ("desc_desire", "您的文字中充满了渴望。渴望是我们行动的动力，指引着我们去追求目标。");
   ("desc_disappointment", "我们感受到了您的失望。当现实未及预期，感到失望是人之常情。");
   ("desc_disgust", "我们感受到了您对某些事物的厌恶。这是一种强烈的信号，帮助我们建立边界。");
   ("desc_sympathy", "您的文字展现了很强的同情心。能够共情他人的感受，是一种宝贵的能力。");
   ("desc_entrancement", "您似乎正处于一种入迷的状态，专注是通往内心世界的一扇门。");
   ("desc_jealousy", "我们捕捉到了嫉妒的情绪。它常常指向我们内心深处所渴望的东西。");
   ("desc_excitement", "我们感受到了您内心的兴奋与激动，期待美好的事情发生总是令人愉悦。");
   ("desc_fear", "我们察觉到了您内心的恐惧。请记住，感到恐惧是正常的，重要的是我们如何面对它。");
   ("desc_guilt", "您似乎正被内疚感所困扰。内疚提醒我们关注自己的行为，并给予我们成长的机会。");
   ("desc_horror", "我们察觉到了恐怖的情绪。请确保您当前处于一个安全的环境中。");
   ("desc_interest", "我们看到了您对事物的兴趣，这是探索和学习的开始。");
   ("desc_joy", "我们捕捉到了您心中的喜悦之情！愿这份快乐如同阳光，照亮您的一天。");
   ("desc_nostalgia", "怀旧的情绪悄然浮现。过去的回忆，无论是甜是苦，都塑造了今天的我们。");
   ("desc_romance", "浪漫的情愫在您的文字中弥漫，这是一种深刻而美好的情感体验。");
   ("desc_sadness", "我们感受到了您内心的悲伤。请允许自己慢慢体会这份情绪，所有感受都值得被温柔以待。");
   ("stage_gems_mapping", "情绪音乐 GEMS 映射");
   ("stage_kg_extraction", "知识图谱提取");
   ("prescription_title", "您的专属疗愈处方");
   ("section_title_params", "音乐处方参数");
   ("section_title_rationale", "疗愈机理阐述");
   ("section_title_practice", "引导性聆听建议");
   ("practice_text_default", "建议佩戴耳机，在一个安静的环境中完整聆听。尝试将注意力放在音乐的流动上，跟随旋律进行4秒吸气、6秒呼气的腹式呼吸。");
   ("iso_title", "正在应用：同质原理");
   ("iso_step1_desc", ("第一步：情绪匹配" ++ newline ++ "AI正应用同质原理，用与您情绪频率相似的音乐建立共鸣。"));
   ("iso_step2_desc", ("第二步：同频引导" ++ newline ++ "在共鸣基础上，音乐将进行转化，温柔地引导您的情绪状态。"));
   ("iso_step3_desc", "ISO原理应用完成，即将为您呈现专属的疗愈音乐。");
   ("video_main_title", "一段专属您的心灵之旅");
   ("video_subtitle_prefix", "疗愈方案编号");
   ("video_title_generic", "这段疗愈旅程，专属于你");
   ("video_title_fallback", "疗愈之声 (备用)");
   ("prelude_text", "请跟随光环... 深呼吸...");
   ("epilogue_text", "让这份平静，缓缓融入您的呼吸。");
   ("connection_lost", "与服务器的连接丢失，请刷新重试。");
   ("protocol_activated_template", "{protocolName} 已激活");
   ("protocol_anxiety_relief_critical", "深度焦虑舒缓协议");
   ("protocol_anger_release", "愤怒情绪疏导协议");
   ("protocol_fear_soothing", "恐惧情绪安抚协议");
   ("protocol_calm_maintenance", "深度平静维持协议");
   ("protocol_sadness_support", "悲伤情感支持协议");
   ("protocol_joy_energy", "快乐能量维持协议");
   ("protocol_anxiety_relief_moderate", "中度焦虑缓解协议");
   ("protocol_positive_excitement", "积极能量激活协议");
   ("protocol_nostalgia_comfort", "怀旧情感抚慰协议");
   ("protocol_interest_sparking", "内在兴趣激发协议");
   ("protocol_default", "基础情绪平衡协议");
   ("value_major", "大调");
   ("value_minor", "小调");
   ("value_neutral", "中性");
   ("value_loud", "强");
   ("value_soft", "弱");
   ("value_medium", "中等");
   ("value_consonant", "协和");
   ("value_dissonant", "不协和");
   ("value_mixed", "混合");
   ("value_high", "高音域");
   ("value_low", "低音域");
   ("value_dense", "密集");
   ("value_sparse", "稀疏");
   ("value_warm_pad", "温暖铺底");
   ("value_expressive_strings", "表现力弦乐");
   ("value_soft_choir", "轻柔合唱");
   ("value_nature_sounds", "自然之声");
   ("value_gentle_piano", "柔和钢琴");
   ("value_bright_ensemble", "明亮合奏");
   ("value_ambient_pad", "氛围铺底");
   ("value_energetic_mix", "活力律动");
   ("value_vintage_warmth", "复古温暖");
   ("value_interesting_textures", "趣味织体");
   ("value_neutral_pad", "中性铺底");
   ("approach_integration", "采用中性、平衡的音乐促进情绪整合与自我觉察。");
   ("approach_anxiety_relief", "采用缓慢、协和的音乐逐步降低生理激活水平，营造安全感。");
   ("approach_anger_release", "先用匹配情绪能量的音乐建立连接，再逐步引导到更平静的状态。");
   ("approach_sadness_support", "从共情音乐开始，逐步引入温暖、上升的音乐元素，给予希望感。");
   ("approach_positive_maintenance", "维持积极状态，同时通过稳定的节奏和结构避免过度兴奋。")].

Definition en_entries : list (string * string) :=
  [("analyzing", "Analyzing...");
   ("startJourney", "Start Healing Journey");
   ("input_alert", "Please enter how you feel!");
   ("unit_bpm", "BPM");
   ("analysis_step1", "Connecting to emotional neural network...");
   ("analysis_step2", "Parsing 27-dimensional emotion vectors...");
   ("analysis_step3", "Constructing your emotional profile...");
   ("stage_emotion_analysis", "Emotion Decoding");
   ("comfort_text", "Don't worry, all of your feelings are valid and deserve to be seen.");
   ("emotion_name_admiration", "Admiration");
   ("emotion_name_adoration", "Adoration");
   ("emotion_name_aesthetic_appreciation", "Aesthetic Appreciation");
   ("emotion_name_amusement", "Amusement");
   ("emotion_name_anger", "Anger");
   ("emotion_name_anxiety", "Anxiety");
   ("emotion_name_awe", "Awe");
   ("emotion_name_embarrassment", "Embarrassment");
   ("emotion_name_boredom", "Boredom");
   ("emotion_name_calm", "Calm");
   ("emotion_name_confusion", "Confusion");
   ("emotion_name_contempt", "Contempt");
   ("emotion_name_desire", "Desire");
   ("emotion_name_disappointment", "Disappointment");
   ("emotion_name_disgust", "Disgust");
   ("emotion_name_sympathy", "Sympathy");
   ("emotion_name_entrancement", "Entrancement");
   ("emotion_name_jealousy", "Jealousy");
   ("emotion_name_excitement", "Excitement");
   ("emotion_name_fear", "Fear");
   ("emotion_name_guilt", "Guilt");
   ("emotion_name_horror", "Horror");
   ("emotion_name_interest", "Interest");
   ("emotion_name_joy", "Joy");
   ("emotion_name_nostalgia", "Nostalgia");
   ("emotion_name_romance", "Romance");
   ("emotion_name_sadness", "Sadness");
   ("emotion_name_unknown", "Complex Feelings");
   ("desc_admiration", "Your words are filled with admiration. Appreciating the strengths of others can also inspire us to become better.");
   ("desc_adoration", "We sense a feeling of adoration, which is a strong and positive connection.");
   ("desc_aesthetic_appreciation", "You demonstrate an appreciation for beauty. Feeling and appreciating beauty is a vital healing force in life.");
   ("desc_amusement", "Your words are full of amusement and fun; a lighthearted mood is the best medicine for stress.");
   ("desc_anger", "We recognize the anger within you. Anger is an emotional alarm, alerting us that something needs attention and understanding.");
   ("desc_anxiety", "We have detected your current anxiety. Remember to take a deep breath, focus on the present moment, and know that this too shall pass.");
   ("desc_awe", "We've captured a sense of awe. When faced with the vast or magnificent, a feeling of awe naturally arises.");
   ("desc_embarrassment", "You seem to be feeling some embarrassment. This is a normal social emotion that helps us better integrate into groups.");
   ("desc_boredom", "We've detected a hint of boredom. Perhaps this is a signal prompting you to find new challenges or interests.");
   ("desc_calm", "Your inner world appears to be in a state of calm. May you enjoy this tranquility and harmony.");
   ("desc_confusion", "Your thoughts seem a bit confused. It's okay; let's find a way through this fog together.");
   ("desc_contempt", "We recognize the emotion of contempt, which often stems from complex comparisons and judgments.");
   ("desc_desire", "Your words are filled with desire. Desire is our motivation to act, guiding us toward our goals.");
   ("desc_disappointment", "We sense your disappointment. It's natural to feel this way when reality doesn't meet expectations.");
   ("desc_disgust", "We sense your aversion to something. This is a strong signal that helps us establish our boundaries.");
   ("desc_sympathy", "Your words show great sympathy. The ability to empathize with others' feelings is a precious quality.");
   ("desc_entrancement", "You seem to be in a state of entrancement; focus is a gateway to the inner world.");
   ("desc_jealousy", "We've captured the emotion of jealousy. It often points to what we deeply desire in our hearts.");
   ("desc_excitement", "We sense the excitement and thrill within you; anticipating good things is always a pleasure.");
   ("desc_fear", "We have detected a sense of fear. Please remember, feeling fear is normal; what matters is how we face it.");
   ("desc_guilt", "You seem to be troubled by guilt. Guilt reminds us to pay attention to our actions and gives us an opportunity to grow.");
   ("desc_horror", "We have detected an emotion of horror. Please ensure that you are currently in a safe environment.");
   ("desc_interest", "We see your interest in things, which is the beginning of exploration and learning.");
   ("desc_joy", "We've captured the joy in your heart! May this happiness shine like the sun and brighten your day.");
   ("desc_nostalgia", "A feeling of nostalgia has gently surfaced. Memories of the past, whether sweet or bitter, have shaped who we are today.");
   ("desc_romance", "A sense of romance permeates your words; it is a profound and beautiful emotional experience.");
   ("desc_sadness", "We sense the sadness within you. Please allow yourself to gently experience this emotion; all feelings deserve to be treated with tenderness.");
   ("stage_gems_mapping", "Emotion-Music GEMS Mapping");
   ("stage_kg_extraction", "Knowledge Graph Extraction");
   ("prescription_title", "Your Personal Healing Prescription");
   ("section_title_params", "Musical Prescription Parameters");
   ("section_title_rationale", "Therapeutic Rationale");
   ("section_title_practice", "Guided Listening Practice");
   ("practice_text_default", "It is recommended to use headphones and listen in a quiet environment. Try to focus on the flow of the music, and practice diaphragmatic breathing with a 4-second inhale and 6-second exhale.");
   ("iso_title", "Applying: ISO Principle");
   ("iso_step1_desc", ("Step 1: Matching" ++ newline ++ "The AI is applying the ISO principle..."));
   ("iso_step2_desc", ("Step 2: Entrainment" ++ newline ++ "Based on resonance, the music will subtly transform..."));
   ("iso_step3_desc", "ISO principle application complete. Preparing your music...");
   ("video_main_title", "A Mindful Journey, Just For You");
   ("video_subtitle_prefix", "Healing Protocol ID");
   ("video_title_generic", "This Healing Journey, Is Just For You");
   ("video_title_fallback", "Sound of Healing (Fallback)");
   ("prelude_text", "Please follow the halo... and breathe deeply...");
   ("epilogue_text", "Let this peace slowly merge with your breath.");
   ("connection_lost", "Connection to the server was lost. Please refresh and try again.");
   ("protocol_activated_template", "{protocolName} Activated");
   ("protocol_anxiety_relief_critical", "Deep Anxiety Relief Protocol");
   ("protocol_anger_release", "Anger Release Protocol");
   ("protocol_fear_soothing", "Fear Soothing Protocol");
   ("protocol_calm_maintenance", "Deep Calm Maintenance Protocol");
   ("protocol_sadness_support", "Sadness Support Protocol");
   ("protocol_joy_energy", "Joyful Energy Protocol");
   ("protocol_anxiety_relief_moderate", "Moderate Anxiety Relief Protocol");
   ("protocol_positive_excitement", "Positive Excitement Protocol");
   ("protocol_nostalgia_comfort", "Nostalgia Comfort Protocol");
   ("protocol_interest_sparking", "Interest Sparking Protocol");
   ("protocol_default", "Basic Emotional Balance Protocol");
   ("value_major", "Major");
   ("value_minor", "Minor");
   ("value_neutral", "Neutral");
   ("value_loud", "Loud");
   ("value_soft", "Soft");
   ("value_medium", "Medium");
   ("value_consonant", "Consonant");
   ("value_dissonant", "Dissonant");
   ("value_mixed", "Mixed");
   ("value_high", "High");
   ("value_low", "Low");
   ("value_dense", "Dense");
   ("value_sparse", "Sparse");
   ("value_warm_pad", "Warm Pad");
   ("value_expressive_strings", "Expressive Strings");
   ("value_soft_choir", "Soft Choir");
   ("value_nature_sounds", "Nature Sounds");
   ("value_gentle_piano", "Gentle Piano");
   ("value_bright_ensemble", "Bright Ensemble");
   ("value_ambient_pad", "Ambient Pad");
   ("value_energetic_mix", "Energetic Mix");
   ("value_vintage_warmth", "Vintage Warmth");
   ("value_interesting_textures", "Interesting Textures");
   ("value_neutral_pad", "Neutral Pad");
   ("approach_integration", "Utilizing neutral, balanced music to promote emotional integration and self-awareness.");
   ("approach_anxiety_relief", "Employing slow, consonant music to gradually reduce physiological arousal and create a sense of safety.");
   ("approach_anger_release", "Initiating with music that matches the emotional energy to establish a connection, then gradually guiding towards a calmer state.");
   ("approach_sadness_support", "Starting with empathetic music and progressively introducing warm, ascending musical elements to instill a sense of hope.");
   ("approach_positive_maintenance", "Maintaining a positive state while avoiding over-stimulation through stable rhythms and structure.")].

Definition zh : gmap string string := list_to_map zh_entries.
Definition en : gmap string string := list_to_map en_entries.

(** [langResources[lang]]. *)
Definition langResources (lang : string) : option (gmap string string) :=
  if String.eqb lang "zh" then Some zh
  else if String.eqb lang "en" then Some en
  else None.

(** The language state of the page: [document.documentElement.lang] and the
    handler's [currentLang], both written by [setLanguage]. *)
Record Display : Type := mkDisplay {
  documentLang : string;
  currentLang : string
}.

Definition setLanguage (lang : string) (d : Display) : Display :=
  mkDisplay lang lang.

(** The click handler of the language switcher. *)
Definition switchLanguage (d : Display) : Display :=
  setLanguage (if String.eqb (currentLang d) "zh" then "en" else "zh") d.

(** What [getText] returns: a string, or the value every object inherits
    under that name. *)
Inductive value : Type :=
| Str (s : string)
| Inherited (name : string).

(** [getText], given the display state it could read from [document]:
    [resource[key] || key] in the table of the constant language ['en'].
    The table is an object literal: under a name it does not hold itself,
    [resource[key]] is the value inherited from [Object.prototype] when
    there is one, and [undefined] otherwise. *)
Definition getText (d : Display) (key : string) : value :=
  let lang := "en" in
  match langResources lang with
  | Some resource =>
      match resource !! key with
      | Some text => if String.eqb text "" then Str key else Str text
      | None => if inherited key then Inherited key else Str key
      end
  | None => Str key
  end.

(** [v || s] for the empty string [s]. *)
Definition or_empty (v : value) : value :=
  match v with
  | Str s => if String.eqb s "" then Str "" else Str s
  | Inherited name => Inherited name
  end.

(** A value interpolated in a template literal.  The templates of the page
    interpolate the texts of keys the table holds; the text an engine gives
    for an inherited function is not modelled and stands as the empty
    string. *)
Definition interpolated (v : value) : string :=
  match v with
  | Str s => s
  | Inherited _ => ""
  end.

(** ** The texts of the main emotion *)

(** The string without its first [n] characters. *)
Fixpoint skip (n : nat) (s : string) : string :=
  match n, s with
  | O, _ => s
  | S n', String _ s' => skip n' s'
  | S _, EmptyString => EmptyString
  end.

(** [s.replace(pattern, replacement)] for a string pattern that is not
    empty and a replacement without [$]: the first occurrence of the
    pattern is replaced. *)
Fixpoint replace (pattern replacement s : string) : string :=
  match s with
  | EmptyString => EmptyString
  | String c s' =>
      if String.prefix pattern s
      then replacement ++ skip (String.length pattern) s
      else String c (replace pattern replacement s')
  end.

(** The title and the description the last callback of the AC stage shows
    for [analysisResult.titleKey] ([unnamed/part_003], lines 202-206). *)
Definition emotion_texts (d : Display) (titleKey : string) : value * value :=
  let mainEmotionKey := titleKey in
  let descriptionKey := "desc_" ++ replace "emotion_name_" "" mainEmotionKey in
  (getText d mainEmotionKey, or_empty (getText d descriptionKey)).

(** The check of one entry of the English table: an emotion name other
    than the fallback has its description in the table, and both are the
    texts shown. *)
Definition described (d : Display) (entry : string * string) : bool :=
  let (key, name) := entry in
  if String.prefix "emotion_name_" key && negb (String.eqb key "emotion_name_unknown") then
    match en !! ("desc_" ++ replace "emotion_name_" "" key), emotion_texts d key with
    | Some description, (Str title, Str shown) =>
        String.eqb title name && String.eqb shown description
    | _, _ => false
    end
  else true.

(** ** Properties *)

Lemma langResources_en : langResources "en" = Some en.
Proof. reflexivity. Qed.

Lemma en_entries_nonempty :
  forallb (fun kv : string * string => negb (String.eqb (snd kv) "")) en_entries = true.
Proof. vm_compute. reflexivity. Qed.

Lemma en_lookup_nonempty (key text : string) :
  en !! key = Some text -> text <> "".
Proof.
  intros H. unfold en in H. apply elem_of_list_to_map_2 in H.
  apply list_elem_of_In in H.
  pose proof en_entries_nonempty as Hall.
  rewrite forallb_forall in Hall. specialize (Hall _ H). cbv beta in Hall.
  change (snd (key, text)) with text in Hall.
  destruct (String.eqb_spec text ""); [discriminate | assumption].
Qed.

(** C7: for every key and every display state, [getText] is the entry of
    the English table when the table has one for the key; when it has
    none, [getText] is the key itself, unless the key is a property name
    every object inherits ([constructor], [toString], ...), for which it is
    the inherited value.  In particular it is the same in every display
    language. *)
Theorem getText_english_or_key (d : Display) (key : string) :
  getText d key = match en !! key with
                  | Some text => Str text
                  | None => if inherited key then Inherited key else Str key
                  end /\
  (forall d', getText d' key = getText d key).
Proof.
  split; [| reflexivity].
  unfold getText. cbv zeta. rewrite langResources_en.
  destruct (en !! key) as [text |] eqn:Hk; [| reflexivity].
  apply en_lookup_nonempty in Hk.
  destruct (String.eqb_spec text ""); [contradiction | reflexivity].
Qed.

(** The table has no entry under [constructor], and [getText] does not
    return the key: it returns the constructor every object inherits. *)
Lemma getText_constructor_is_not_the_key :
  en !! "constructor" = None /\
  getText (mkDisplay "en" "en") "constructor" = Inherited "constructor" /\
  getText (mkDisplay "en" "en") "constructor" <> Str "constructor".
Proof.
  split; [vm_compute; reflexivity |].
  split; [vm_compute; reflexivity |].
  vm_compute. discriminate.
Qed.

(** The lookup does not follow the language switcher. *)
Lemma getText_after_switch (d : Display) (key : string) :
  getText (switchLanguage d) key = getText d key.
Proof. reflexivity. Qed.

Example getText_analyzing_in_zh_display :
  getText (mkDisplay "zh" "zh") "analyzing" = Str "Analyzing..." /\
  zh !! "analyzing" = Some "分析中...".
Proof. split; vm_compute; reflexivity. Qed.

Example getText_unknown_key :
  getText (mkDisplay "en" "en") "kg_param_tempo" = Str "kg_param_tempo".
Proof. vm_compute. reflexivity. Qed.

(** ** Properties of the emotion texts *)

Lemma en_entries_described (d : Display) : forallb (described d) en_entries = true.
Proof. vm_compute. reflexivity. Qed.

(** X14: For every emotion name of the English table other than the fallback
    [emotion_name_unknown], the page shows the name as the title and, as the
    description, the entry of the table under [desc_] followed by the rest
    of the key; for the fallback the table has no description, and the page
    shows the key [desc_unknown] itself. *)
Theorem every_named_emotion_has_description (d : Display) (key name : string) :
  en !! key = Some name ->
  String.prefix "emotion_name_" key = true ->
  (key <> "emotion_name_unknown" ->
     exists description,
       en !! ("desc_" ++ replace "emotion_name_" "" key) = Some description /\
       emotion_texts d key = (Str name, Str description)) /\
  (key = "emotion_name_unknown" ->
     en !! "desc_unknown" = None /\
     emotion_texts d key = (Str "Complex Feelings", Str "desc_unknown")).
Proof.
  intros Hkey Hprefix. split.
  - intros Hne.
    unfold en in Hkey. apply elem_of_list_to_map_2 in Hkey. apply list_elem_of_In in Hkey.
    pose proof (en_entries_described d) as Hall.
    rewrite forallb_forall in Hall. specialize (Hall _ Hkey).
    unfold described in Hall. rewrite Hprefix in Hall.
    destruct (String.eqb_spec key "emotion_name_unknown") as [| _]; [contradiction |].
    cbn [andb negb] in Hall.
    destruct (en !! ("desc_" ++ replace "emotion_name_" "" key)) as [description |];
      [| discriminate Hall].
    exists description. split; [reflexivity |].
    destruct (emotion_texts d key) as [[title | inh] [shown | inh']];
      try discriminate Hall.
    apply andb_true_iff in Hall. destruct Hall as [H1 H2].
    apply String.eqb_eq in H1. apply String.eqb_eq in H2. congruence.
  - intros ->. split; vm_compute; reflexivity.
Qed.

Lemma every_named_emotion_has_description_witness :
  emotion_texts (mkDisplay "zh" "zh") "emotion_name_joy"
  = (Str "Joy",
     Str "We've captured the joy in your heart! May this happiness shine like the sun and brighten your day.").
Proof.
  destruct (every_named_emotion_has_description (mkDisplay "zh" "zh")
              "emotion_name_joy" "Joy") as [H _].
  - vm_compute. reflexivity.
  - reflexivity.
  - destruct H as (description & Hd & Ht); [discriminate |].
    rewrite Ht. f_equal. vm_compute in Hd. injection Hd as <-. reflexivity.
Defined.

End I18n.

(* ===================================================================== *)
(** * The language switcher ([unnamed/part_003], lines 44-75;
      [frontend/study_flow.js], lines 2-44)                               *)
(* ===================================================================== *)

Module Language.

(** An element of the document, as far as [setLanguage] reads and writes
    it.  The elements it writes to are taken to have no element children,
    so that setting [innerText] on one leaves the others in the document. *)
Record Element : Type := mkElement {
  attributes : gmap string string;
  innerText : string;
  placeholder : string
}.

(** The document and the variable [currentLang] of the script. *)
Record Page : Type := mkPage {
  lang : string;                        (* document.documentElement.lang *)
  elements : list Element;              (* the elements, in document order *)
  langSwitcher : option (option nat);   (* #language-switcher, and where its first span is *)
  currentLang : string
}.

Definition getAttribute (el : Element) (name : string) : option string :=
  attributes el !! name.

Definition has_attribute (el : Element) (name : string) : bool :=
  match attributes el !! name with
  | Some _ => true
  | None => false
  end.

Definition set_innerText (text : string) (el : Element) : Element :=
  mkElement (attributes el) text (placeholder el).

Definition set_placeholder (text : string) (el : Element) : Element :=
  mkElement (attributes el) (innerText el) text.

(** The body of the first [forEach], on an element of the document: the
    elements matching ['[data-lang-zh], [data-lang-en]'] are the ones it
    runs on. *)
Definition show_text (lang : string) (el : Element) : Element :=
  if has_attribute el "data-lang-zh" || has_attribute el "data-lang-en" then
    match getAttribute el ("data-lang-" ++ lang) with
    | Some text => if String.eqb text "" then el else set_innerText text el
    | None => el
    end
  else el.

(** The body of the second [forEach]. *)
Definition show_placeholder (lang : string) (el : Element) : Element :=
  if has_attribute el "data-lang-zh-placeholder"
     || has_attribute el "data-lang-en-placeholder" then
    match getAttribute el ("data-lang-" ++ lang ++ "-placeholder") with
    | Some text => if String.eqb text "" then el else set_placeholder text el
    | None => el
    end
  else el.

Definition switcher_label (lang : string) : string :=
  if String.eqb lang "zh" then "English" else "中文".

(** [setLanguage]. *)
Definition setLanguage (lang : string) (p : Page) : Page :=
  let shown := map (show_text lang) (elements p) in
  let placed := map (show_placeholder lang) shown in
  let labelled :=
    match langSwitcher p with
    | Some (Some span) => alter (set_innerText (switcher_label lang)) span placed
    | Some None => placed
    | None => placed
    end in
  mkPage lang labelled (langSwitcher p) lang.

(** The click handler of the switcher; without the element there is no
    handler. *)
Definition click (p : Page) : Page :=
  match langSwitcher p with
  | Some _ =>
      let newLang := if String.eqb (currentLang p) "zh" then "en" else "zh" in
      setLanguage newLang p
  | None => p
  end.

(** The translation of a kind of text that an element carries for a
    language, when it is not empty. *)
Definition translation (suffix lang : string) (el : Element) : option string :=
  match attributes el !! ("data-lang-" ++ lang ++ suffix) with
  | Some text => if String.eqb text "" then None else Some text
  | None => None
  end.

(** Whatever the element has a translation of in the other of the two
    languages, it has in [lang]. *)
Definition covers (lang : string) (el : Element) : Prop :=
  forall suffix, suffix = "" \/ suffix = "-placeholder" ->
    translation suffix (if String.eqb lang "zh" then "en" else "zh") el <> None ->
    translation suffix lang el <> None.

(** A heading in both languages, an input with a Chinese placeholder only,
    and the span of the switcher. *)
Definition sample_elements : list Element :=
  [mkElement (<["data-lang-zh" := "你好"]> (<["data-lang-en" := "Hello"]> ∅)) "你好" "";
   mkElement (<["data-lang-zh-placeholder" := "请输入"]> ∅) "" "请输入";
   mkElement ∅ "English" ""].

(** ** Properties *)

(** What [setLanguage] does to the element at a position. *)
Definition rendered (lang : string) (switcher : option (option nat)) (i : nat)
    (el : Element) : Element :=
  let el' := show_placeholder lang (show_text lang el) in
  match switcher with
  | Some (Some span) => if Nat.eqb i span then set_innerText (switcher_label lang) el' else el'
  | _ => el'
  end.

Lemma setLanguage_lookup (lang : string) (p : Page) (i : nat) :
  elements (setLanguage lang p) !! i = rendered lang (langSwitcher p) i <$> elements p !! i.
Proof.
  unfold setLanguage, rendered. cbv zeta. cbn [elements].
  destruct (langSwitcher p) as [[span |] |].
  - rewrite list_lookup_alter.
    destruct (decide (span = i)) as [-> | Hne].
    + rewrite Nat.eqb_refl.
      change (map (show_placeholder lang) (map (show_text lang) (elements p)))
        with (show_placeholder lang <$> (show_text lang <$> elements p)).
      rewrite !list_lookup_fmap. destruct (elements p !! i); reflexivity.
    + destruct (Nat.eqb_spec i span) as [-> | _]; [contradiction |].
      change (map (show_placeholder lang) (map (show_text lang) (elements p)))
        with (show_placeholder lang <$> (show_text lang <$> elements p)).
      rewrite !list_lookup_fmap. destruct (elements p !! i); reflexivity.
  - change (map (show_placeholder lang) (map (show_text lang) (elements p)))
      with (show_placeholder lang <$> (show_text lang <$> elements p)).
    rewrite !list_lookup_fmap. destruct (elements p !! i); reflexivity.
  - change (map (show_placeholder lang) (map (show_text lang) (elements p)))
      with (show_placeholder lang <$> (show_text lang <$> elements p)).
    rewrite !list_lookup_fmap. destruct (elements p !! i); reflexivity.
Qed.

Ltac join_literals :=
  repeat match goal with
         | |- context [String.append ?a ?b] =>
             let r := eval vm_compute in (String.append a b) in
             change (String.append a b) with r
         end.

Lemma show_text_spec (lang : string) (el : Element) :
  lang = "zh" \/ lang = "en" ->
  show_text lang el
  = match translation "" lang el with
    | Some text => set_innerText text el
    | None => el
    end.
Proof.
  unfold show_text, translation, getAttribute, has_attribute.
  intros [-> | ->]; join_literals;
    destruct (attributes el !! "data-lang-zh") as [zh |];
    destruct (attributes el !! "data-lang-en") as [en |]; simpl;
    try reflexivity;
    match goal with |- context [String.eqb ?t ""] => destruct (String.eqb t "") end;
    reflexivity.
Qed.

Lemma show_placeholder_spec (lang : string) (el : Element) :
  lang = "zh" \/ lang = "en" ->
  show_placeholder lang el
  = match translation "-placeholder" lang el with
    | Some text => set_placeholder text el
    | None => el
    end.
Proof.
  unfold show_placeholder, translation, getAttribute, has_attribute.
  intros [-> | ->]; join_literals;
    destruct (attributes el !! "data-lang-zh-placeholder") as [zh |];
    destruct (attributes el !! "data-lang-en-placeholder") as [en |]; simpl;
    try reflexivity;
    match goal with |- context [String.eqb ?t ""] => destruct (String.eqb t "") end;
    reflexivity.
Qed.

(** X15: [setLanguage] with one of the two languages sets the language of the
    document and of the script, keeps every element in its place with its
    attributes, and gives an element the text and the placeholder its
    attributes carry for the language; an element without a translation, or
    with an empty one, keeps the text it had, in whatever language that was.
    The span of the switcher ends up naming the other language. *)
Theorem setLanguage_shows_translations
    (language : string) (p : Page) (i : nat) (el : Element) :
  language = "zh" \/ language = "en" ->
  elements p !! i = Some el ->
  lang (setLanguage language p) = language /\
  currentLang (setLanguage language p) = language /\
  length (elements (setLanguage language p)) = length (elements p) /\
  exists el',
    elements (setLanguage language p) !! i = Some el' /\
    attributes el' = attributes el /\
    placeholder el'
    = match translation "-placeholder" language el with
      | Some text => text
      | None => placeholder el
      end /\
    (langSwitcher p <> Some (Some i) ->
       innerText el'
       = match translation "" language el with
         | Some text => text
         | None => innerText el
         end) /\
    (langSwitcher p = Some (Some i) ->
       innerText el' = if String.eqb language "zh" then "English" else "中文").
Proof.
  intros Hlang Hi.
  split; [reflexivity |]. split; [reflexivity |].
  split.
  { unfold setLanguage. cbv zeta. cbn [elements].
    destruct (langSwitcher p) as [[span |] |];
      rewrite ?length_alter, !List.length_map; reflexivity. }
  exists (rendered language (langSwitcher p) i el).
  split; [rewrite setLanguage_lookup, Hi; reflexivity |].
  unfold rendered. cbv zeta.
  rewrite (show_text_spec language el Hlang).
  rewrite (show_placeholder_spec language _ Hlang).
  assert (Htr : forall suffix text,
            translation suffix language (set_innerText text el)
            = translation suffix language el) by reflexivity.
  destruct (translation "" language el) as [text |] eqn:Et;
    rewrite ?Htr; destruct (translation "-placeholder" language el) as [ph |] eqn:Ep;
    (destruct (langSwitcher p) as [[span |] |] eqn:Es;
     [destruct (Nat.eqb_spec i span) as [-> | Hne] | |]);
    repeat split; try reflexivity; try congruence;
    intros; congruence.
Qed.

Lemma setLanguage_shows_translations_witness :
  exists el',
    elements (setLanguage "en" (mkPage "zh" sample_elements (Some (Some 2%nat)) "zh")) !! 1%nat
    = Some el' /\
    placeholder el' = "请输入".
Proof.
  destruct (setLanguage_shows_translations "en"
              (mkPage "zh" sample_elements (Some (Some 2%nat)) "zh") 1
              (mkElement (<["data-lang-zh-placeholder" := "请输入"]> ∅) "" "请输入"))
    as (_ & _ & _ & el' & Hlook & _ & Hph & _).
  - right. reflexivity.
  - reflexivity.
  - exists el'. split; [exact Hlook | exact Hph].
Defined.

Lemma rendered_spec (lg : string) (switcher : option (option nat)) (i : nat)
    (el : Element) :
  lg = "zh" \/ lg = "en" ->
  rendered lg switcher i el
  = mkElement (attributes el)
      (if match switcher with
          | Some (Some span) => Nat.eqb i span
          | _ => false
          end
       then switcher_label lg
       else match translation "" lg el with
            | Some t => t
            | None => innerText el
            end)
      (match translation "-placeholder" lg el with
       | Some t => t
       | None => placeholder el
       end).
Proof.
  intros Hlg. unfold rendered. cbv zeta.
  rewrite (show_text_spec lg el Hlg), (show_placeholder_spec lg _ Hlg).
  assert (Htr : forall text,
            translation "-placeholder" lg (set_innerText text el)
            = translation "-placeholder" lg el) by reflexivity.
  destruct (translation "" lg el) as [t |]; rewrite ?Htr;
    destruct (translation "-placeholder" lg el) as [q |];
    (destruct switcher as [[span |] |]; [destruct (Nat.eqb i span) | |]);
    destruct el; reflexivity.
Qed.

Lemma translation_attributes (suffix lg : string) (e el : Element) :
  attributes e = attributes el -> translation suffix lg e = translation suffix lg el.
Proof. intros He. unfold translation. rewrite He. reflexivity. Qed.

Lemma rendered_round_trip (l : string) (switcher : option (option nat)) (i : nat)
    (el : Element) :
  l = "zh" \/ l = "en" -> covers l el ->
  rendered l switcher i
    (rendered (if String.eqb l "zh" then "en" else "zh") switcher i (rendered l switcher i el))
  = rendered l switcher i el.
Proof.
  intros Hl Hcov.
  assert (Hother : (if String.eqb l "zh" then "en" else "zh") = "zh" \/
                   (if String.eqb l "zh" then "en" else "zh") = "en")
    by (destruct Hl as [-> | ->]; simpl; auto).
  pose proof (Hcov "" (or_introl eq_refl)) as Htext.
  pose proof (Hcov "-placeholder" (or_intror eq_refl)) as Hplace.
  set (l' := if String.eqb l "zh" then "en" else "zh") in *. clearbody l'.
  rewrite (rendered_spec l switcher i el Hl).
  set (e1 := mkElement (attributes el) _ _).
  rewrite (rendered_spec l' switcher i e1 Hother).
  set (e2 := mkElement (attributes e1) _ _).
  rewrite (rendered_spec l switcher i e2 Hl).
  rewrite !(translation_attributes _ l e2 el) by reflexivity.
  unfold e2.
  rewrite !(translation_attributes _ l' e1 el) by reflexivity.
  unfold e1. cbn [attributes innerText placeholder].
  destruct (translation "" l el) as [t |];
    destruct (translation "" l' el) as [t' |];
    try (exfalso; apply Htext; [discriminate | reflexivity]);
    destruct (translation "-placeholder" l el) as [q |];
    destruct (translation "-placeholder" l' el) as [q' |];
    try (exfalso; apply Hplace; [discriminate | reflexivity]);
    (destruct switcher as [[span |] |]; [destruct (Nat.eqb i span) | |]);
    reflexivity.
Qed.

(** X16: From a page shown in one of the two languages, two clicks on the
    switcher lead back to the same page, provided that every element with a
    translation in the other language has one in this language as well. *)
Theorem two_clicks_restore_page (l : string) (p : Page) :
  l = "zh" \/ l = "en" ->
  (forall el, In el (elements p) -> covers l el) ->
  click (click (setLanguage l p)) = setLanguage l p.
Proof.
  intros Hl Hcov.
  set (l' := if String.eqb l "zh" then "en" else "zh").
  assert (Hback : (if String.eqb l' "zh" then "en" else "zh") = l)
    by (unfold l'; destruct Hl as [-> | ->]; reflexivity).
  destruct (langSwitcher p) as [sw |] eqn:Hsw.
  2: { assert (Hc : click (setLanguage l p) = setLanguage l p).
       { unfold click. change (langSwitcher (setLanguage l p)) with (langSwitcher p).
         rewrite Hsw. reflexivity. }
       rewrite Hc. exact Hc. }
  assert (H1 : click (setLanguage l p) = setLanguage l' (setLanguage l p)).
  { unfold click. change (langSwitcher (setLanguage l p)) with (langSwitcher p).
    rewrite Hsw. reflexivity. }
  assert (H2 : click (setLanguage l' (setLanguage l p))
               = setLanguage l (setLanguage l' (setLanguage l p))).
  { unfold click.
    change (langSwitcher (setLanguage l' (setLanguage l p))) with (langSwitcher p).
    change (currentLang (setLanguage l' (setLanguage l p))) with l'.
    rewrite Hsw, Hback. reflexivity. }
  rewrite H1, H2.
  assert (Hels : elements (setLanguage l (setLanguage l' (setLanguage l p)))
                 = elements (setLanguage l p)).
  { apply list_eq. intros i.
    rewrite (setLanguage_lookup l (setLanguage l' (setLanguage l p))).
    rewrite (setLanguage_lookup l' (setLanguage l p)).
    rewrite (setLanguage_lookup l p).
    change (langSwitcher (setLanguage l' (setLanguage l p))) with (langSwitcher p).
    change (langSwitcher (setLanguage l p)) with (langSwitcher p).
    destruct (elements p !! i) as [el |] eqn:Ei; [| reflexivity].
    cbn [fmap option_fmap option_map]. f_equal.
    apply rendered_round_trip; [exact Hl |].
    apply Hcov. apply list_elem_of_In. apply (list_elem_of_lookup_2 _ i). exact Ei. }
  unfold setLanguage at 1. cbv zeta.
  unfold setLanguage at 1 in Hels. cbv zeta in Hels. cbn [elements] in Hels.
  rewrite Hels. reflexivity.
Qed.

Lemma two_clicks_restore_page_witness :
  click (click (setLanguage "zh" (mkPage "zh" sample_elements (Some (Some 2%nat)) "zh")))
  = setLanguage "zh" (mkPage "zh" sample_elements (Some (Some 2%nat)) "zh").
Proof.
  apply two_clicks_restore_page; [left; reflexivity |].
  intros el [<- | [<- | [<- | []]]] suffix [-> | ->] H;
    vm_compute in H |- *; try discriminate; exfalso; apply H; reflexivity.
Defined.

End Language.

(* ===================================================================== *)
(** * Video titles ([formatVideoTitle]: [unnamed/part_003], lines 81-89;
      [frontend/study_flow.js], lines 141-151)                            *)
(* ===================================================================== *)

Module Titles.

(** [s.split(sep)] for a separator of one character: the pieces between
    the separators, the empty ones included; never an empty array. *)
Fixpoint split (sep : ascii) (s : string) : list string :=
  match s with
  | EmptyString => [EmptyString]
  | String c s' =>
      if Ascii.eqb c sep then EmptyString :: split sep s'
      else match split sep s' with
           | part :: parts => String c part :: parts
           | [] => [String c EmptyString]
           end
  end.

(** [parts.join(sep)]. *)
Fixpoint join (sep : ascii) (parts : list string) : string :=
  match parts with
  | [] => EmptyString
  | [part] => part
  | part :: parts' => part ++ String sep (join sep parts')
  end.

Definition underscore : ascii := "_"%char.

(** [`${x}`] for an element of an array that may be missing. *)
Definition interpolate (x : option string) : string :=
  match x with
  | Some s => s
  | None => "undefined"
  end.

(** [x || '00']. *)
Definition or_00 (x : option string) : string :=
  match x with
  | Some s => if String.eqb s "" then "00" else s
  | None => "00"
  end.

(** [formatVideoTitle] of V13: the texts it gives the elements
    [#video-main-title] and [#video-subtitle]. *)
Definition formatVideoTitle (d : I18n.Display) (displayNameKey fileName : string)
    : I18n.value * string :=
  let mainTitle := I18n.getText d displayNameKey in
  let parts := split underscore fileName in
  let subtitle := I18n.interpolated (I18n.getText d "video_subtitle_prefix") in
  let subtitle :=
    if (2 <=? length parts)%nat
    then subtitle ++ ": EH-" ++ interpolate (parts !! 0%nat) ++ "-" ++ or_00 (parts !! 2%nat)
    else subtitle in
  (mainTitle, subtitle).

(** [formatVideoTitle] of V2: the object it returns, [mainTitle] first. *)
Definition formatVideoTitle_v2 (filename : string) : string * string :=
  let parts := split underscore filename in
  let mainTitle := "一段专属您的心灵之旅" in
  let subtitle := "疗愈方案" in
  let subtitle :=
    if (2 <=? length parts)%nat
    then "疗愈方案编号：EH-" ++ interpolate (parts !! 0%nat) ++ "-" ++ or_00 (parts !! 2%nat)
    else subtitle in
  (mainTitle, subtitle).

(** The character does not occur in the string. *)
Fixpoint free_of (sep : ascii) (s : string) : bool :=
  match s with
  | EmptyString => true
  | String c s' => negb (Ascii.eqb c sep) && free_of sep s'
  end.

(** ** Properties *)

Lemma split_nonempty (sep : ascii) (s : string) : split sep s <> [].
Proof.
  destruct s as [| c s]; simpl; [discriminate |].
  destruct (Ascii.eqb c sep); [discriminate |].
  destruct (split sep s); discriminate.
Qed.

Lemma split_free (sep : ascii) (s : string) : free_of sep s = true -> split sep s = [s].
Proof.
  induction s as [| c s IH]; simpl; [reflexivity |].
  intros H. apply andb_true_iff in H. destruct H as [Hc Hs].
  apply negb_true_iff in Hc. rewrite Hc, (IH Hs). reflexivity.
Qed.

Lemma split_app (sep : ascii) (part rest : string) :
  free_of sep part = true ->
  split sep (part ++ String sep rest) = part :: split sep rest.
Proof.
  induction part as [| c part IH]; simpl.
  - intros _. rewrite Ascii.eqb_refl. reflexivity.
  - intros H. apply andb_true_iff in H. destruct H as [Hc Hs].
    apply negb_true_iff in Hc. rewrite Hc, (IH Hs). reflexivity.
Qed.

(** Splitting undoes joining. *)
Lemma split_join (sep : ascii) (parts : list string) :
  parts <> [] -> forallb (free_of sep) parts = true ->
  split sep (join sep parts) = parts.
Proof.
  induction parts as [| part parts IH]; [contradiction |].
  intros _ H. cbn [forallb] in H. apply andb_true_iff in H. destruct H as [Hp Hps].
  destruct parts as [| part' parts].
  - simpl. apply split_free. exact Hp.
  - change (join sep (part :: part' :: parts))
      with (part ++ String sep (join sep (part' :: parts))).
    rewrite (split_app sep part _ Hp), IH; [reflexivity | discriminate | exact Hps].
Qed.

(** X17: For a file name made of parts without underscore, joined by
    underscores, both versions build the subtitle from the first and the
    third part only: with a single part it is the plain prefix; otherwise
    the prefix is followed by [EH-], the first part, a hyphen, and the third
    part, or [00] when there is no third part or it is empty.  The second
    part and the parts after the third never show.  The main title of V13
    is the text of the display name key. *)
Theorem formatVideoTitle_uses_first_and_third_part
    (d : I18n.Display) (displayNameKey : string) (parts : list string) :
  parts <> [] -> forallb (free_of underscore) parts = true ->
  formatVideoTitle d displayNameKey (join underscore parts)
  = (I18n.getText d displayNameKey,
     match parts with
     | first :: _ :: rest =>
         "Healing Protocol ID: EH-" ++ first ++ "-"
         ++ match rest with
            | third :: _ => if String.eqb third "" then "00" else third
            | [] => "00"
            end
     | _ => "Healing Protocol ID"
     end) /\
  formatVideoTitle_v2 (join underscore parts)
  = ("一段专属您的心灵之旅",
     match parts with
     | first :: _ :: rest =>
         "疗愈方案编号：EH-" ++ first ++ "-"
         ++ match rest with
            | third :: _ => if String.eqb third "" then "00" else third
            | [] => "00"
            end
     | _ => "疗愈方案"
     end).
Proof.
  intros Hne Hfree. unfold formatVideoTitle, formatVideoTitle_v2. cbv zeta.
  rewrite (split_join underscore parts Hne Hfree).
  assert (Hprefix : I18n.interpolated (I18n.getText d "video_subtitle_prefix")
                    = "Healing Protocol ID")
    by (vm_compute; reflexivity).
  rewrite Hprefix.
  destruct parts as [| first [| second [| third rest]]]; [contradiction | | |];
    split; reflexivity.
Qed.

Lemma formatVideoTitle_uses_first_and_third_part_witness :
  snd (formatVideoTitle (I18n.mkDisplay "en" "en") "video_title_generic" "56_3min_09")
  = "Healing Protocol ID: EH-56-09" /\
  snd (formatVideoTitle_v2 "56_3min") = "疗愈方案编号：EH-56-00".
Proof.
  destruct (formatVideoTitle_uses_first_and_third_part
              (I18n.mkDisplay "en" "en") "video_title_generic" ["56"; "3min"; "09"])
    as [H13 _]; [discriminate | reflexivity |].
  destruct (formatVideoTitle_uses_first_and_third_part
              (I18n.mkDisplay "en" "en") "video_title_generic" ["56"; "3min"])
    as [_ H2]; [discriminate | reflexivity |].
  split.
  - change "56_3min_09" with (join underscore ["56"; "3min"; "09"]). rewrite H13. reflexivity.
  - change "56_3min" with (join underscore ["56"; "3min"]). rewrite H2. reflexivity.
Defined.

End Titles.

(* ===================================================================== *)
(** * The mock backend ([frontend/study_flow.js], lines 50-129)           *)
(* ===================================================================== *)

Module MockApi.

(** An entry of [_mockDatabase]: [{ step: n }]. *)
Record Session : Type := mkSession { step : Z }.

(** A response of the mock.  The payload literals are kept by the keys of
    their [result] object and, for the last stage, the video they name. *)
Record Response : Type := mkResponse {
  status : string;
  message : option string;
  result : list string;
  video : option (string * string)    (* url, title *)
}.

(** [create_session]; [now] is the reading of [Date.now()]. *)
Definition create_session (now : Z) (db : gmap string Session)
    : string * gmap string Session :=
  let sessionId := "mock-session-" ++ pretty now in
  (sessionId, <[sessionId := mkSession 0]> db).

(** [session_status]: the response and the database afterwards.  The
    database is an object literal: under a name it holds no entry for,
    [_mockDatabase[sessionId]] is [undefined] or, for a property name every
    object inherits, the inherited value. *)
Definition session_status (sessionId : string) (db : gmap string Session)
    : Response * gmap string Session :=
  match db !! sessionId with
  | None =>
      if inherited sessionId then
        (* [_mockDatabase[sessionId]] is the value every object inherits,
           which is truthy; its [step] becomes [NaN], which no case
           matches, and no entry of the database changes *)
        (mkResponse "PENDING" None [] None, db)
      else (mkResponse "ERROR" (Some "Session not found") [] None, db)
  | Some currentState =>
      let n := step currentState + 1 in
      let db' := <[sessionId := mkSession n]> db in
      let response :=
        if n =? 1 then
          mkResponse "AC_COMPLETE" None ["analysisResult"] None
        else if n =? 2 then
          mkResponse "KG_COMPLETE" None ["analysisResult"; "kgResult"] None
        else if n =? 3 then
          mkResponse "ISO_PRINCIPLE_READY" None
                     ["analysisResult"; "kgResult"; "isoPrinciple"] None
        else if n =? 4 then
          mkResponse "VIDEO_READY" None
                     ["analysisResult"; "kgResult"; "isoPrinciple"; "video"]
                     (Some ("https://interactive-examples.mdn.mozilla.net/media/cc0-videos/flower.webm",
                            "《雨后的海岸线》"))
        else
          mkResponse "PENDING" None [] None in
      (response, db')
  end.

(** A call on the mock, and a sequence of calls run in order. *)
Inductive call : Type :=
| Create (now : Z)
| Status (sessionId : string).

Definition exec (db : gmap string Session) (c : call) : gmap string Session :=
  match c with
  | Create now => snd (create_session now db)
  | Status sessionId => snd (session_status sessionId db)
  end.

Definition run (calls : list call) (db : gmap string Session) : gmap string Session :=
  fold_left exec calls db.

(** How many of the calls are status queries for [sessionId]. *)
Fixpoint queries (sessionId : string) (calls : list call) : nat :=
  match calls with
  | [] => 0
  | Status s :: calls' =>
      if String.eqb s sessionId then S (queries sessionId calls') else queries sessionId calls'
  | Create _ :: calls' => queries sessionId calls'
  end.

(** None of the calls creates a session under the identifier [sessionId]
    again (two readings of the clock in one millisecond would). *)
Definition not_recreated (sessionId : string) (calls : list call) : Prop :=
  forall now, In (Create now) calls -> fst (create_session now ∅) <> sessionId.

(** The status the claim gives for the [n]-th query of a session. *)
Definition nth_status (n : nat) : string :=
  match n with
  | 1%nat => "AC_COMPLETE"
  | 2%nat => "KG_COMPLETE"
  | 3%nat => "ISO_PRINCIPLE_READY"
  | 4%nat => "VIDEO_READY"
  | _ => "PENDING"
  end.

(** ** Sample data *)

(** A session created at 1700000000000 ms, queried twice while another
    session is created and queried: its third query is the ISO stage. *)
Definition sample_calls : list call :=
  [Status "mock-session-1700000000000";
   Create 1700000000001;
   Status "mock-session-1700000000001";
   Status "mock-session-1700000000000"].

(** ** Properties *)

Lemma create_session_id (now : Z) (db db' : gmap string Session) :
  fst (create_session now db) = fst (create_session now db').
Proof. reflexivity. Qed.

Lemma session_status_present (sessionId : string) (db : gmap string Session) (k : Z) :
  db !! sessionId = Some (mkSession k) ->
  snd (session_status sessionId db) !! sessionId = Some (mkSession (k + 1)).
Proof.
  intros H. unfold session_status. rewrite H. simpl. apply lookup_insert_eq.
Qed.

Lemma session_status_other (s sessionId : string) (db : gmap string Session) :
  s <> sessionId ->
  snd (session_status s db) !! sessionId = db !! sessionId.
Proof.
  intros Hne. unfold session_status.
  destruct (db !! s); simpl; [apply lookup_insert_ne; assumption |].
  destruct (inherited s); reflexivity.
Qed.

Lemma run_counts (sessionId : string) (calls : list call) :
  forall (db : gmap string Session) (k : Z),
    not_recreated sessionId calls ->
    db !! sessionId = Some (mkSession k) ->
    run calls db !! sessionId
    = Some (mkSession (k + Z.of_nat (queries sessionId calls))).
Proof.
  induction calls as [| c calls IH]; intros db k Hnr Hk.
  - simpl. rewrite Z.add_0_r. exact Hk.
  - assert (Hnr' : not_recreated sessionId calls).
    { intros now Hin. apply Hnr. right. exact Hin. }
    destruct c as [now | s]; simpl.
    + rewrite (IH _ k Hnr'); [reflexivity |].
      unfold create_session. simpl. rewrite lookup_insert_ne; [exact Hk |].
      apply (Hnr now). left. reflexivity.
    + destruct (String.eqb_spec s sessionId) as [-> | Hne].
      * rewrite (IH _ (k + 1) Hnr'); [f_equal; f_equal; lia |].
        apply session_status_present. exact Hk.
      * rewrite (IH _ k Hnr'); [reflexivity |].
        rewrite session_status_other; assumption.
Qed.

Lemma status_of_step (sessionId : string) (db : gmap string Session) (n : nat) :
  db !! sessionId = Some (mkSession (Z.of_nat n)) ->
  status (fst (session_status sessionId db)) = nth_status (S n).
Proof.
  intros H. unfold session_status. rewrite H. cbv zeta.
  change (step (mkSession (Z.of_nat n))) with (Z.of_nat n).
  destruct n as [| [| [| [| n]]]]; try reflexivity.
  assert (H5 : 5 <= Z.of_nat (S (S (S (S n)))) + 1) by lia.
  destruct (Z.eqb_spec (Z.of_nat (S (S (S (S n)))) + 1) 1); [lia |].
  destruct (Z.eqb_spec (Z.of_nat (S (S (S (S n)))) + 1) 2); [lia |].
  destruct (Z.eqb_spec (Z.of_nat (S (S (S (S n)))) + 1) 3); [lia |].
  destruct (Z.eqb_spec (Z.of_nat (S (S (S (S n)))) + 1) 4); [lia |].
  reflexivity.
Qed.

Lemma nth_status_pending (n : nat) : (4 < n)%nat -> nth_status n = "PENDING".
Proof.
  intros H. destruct n as [| [| [| [| [| n]]]]]; try lia. reflexivity.
Qed.

(** C8: after [create_session] returned an identifier, and whatever calls
    come in between that do not create a session under the same identifier
    again, the [n]-th query of that identifier answers AC_COMPLETE,
    KG_COMPLETE, ISO_PRINCIPLE_READY, VIDEO_READY for [n = 1, 2, 3, 4] and
    PENDING from the fifth on; a query of an identifier that the database
    does not hold and that is not a property name every object inherits
    answers ERROR and leaves the database as it is; a query of such a name
    answers PENDING and leaves the database as it is. *)
Theorem mock_step_machine
    (db : gmap string Session) (now : Z) (calls : list call) (n : nat)
    (unknown : string) :
  not_recreated (fst (create_session now db)) calls ->
  S (queries (fst (create_session now db)) calls) = n ->
  db !! unknown = None ->
  status (fst (session_status (fst (create_session now db))
                              (run calls (snd (create_session now db)))))
    = nth_status n /\
  (n = 1%nat -> nth_status n = "AC_COMPLETE") /\
  (n = 2%nat -> nth_status n = "KG_COMPLETE") /\
  (n = 3%nat -> nth_status n = "ISO_PRINCIPLE_READY") /\
  (n = 4%nat -> nth_status n = "VIDEO_READY") /\
  ((4 < n)%nat -> nth_status n = "PENDING") /\
  status (fst (session_status unknown db))
  = (if inherited unknown then "PENDING" else "ERROR") /\
  snd (session_status unknown db) = db.
Proof.
  intros Hnr Hn Hunknown.
  split; [| split; [| split; [| split; [| split; [| split; [| split]]]]]].
  - subst n. apply status_of_step.
    rewrite (run_counts _ calls _ 0 Hnr); [reflexivity |].
    unfold create_session. simpl. apply lookup_insert_eq.
  - intros ->. reflexivity.
  - intros ->. reflexivity.
  - intros ->. reflexivity.
  - intros ->. reflexivity.
  - apply nth_status_pending.
  - unfold session_status. rewrite Hunknown. destruct (inherited unknown); reflexivity.
  - unfold session_status. rewrite Hunknown. destruct (inherited unknown); reflexivity.
Qed.

Lemma mock_step_machine_witness :
  status (fst (session_status "mock-session-1700000000000"
                 (run sample_calls (snd (create_session 1700000000000 ∅)))))
    = "ISO_PRINCIPLE_READY" /\
  status (fst (session_status "mock-session-7" (∅ : gmap string Session))) = "ERROR".
Proof.
  destruct (mock_step_machine ∅ 1700000000000 sample_calls 3 "mock-session-7")
    as (H3 & _ & _ & _ & _ & _ & Herr & _).
  - intros t [Ht | [Ht | [Ht | [Ht | []]]]]; try discriminate Ht.
    injection Ht as <-. vm_compute. discriminate.
  - vm_compute. reflexivity.
  - reflexivity.
  - split; [exact H3 | exact Herr].
Defined.

(** The claim fails on two runs.  A session created at 5 ms is queried
    once and a second creation reads the same millisecond: it returns the
    same identifier and puts the step back, so the second query of the
    identifier answers AC_COMPLETE again, not KG_COMPLETE.  And the empty
    database holds no session [constructor], yet the query answers
    PENDING, not ERROR. *)
Lemma mock_same_millisecond_and_inherited_name :
  fst (create_session 5 (snd (session_status "mock-session-5" (snd (create_session 5 ∅)))))
  = fst (create_session 5 ∅) /\
  status (fst (session_status "mock-session-5" (snd (create_session 5 ∅))))
  = "AC_COMPLETE" /\
  status (fst (session_status "mock-session-5"
                 (run [Status "mock-session-5"; Create 5] (snd (create_session 5 ∅)))))
  = "AC_COMPLETE" /\
  (∅ : gmap string Session) !! "constructor" = None /\
  status (fst (session_status "constructor" ∅)) = "PENDING".
Proof. repeat split; vm_compute; reflexivity. Qed.

Example mock_fifth_query_pending :
  let db1 := snd (create_session 5 ∅) in
  map (fun k => status (fst (session_status "mock-session-5"
                               (run (repeat (Status "mock-session-5") k) db1))))
      [0; 1; 2; 3; 4; 5]%nat
  = ["AC_COMPLETE"; "KG_COMPLETE"; "ISO_PRINCIPLE_READY"; "VIDEO_READY";
     "PENDING"; "PENDING"].
Proof. vm_compute. reflexivity. Qed.

(** ** Properties of the session identifiers *)

(** X18: Two calls of [create_session] give the same identifier exactly when
    they read the same millisecond from the clock.  A creation in another
    millisecond leaves the progress of a session as it is; a creation in the
    same millisecond puts it back to the start. *)
Theorem session_identifiers_follow_the_clock
    (now now' : Z) (db db' : gmap string Session) :
  (fst (create_session now db) = fst (create_session now' db') <-> now = now') /\
  (now <> now' ->
     snd (create_session now' db) !! fst (create_session now db')
     = db !! fst (create_session now db')) /\
  snd (create_session now db) !! fst (create_session now db') = Some (mkSession 0).
Proof.
  assert (Hinj : fst (create_session now db) = fst (create_session now' db') -> now = now').
  { unfold create_session. cbn [fst]. intros H.
    apply (inj (String.app "mock-session-")) in H. apply (inj pretty). exact H. }
  split; [split; [exact Hinj | intros ->; reflexivity] |].
  split.
  - intros Hne. unfold create_session at 1. cbn [snd].
    apply lookup_insert_ne. intros H. apply Hne. symmetry. apply (inj pretty).
    apply (inj (String.app "mock-session-")) in H. exact H.
  - unfold create_session. cbn [fst snd]. apply lookup_insert_eq.
Qed.

End MockApi.

(* ===================================================================== *)
(** * Audio fades ([fadeAudio]: [unnamed/part_003], lines 91-108;
      [frontend/study_flow.js], lines 154-182)                            *)
(* ===================================================================== *)

Module Fade.

(** A JS number is a binary64 floating-point value: [+], [-], [/] and the
    comparisons of the source are the operations of [PrimFloat], rounding
    to nearest, ties to even.  [x >= y] is [y <= x], and every comparison
    with NaN is false. *)

(** The media element: its volume and, in V13, the handle of the running
    fade kept in [videoElement.fadeInterval]. *)
Record Element : Type := mkElement {
  volume : float;
  fadeInterval : option positive
}.

(** The [volume] setter accepts the values of [0, 1] and throws on every
    other, NaN and the infinities included. *)
Definition set_volume (x : float) (e : Element) : option Element :=
  if (0 <=? x)%float && (x <=? 1)%float
  then Some (mkElement x (fadeInterval e))
  else None.

(** What the interval callback closes over. *)
Record Fader : Type := mkFader {
  endVolume : float;
  volumeStep : float
}.

(** What a call of [fadeAudio] starts: the callback registered under the
    handle [setInterval] returned, and the earlier fade it cancelled. *)
Record Started : Type := mkStarted {
  fader : Fader;
  handle : positive;
  cancelled : option positive
}.

Definition intervalTime : float := 50.

(** [fadeAudio] of V13 (part_003); [fresh] is the handle [setInterval]
    returns. *)
Definition fadeAudio (fresh : positive) (videoElement : Element)
    (endVolume duration : float) : Element * option Started :=
  let startVolume := volume videoElement in
  let stepCount := (duration / intervalTime)%float in
  let volumeStep := ((endVolume - startVolume) / stepCount)%float in
  if (startVolume =? endVolume)%float then (videoElement, None)
  else
    (mkElement (volume videoElement) (Some fresh),
     Some (mkStarted (mkFader endVolume volumeStep) fresh (fadeInterval videoElement))).

(** [fadeAudio] of V2 (frontend/study_flow.js): the handle stays in a local
    constant and a running fade is not cancelled. *)
Definition fadeAudio_v2 (fresh : positive) (videoElement : Element)
    (endVolume duration : float) : Element * option Started :=
  let startVolume := volume videoElement in
  let stepCount := (duration / intervalTime)%float in
  let volumeStep := ((endVolume - startVolume) / stepCount)%float in
  if (startVolume =? endVolume)%float then (videoElement, None)
  else (videoElement, Some (mkStarted (mkFader endVolume volumeStep) fresh None)).

(** One run of the interval callback. *)
Inductive result : Type :=
| Continue (e : Element)      (* the volume was set, the interval goes on *)
| Done (e : Element)          (* the volume was set to the target, the interval is cleared *)
| Throws (cleared : bool).    (* the volume setter threw *)

(** The callback of V13.  Its first test, [!videoElement], never holds: the
    parameter is the element [fadeAudio] already read [volume] from. *)
Definition tick (f : Fader) (videoElement : Element) : result :=
  let newVolume := (volume videoElement + volumeStep f)%float in
  if ((0 <? volumeStep f)%float && (endVolume f <=? newVolume)%float)
     || ((volumeStep f <? 0)%float && (newVolume <=? endVolume f)%float)
  then
    match set_volume (endVolume f) (mkElement (volume videoElement) None) with
    | Some e => Done e
    | None => Throws true
    end
  else
    match set_volume newVolume videoElement with
    | Some e => Continue e
    | None => Throws false
    end.

(** The callback of V2. *)
Definition tick_v2 (f : Fader) (videoElement : Element) : result :=
  let newVolume := (volume videoElement + volumeStep f)%float in
  let reached :=
    if (0 <? volumeStep f)%float then (endVolume f <=? newVolume)%float
    else (newVolume <=? endVolume f)%float in
  if reached then
    match set_volume (endVolume f) videoElement with
    | Some e => Done e
    | None => Throws true
    end
  else
    match set_volume newVolume videoElement with
    | Some e => Continue e
    | None => Throws false
    end.

(** The outcome of the [k]-th run of a callback [t], the interval being
    cleared by the first run that ends the fade; [Continue e] for [k = 0]
    is the element as [fadeAudio] left it. *)
Fixpoint after (t : Element -> result) (k : nat) (e : Element) : result :=
  match k with
  | O => Continue e
  | S k' =>
      match after t k' e with
      | Continue e' => t e'
      | r => r
      end
  end.

(** The two versions of the page, by a flag: [true] for V2. *)
Definition start_fade (v2 : bool) :
    positive -> Element -> float -> float -> Element * option Started :=
  if v2 then fadeAudio_v2 else fadeAudio.

Definition callback (v2 : bool) (f : Fader) : Element -> result :=
  if v2 then tick_v2 f else tick f.



(** ** Comparisons *)




Lemma ltb_leb (x y : float) : (x <? y)%float = true -> (x <=? y)%float = true.
Proof.
  rewrite leb_spec, ltb_spec. unfold SFleb, SFltb.
  destruct (SFcompare (Prim2SF x) (Prim2SF y)) as [[| |] |]; try discriminate; reflexivity.
Qed.


(** ** One run of the callback *)




(** ** The whole fade *)




(** The fades of the page in binary64.  The fade-in from silence ends on
    run 100 in V13 (5000 ms) and on run 50 in V2 (2500 ms); the fade-out
    from full volume ends on run 141 in V13 (7000 ms) and on run 81 in V2
    (4000 ms), one run later than the quotient of duration and interval:
    the sum of the rounded steps is still above 0 after 140 and 80 runs. *)
Example page_fades_in_binary64 :
  (exists e, after (tick (mkFader 1 ((1 - 0) / (5000 / intervalTime))%float)) 99
                   (mkElement 0 None) = Continue e) /\
  after (tick (mkFader 1 ((1 - 0) / (5000 / intervalTime))%float)) 100 (mkElement 0 None)
  = Done (mkElement 1 None) /\
  (exists e, after (tick_v2 (mkFader 1 ((1 - 0) / (2500 / intervalTime))%float)) 49
                   (mkElement 0 None) = Continue e) /\
  after (tick_v2 (mkFader 1 ((1 - 0) / (2500 / intervalTime))%float)) 50 (mkElement 0 None)
  = Done (mkElement 1 None) /\
  (exists e, after (tick (mkFader 0 ((0 - 1) / (7000 / intervalTime))%float)) 140
                   (mkElement 1 None) = Continue e /\ (0 <? volume e)%float = true) /\
  after (tick (mkFader 0 ((0 - 1) / (7000 / intervalTime))%float)) 141 (mkElement 1 None)
  = Done (mkElement 0 None) /\
  (exists e, after (tick_v2 (mkFader 0 ((0 - 1) / (4000 / intervalTime))%float)) 80
                   (mkElement 1 None) = Continue e /\ (0 <? volume e)%float = true) /\
  after (tick_v2 (mkFader 0 ((0 - 1) / (4000 / intervalTime))%float)) 81 (mkElement 1 None)
  = Done (mkElement 0 None).
Proof.
  split; [eexists; vm_compute; reflexivity |].
  split; [vm_compute; reflexivity |].
  split; [eexists; vm_compute; reflexivity |].
  split; [vm_compute; reflexivity |].
  split; [eexists; split; vm_compute; reflexivity |].
  split; [vm_compute; reflexivity |].
  split; [eexists; split; vm_compute; reflexivity |].
  vm_compute. reflexivity.
Qed.

End Fade.

(* ===================================================================== *)
(** * The therapy page: timers, polling and the stage handler
      ([unnamed/part_003], lines 77-352: V13; [frontend/study_flow.js],
      lines 134-823: V2)                                                  *)
(* ===================================================================== *)

Module Therapy.

(** The two versions of the page share their structure and differ in
    delays, in the guard of the polling callback and in details of the
    stage switch; the model takes the version as a parameter.  Responses
    are taken to carry the payload the handlers read, and the document to
    hold the elements they look up, so that no handler stops on a
    [TypeError]. *)
Inductive version : Type := V13 | V2.

(** ** Callbacks *)

(** The closures the page hands to [setTimeout] and [setInterval], each
    with the variables it captures and changes. *)
Inductive callback : Type :=
| PollTick                              (* startPolling: the async interval callback *)
| StartPolling                          (* startPolling, passed as the callback *)
| TypingTick (stepIndex : nat)          (* AC: the 1200 ms typing interval *)
| AcRadar                               (* AC: after 3500 ms, the radar and two more timers *)
| AcReveal                              (* AC: title, description and comfort text *)
| KgStage (n : nat)                     (* KG: the n-th act of the animation *)
| IsoMatch                              (* ISO: after 500 ms *)
| IsoEntrain                            (* ISO: after 4500 ms *)
| IsoEntrainText                        (* ISO: 600 ms later, the second text *)
| IsoArrive                             (* ISO: after 8500 ms *)
| IsoArriveText                         (* ISO: 600 ms later, the third text *)
| IsoExit                               (* ISO: 2000 ms later, the fade-out *)
| IsoFinish                             (* ISO: the last timer, which resumes polling *)
| OverlayVisible                        (* video: after 100 ms *)
| PreludeEnd                            (* video: after 3500 ms, the audio fade-in *)
| FadeTick (f : Fade.Fader)             (* fadeAudio: the 50 ms interval *)
| SwitchHide (current next : string)    (* switchToStage: after 600 ms *)
| SwitchShow (next : string)            (* switchToStage: 50 ms later *)
| EpilogueEnd.                          (* startHealingEpilogue: after 5000 ms *)

Definition is_poll (cb : callback) : bool :=
  match cb with PollTick => true | _ => false end.

(** A registered timer: its handle, when it is due, its period when it is
    an interval, and its callback. *)
Record Timer : Type := mkTimer {
  handle : positive;
  due : Z;
  every : option Z;
  run : callback
}.

(** ** State *)

Record State : Type := mkState {
  clock : Z;                           (* the time of the running task, in ms *)
  next_id : positive;                  (* the handle the next timer gets *)
  timers : list Timer;                 (* pending timeouts and live intervals, oldest first *)
  sessionId : option string;           (* null or the session identifier *)
  pollingIntervalId : option positive; (* null or the handle startPolling stored *)
  currentStageId : string;
  cards : list string;                 (* the ids whose entry of [stages] is an element *)
  video : Fade.Element;                (* #healing-video *)
  epilogueTriggered : bool;
  fetches : list (Z * string);         (* status requests issued: time and URL *)
  log : list (Z * callback)            (* the callbacks run so far, with their times *)
}.

Definition with_timers (s : State) (id : positive) (l : list Timer) : State :=
  mkState (clock s) id l (sessionId s) (pollingIntervalId s) (currentStageId s)
          (cards s) (video s) (epilogueTriggered s) (fetches s) (log s).

Definition with_session (s : State) (sid : option string) : State :=
  mkState (clock s) (next_id s) (timers s) sid (pollingIntervalId s) (currentStageId s)
          (cards s) (video s) (epilogueTriggered s) (fetches s) (log s).

Definition with_polling (s : State) (h : option positive) : State :=
  mkState (clock s) (next_id s) (timers s) (sessionId s) h (currentStageId s)
          (cards s) (video s) (epilogueTriggered s) (fetches s) (log s).

Definition with_stage (s : State) (stage : string) : State :=
  mkState (clock s) (next_id s) (timers s) (sessionId s) (pollingIntervalId s) stage
          (cards s) (video s) (epilogueTriggered s) (fetches s) (log s).

Definition with_video (s : State) (e : Fade.Element) : State :=
  mkState (clock s) (next_id s) (timers s) (sessionId s) (pollingIntervalId s)
          (currentStageId s) (cards s) e (epilogueTriggered s) (fetches s) (log s).

Definition with_epilogue (s : State) (b : bool) : State :=
  mkState (clock s) (next_id s) (timers s) (sessionId s) (pollingIntervalId s)
          (currentStageId s) (cards s) (video s) b (fetches s) (log s).

Definition with_fetch (s : State) (u : string) : State :=
  mkState (clock s) (next_id s) (timers s) (sessionId s) (pollingIntervalId s)
          (currentStageId s) (cards s) (video s) (epilogueTriggered s)
          (fetches s ++ [(clock s, u)]) (log s).

Definition with_run (s : State) (now : Z) (cb : callback) (l : list Timer) : State :=
  mkState now (next_id s) l (sessionId s) (pollingIntervalId s) (currentStageId s)
          (cards s) (video s) (epilogueTriggered s) (fetches s) (log s ++ [(now, cb)]).

(** ** Timers *)

Definition setTimeout (cb : callback) (delay : Z) (s : State) : State :=
  with_timers s (Pos.succ (next_id s))
              (timers s ++ [mkTimer (next_id s) (clock s + delay) None cb]).

Definition setInterval (cb : callback) (period : Z) (s : State) : State :=
  with_timers s (Pos.succ (next_id s))
              (timers s ++ [mkTimer (next_id s) (clock s + period) (Some period) cb]).

(** [clearInterval(h)] and [clearTimeout(h)]: one pool of handles. *)
Definition clearTimer (h : option positive) (s : State) : State :=
  match h with
  | Some id => with_timers s (next_id s)
                           (List.filter (fun t => negb (Pos.eqb (handle t) id)) (timers s))
  | None => s
  end.

Definition polling_active (s : State) : bool :=
  existsb (fun t => is_poll (run t)) (timers s).

(** ** Polling *)

(** JS truthiness of [sessionId]. *)
Definition has_session (s : State) : bool :=
  match sessionId s with
  | Some sid => negb (String.eqb sid "")
  | None => false
  end.

Definition status_url (v : version) (s : State) : string :=
  match v with
  | V13 => "https://f0a54943db34.ngrok-free.app/api/session_status?id="
  | V2 => "http://127.0.0.1:5001/api/session_status?id="
  end ++ match sessionId s with
         | Some sid => sid
         | None => "null"
         end.

Definition poll_period : Z := 2000.

(** [startPolling]. *)
Definition startPolling (s : State) : State :=
  let s1 := clearTimer (pollingIntervalId s) s in
  with_polling (setInterval PollTick poll_period s1) (Some (next_id s1)).

(** The synchronous part of the polling callback: V13 stops the interval
    when there is no session, otherwise the request goes out; its answer is
    a later event. *)
Definition poll_tick (v : version) (s : State) : State :=
  match v with
  | V13 =>
      if negb (has_session s) then clearTimer (pollingIntervalId s) s
      else with_fetch s (status_url v s)
  | V2 => with_fetch s (status_url v s)
  end.

(** The [catch] of V13's polling callback. *)
Definition poll_failed (s : State) : State := clearTimer (pollingIntervalId s) s.

(** ** Stage switch and fades *)

Definition card_exists (s : State) (id : string) : bool :=
  existsb (String.eqb id) (cards s).

(** [switchToStage]: the current card, when there is one, starts its
    fade-out and is hidden 600 ms later. *)
Definition switchToStage (nextStageId : string) (s : State) : State :=
  if card_exists s (currentStageId s)
  then setTimeout (SwitchHide (currentStageId s) nextStageId) 600 s
  else s.

(** [fadeAudio] on the page's video element: the earlier fade is
    cancelled (V13) and the interval registered under the next handle. *)
Definition fadeAudio (v : version) (endVolume duration : float) (s : State) : State :=
  match Fade.start_fade (match v with V13 => false | V2 => true end)
                        (next_id s) (video s) endVolume duration with
  | (e, Some st) =>
      with_video
        (setInterval (FadeTick (Fade.fader st)) 50 (clearTimer (Fade.cancelled st) s))
        e
  | (_, None) => s
  end.

(** One run of the fade callback registered under [self]. *)
Definition fade_tick (v : version) (self : positive) (f : Fade.Fader) (s : State) : State :=
  match v with
  | V13 =>
      match Fade.tick f (video s) with
      | Fade.Continue e => with_video s e
      | Fade.Done e => with_video (clearTimer (Fade.fadeInterval (video s)) s) e
      | Fade.Throws true =>
          with_video (clearTimer (Fade.fadeInterval (video s)) s)
                     (Fade.mkElement (Fade.volume (video s)) None)
      | Fade.Throws false => s
      end
  | V2 =>
      match Fade.tick_v2 f (video s) with
      | Fade.Continue e => with_video s e
      | Fade.Done e => with_video (clearTimer (Some self) s) e
      | Fade.Throws true => clearTimer (Some self) s
      | Fade.Throws false => s
      end
  end.

(** ** The delays that differ between the versions *)

Definition ac_resume_delay (v : version) : Z :=
  match v with V13 => 4000 | V2 => 3000 + 5000 end.

Definition kg_resume_delay (v : version) : Z :=
  match v with V13 => 13000 | V2 => 13500 end.

Definition iso_resume_delay (v : version) : Z :=
  match v with V13 => 11000 | V2 => 12500 end.

Definition fade_in_duration (v : version) : float :=
  match v with V13 => 5000 | V2 => 2500 end.

Definition fade_out_duration (v : version) : float :=
  match v with V13 => 7000 | V2 => 4000 end.

(** ** The stage handler *)

(** [handleState(data)] by [data.status]: the timers it clears and
    registers, in the order of the source, on a page that holds the card of
    the stage with the elements inside it, and for a response that carries
    the payload of its status.  On another page the source stops on a
    [TypeError] part of the way (V13's ISO branch, for one, after
    [switchToStage] and before its first [setTimeout]); the properties that
    need the timers registered take a page that holds its cards. *)
Definition handleState (v : version) (status : string) (s : State) : State :=
  if String.eqb status "AC_COMPLETE" then
    let s1 := clearTimer (pollingIntervalId s) s in
    let s2 := switchToStage "step-emotion-analysis" s1 in
    let s3 := setInterval (TypingTick 0) 1200 s2 in
    setTimeout AcRadar 3500 s3
  else if String.eqb status "KG_COMPLETE" then
    let s1 := clearTimer (pollingIntervalId s) s in
    let s2 := switchToStage "step-kg-result" s1 in
    match v with
    | V13 =>
        let s3 := setTimeout (KgStage 1) 4000 s2 in
        let s4 := setTimeout (KgStage 2) 8000 s3 in
        setTimeout StartPolling (kg_resume_delay v) s4
    | V2 =>
        let s3 := setTimeout (KgStage 1) 500 s2 in
        let s4 := setTimeout (KgStage 2) 4000 s3 in
        let s5 := setTimeout (KgStage 3) 10000 s4 in
        setTimeout StartPolling (kg_resume_delay v) s5
    end
  else if String.eqb status "ISO_PRINCIPLE_READY" then
    let s1 := clearTimer (pollingIntervalId s) s in
    let s2 := switchToStage "step-iso-principle" s1 in
    let s3 := setTimeout IsoMatch 500 s2 in
    let s4 := setTimeout IsoEntrain 4500 s3 in
    let s5 := setTimeout IsoArrive 8500 s4 in
    setTimeout IsoFinish (iso_resume_delay v) s5
  else if String.eqb status "VIDEO_READY" then
    let s1 := clearTimer (pollingIntervalId s) s in
    let s2 := with_video s1 (Fade.mkElement 0 (Fade.fadeInterval (video s1))) in
    let s3 := switchToStage "step-video-player" s2 in
    let s4 := setTimeout OverlayVisible 100 s3 in
    setTimeout PreludeEnd 3500 s4
  else s.

(** ** Running a callback *)

(** The body of each callback; [self] is the handle it was registered
    under. *)
Definition exec (v : version) (self : positive) (cb : callback) (s : State) : State :=
  match cb with
  | PollTick => poll_tick v s
  | StartPolling => startPolling s
  | TypingTick stepIndex =>
      if (S stepIndex <? 3)%nat then s else clearTimer (Some self) s
  | AcRadar =>
      let s1 := setTimeout AcReveal (3000 + 500) s in
      setTimeout StartPolling (ac_resume_delay v) s1
  | AcReveal => s
  | KgStage _ => s
  | IsoMatch => s
  | IsoEntrain => setTimeout IsoEntrainText 600 s
  | IsoEntrainText => s
  | IsoArrive =>
      let s1 := setTimeout IsoArriveText 600 s in
      setTimeout IsoExit 2000 s1
  | IsoArriveText => s
  | IsoExit => s
  | IsoFinish =>
      match v with
      | V13 => startPolling (switchToStage "step-synthesis" s)
      | V2 => startPolling s
      end
  | OverlayVisible => s
  | PreludeEnd => fadeAudio v 1 (fade_in_duration v) s
  | FadeTick f => fade_tick v self f s
  | SwitchHide _ next =>
      if card_exists s next then setTimeout (SwitchShow next) 50 s else s
  | SwitchShow next => with_stage s next
  | EpilogueEnd =>
      let s1 := switchToStage "step-conclusion" s in
      match v with
      | V13 => s1
      | V2 => with_epilogue s1 false
      end
  end.

(** The closure of an interval after one run: the typing interval counts
    its runs in [stepIndex]. *)
Definition next_closure (cb : callback) : callback :=
  match cb with
  | TypingTick stepIndex => TypingTick (S stepIndex)
  | _ => cb
  end.

(** The timer that runs next: the earliest due, the oldest among equals. *)
Fixpoint earliest (l : list Timer) : option Timer :=
  match l with
  | [] => None
  | t :: l' =>
      match earliest l' with
      | Some u => if due t <=? due u then Some t else Some u
      | None => Some t
      end
  end.

(** The timers once [t] has been taken for a run: an interval is due
    again one period later, a timeout is gone. *)
Definition rearm (t : Timer) (l : list Timer) : list Timer :=
  match every t with
  | Some period =>
      map (fun u => if Pos.eqb (handle u) (handle t)
                    then mkTimer (handle t) (due t + period) (Some period)
                                 (next_closure (run t))
                    else u) l
  | None => List.filter (fun u => negb (Pos.eqb (handle u) (handle t))) l
  end.

(** One turn of the event loop on the timer queue. *)
Definition fire_next (v : version) (s : State) : option State :=
  match earliest (timers s) with
  | Some t =>
      let now := Z.max (clock s) (due t) in
      Some (exec v (handle t) (run t) (with_run s now (run t) (rearm t (timers s))))
  | None => None
  end.

(** [n] turns on the timer queue, nothing else happening. *)
Fixpoint run_timers (v : version) (n : nat) (s : State) : State :=
  match n with
  | O => s
  | S n' =>
      match fire_next v s with
      | Some s' => run_timers v n' s'
      | None => s
      end
  end.

(** ** Events of the page *)

(** [resetUI], as far as the state kept here goes. *)
Definition resetUI (s : State) : State := with_stage s "step-input".

(** [startHealingEpilogue]. *)
Definition startHealingEpilogue (v : version) (s : State) : State :=
  if epilogueTriggered s then s
  else
    let s1 := with_epilogue s true in
    let s2 := fadeAudio v 0 (fade_out_duration v) s1 in
    let s3 := setTimeout OverlayVisible 100 s2 in
    setTimeout EpilogueEnd 5000 s3.

(** What can happen to the page. *)
Inductive event : Type :=
| Fire                                  (* the next timer runs *)
| Response (status : string)            (* a status request is answered with this status *)
| ResponseError                         (* a status request fails *)
| SubmitClick                           (* the submit button, with a text entered *)
| SessionCreated (sid : option string)  (* create_session answered: createData.sessionId *)
| RestartClick                          (* the restart button *)
| VideoNearEnd                          (* a timeupdate within the last seconds *)
| VideoEnded                            (* the video's ended event *)
| VideoLoadStart.                       (* the video's loadstart event *)

Definition react (v : version) (ev : event) (s : State) : State :=
  match ev with
  | Fire =>
      match fire_next v s with
      | Some s' => s'
      | None => s
      end
  | Response status =>
      match v with
      | V13 => if String.eqb status "ERROR" then poll_failed s else handleState v status s
      | V2 => handleState v status s
      end
  | ResponseError =>
      match v with
      | V13 => poll_failed s
      | V2 => s
      end
  | SubmitClick =>
      if String.eqb (currentStageId s) "step-input" then s else resetUI s
  | SessionCreated sid =>
      let s1 := with_session s sid in
      if has_session s1 then startPolling s1 else s1
  | RestartClick =>
      let s1 := resetUI s in
      let s2 :=
        match pollingIntervalId s1 with
        | Some h => with_polling (clearTimer (Some h) s1) None
        | None => s1
        end in
      with_session s2 None
  | VideoNearEnd => startHealingEpilogue v s
  | VideoEnded =>
      match v with
      | V13 => startHealingEpilogue v s
      | V2 => startHealingEpilogue v (switchToStage "step-conclusion" s)
      end
  | VideoLoadStart => with_epilogue s false
  end.

(** The page when its script has run: no timer, no session, the input
    card shown. *)
Definition initial (first_id : positive) (stage_cards : list string)
    (volume : float) : State :=
  mkState 0 first_id [] None None "step-input" stage_cards
          (Fade.mkElement volume None) false [] [].

Definition react_all (v : version) (evs : list event) (s : State) : State :=
  fold_left (fun st ev => react v ev st) evs s.

(** The states the page can be in. *)
Definition reachable (v : version) (s : State) : Prop :=
  exists first_id stage_cards volume evs,
    s = react_all v evs (initial first_id stage_cards volume).

(** The cards of the page of V13. *)
Definition all_cards : list string :=
  ["step-input"; "step-emotion-analysis"; "step-kg-result"; "step-iso-principle";
   "step-synthesis"; "step-video-player"; "step-conclusion"].

(** ** Predicates on the timer queue *)

(** Handles are unique and below the next handle; every polling callback
    in the queue is the interval registered under [pollingIntervalId], with
    the polling period. *)
Definition wf (s : State) : Prop :=
  List.NoDup (map handle (timers s)) /\
  (forall t, In t (timers s) -> (handle t < next_id s)%positive) /\
  (forall t, In t (timers s) -> is_poll (run t) = true ->
     pollingIntervalId s = Some (handle t) /\ every t = Some poll_period).

(** The number of polling intervals in the queue. *)
Definition polling_intervals (s : State) : nat :=
  length (List.filter (fun t => is_poll (run t)) (timers s)).

(** [Some off] for a callback that brings polling back [off] ms after it
    runs: [startPolling] itself, the last timer of the ISO stage, and the
    radar callback of the AC stage, which registers [startPolling]. *)
Definition resumes_after (v : version) (cb : callback) : option Z :=
  match cb with
  | StartPolling => Some 0
  | IsoFinish => Some 0
  | AcRadar => Some (ac_resume_delay v)
  | _ => None
  end.

(** No timer of the queue leads back to [startPolling] before [bound]:
    polling is off, and a callback that resumes polling [off] ms after it
    runs is a timeout due at [bound - off] or later. *)
Definition quiet (v : version) (bound : Z) (s : State) : Prop :=
  polling_active s = false /\
  (forall t off, In t (timers s) -> resumes_after v (run t) = Some off ->
     every t = None /\ bound <= due t + off).

(** The times at which the timers of a queue resume polling. *)
Definition resume_times (v : version) (l : list Timer) : list Z :=
  flat_map (fun t => match resumes_after v (run t) with
                     | Some off => [due t + off]
                     | None => []
                     end) l.

(** The delay after which each stage resumes polling. *)
Definition stage_delay (v : version) (status : string) : option Z :=
  if String.eqb status "AC_COMPLETE" then Some (3500 + ac_resume_delay v)
  else if String.eqb status "KG_COMPLETE" then Some (kg_resume_delay v)
  else if String.eqb status "ISO_PRINCIPLE_READY" then Some (iso_resume_delay v)
  else None.

(** The callbacks that make up the animation of the three stages. *)
Definition stage_animation (cb : callback) : bool :=
  match cb with
  | TypingTick _ | AcRadar | AcReveal | KgStage _
  | IsoMatch | IsoEntrain | IsoEntrainText | IsoArrive | IsoArriveText | IsoExit => true
  | _ => false
  end.

(** How long after its own run a callback of the animation still has
    work of the animation ahead. *)
Definition horizon (cb : callback) : Z :=
  match cb with
  | TypingTick stepIndex => 1200 * Z.of_nat (2 - stepIndex)
  | AcRadar => 3500
  | IsoEntrain => 600
  | IsoArrive => 2000
  | _ => 0
  end.

(** No timer of the queue is overdue, and no interval has a negative
    period. *)
Definition on_time (s : State) : Prop :=
  forall t, In t (timers s) ->
    clock s <= due t /\ (forall p, every t = Some p -> 0 <= p).

(** The animation in the queue is over before [bound]: each of its
    callbacks runs, with all that it starts, before [bound]; the typing
    callback is the 1200 ms interval and the others are timeouts. *)
Definition settling (bound : Z) (s : State) : Prop :=
  forall t, In t (timers s) -> stage_animation (run t) = true ->
    (due t + horizon (run t) < bound) /\
    (every t = match run t with
               | TypingTick _ => Some 1200
               | _ => None
               end).

(** No timer of the queue resumes polling. *)
Definition no_resume_pending (v : version) (s : State) : Prop :=
  forall t, In t (timers s) -> resumes_after v (run t) = None.

(** No timer of the queue belongs to the animation of a stage. *)
Definition no_animation_pending (s : State) : Prop :=
  forall t, In t (timers s) -> stage_animation (run t) = false.

(** The page after [k] runs of the polling callback registered by
    [startPolling s], when nothing else is in the queue and no answer has
    come in. *)
Definition polled (v : version) (s : State) (k : nat) : State :=
  mkState (clock s + poll_period * Z.of_nat k)
          (Pos.succ (next_id s))
          [mkTimer (next_id s) (clock s + poll_period * Z.of_nat (S k))
                   (Some poll_period) PollTick]
          (sessionId s)
          (Some (next_id s))
          (currentStageId s) (cards s) (video s) (epilogueTriggered s)
          (fetches s ++ map (fun i => (clock s + poll_period * Z.of_nat i, status_url v s))
                            (seq 1 k))
          (log s ++ map (fun i => (clock s + poll_period * Z.of_nat i, PollTick))
                        (seq 1 k)).

(** The page of V13 once a session has been created. *)
Definition sample_session : State :=
  react_all V13 [SessionCreated (Some "abc")] (initial 1 all_cards 1).

(** The page of V13 at the first answer: a session, and one run of the
    polling callback. *)
Definition sample_polling : State :=
  react_all V13 [SessionCreated (Some "abc"); Fire] (initial 1 all_cards 1).

(** Two requests are out (sent at 2000 and 4000 ms); the first has been
    answered with AC_COMPLETE at 4000 ms and its animation has run until
    5200 ms; the answer to the second is still to come. *)
Definition overlapping : State :=
  react_all V13
    [SessionCreated (Some "abc"); Fire; Fire; Response "AC_COMPLETE"; Fire; Fire; Fire]
    (initial 1 all_cards 1).

(** ** Predicates on event sequences *)

(** [createData.sessionId] is [undefined], [null] or the empty string. *)
Definition falsy_id (sid : option string) : bool :=
  match sid with
  | Some id => String.eqb id ""
  | None => true
  end.

(** None of the events hands the page a session identifier. *)
Definition creates_no_session (evs : list event) : Prop :=
  forall sid, In (SessionCreated sid) evs -> falsy_id sid = true.

(** The page of V13 restarted just after the first answer, AC_COMPLETE,
    came in: the timers of the stage are still in the queue. *)
Definition restarted : State :=
  react_all V13 [SessionCreated (Some "abc"); Fire; Response "AC_COMPLETE"; RestartClick]
            (initial 1 all_cards 1).

(** The session, the requests sent and the epilogue flag are the same in
    both states. *)
Definition same_session (s s' : State) : Prop :=
  sessionId s' = sessionId s /\ fetches s' = fetches s /\
  epilogueTriggered s' = epilogueTriggered s.

(** ** Predicates on fades *)

Definition is_fade (cb : callback) : bool :=
  match cb with FadeTick _ => true | _ => false end.

(** The number of fade intervals in the queue. *)
Definition fade_intervals (s : State) : nat :=
  length (List.filter (fun t => is_fade (run t)) (timers s)).

(** Every fade callback of the queue is registered under the handle that
    [videoElement.fadeInterval] holds. *)
Definition fade_tracked (s : State) : Prop :=
  forall t, In t (timers s) -> is_fade (run t) = true ->
    Fade.fadeInterval (video s) = Some (handle t).

(** The video becomes ready, the prelude passes, the fade-in starts and
    runs once; then the video is reported near its end. *)
Definition early_epilogue : list event :=
  [Response "VIDEO_READY"; Fire; Fire; Fire; Fire; Fire; VideoNearEnd].

(** ** Predicates on the whole queue *)

(** Every pending timer is registered under the handle that
    [pollingIntervalId] holds: nothing but the polling interval is
    pending. *)
Definition only_polling (s : State) : Prop :=
  forall t, In t (timers s) -> pollingIntervalId s = Some (handle t).

(** The page is polling and nothing else is pending: the queue holds the
    interval of [startPolling], registered under [pollingIntervalId]. *)
Definition polling_alone (s : State) : Prop :=
  exists h d,
    timers s = [mkTimer h d (Some poll_period) PollTick] /\
    pollingIntervalId s = Some h /\ (h < next_id s)%positive.

(** The cards the script of each version keeps in [stages]. *)
Definition page_cards (v : version) : list string :=
  match v with
  | V13 => all_cards
  | V2 =>
      ["step-input"; "step-emotion-analysis"; "step-kg-result"; "step-iso-principle";
       "step-video-player"; "step-conclusion"]
  end.

(** The document holds every card of the page, so that no entry of
    [stages] is [null]. *)
Definition holds_cards (v : version) (s : State) : Prop :=
  forall id, In id (page_cards v) -> card_exists s id = true.

(** The first answer, KG_COMPLETE, has just been handled when the user
    restarts and submits again, and a new session is created: the timers of
    the stage are still in the queue. *)
Definition restart_during_stage (v : version) : State :=
  react_all v
    [SubmitClick; SessionCreated (Some "abc"); Fire; Response "KG_COMPLETE";
     RestartClick; SubmitClick; SessionCreated (Some "def")]
    (initial 1 (page_cards v) 1).

(** In [s'] one status request has gone out since [s], [delay] ms and one
    polling period later, which is the time of [s']; polling is on. *)
Definition resumed (v : version) (s : State) (delay : Z) (s' : State) : Prop :=
  fetches s' = (fetches s ++ [(clock s + delay + poll_period, status_url v s)])%list /\
  clock s' = clock s + delay + poll_period /\
  polling_active s' = true.

(** ** Well-formed timer queues *)

Lemma In_filter_handle (h : positive) (l : list Timer) (t : Timer) :
  In t (List.filter (fun u => negb (Pos.eqb (handle u) h)) l) <->
  In t l /\ handle t <> h.
Proof.
  rewrite List.filter_In. split; intros [Hin Hh]; (split; [exact Hin |]).
  - apply negb_true_iff in Hh. apply Pos.eqb_neq in Hh. exact Hh.
  - apply negb_true_iff. apply Pos.eqb_neq. exact Hh.
Qed.

Lemma NoDup_map_filter (f : Timer -> bool) (l : list Timer) :
  List.NoDup (map handle l) -> List.NoDup (map handle (List.filter f l)).
Proof.
  induction l as [| t l IH]; simpl; intros Hnd; [exact Hnd |].
  apply List.NoDup_cons_iff in Hnd. destruct Hnd as [Hnotin Hnd].
  destruct (f t); simpl; [| apply IH; exact Hnd].
  apply List.NoDup_cons_iff. split; [| apply IH; exact Hnd].
  intros Hin. apply Hnotin. apply List.in_map_iff in Hin.
  destruct Hin as (u & Hu & Hin). apply List.filter_In in Hin.
  apply List.in_map_iff. exists u. tauto.
Qed.

Lemma NoDup_map_snoc (l : list Timer) (t : Timer) :
  List.NoDup (map handle l) ->
  (forall u, In u l -> handle u <> handle t) ->
  List.NoDup (map handle (l ++ [t])).
Proof.
  induction l as [| u l IH]; simpl; intros Hnd Hfresh.
  - apply List.NoDup_cons_iff. split; [intros [] | constructor].
  - apply List.NoDup_cons_iff in Hnd. destruct Hnd as [Hnotin Hnd].
    apply List.NoDup_cons_iff. split.
    + rewrite List.map_app, List.in_app_iff. simpl. intros [Hin | [Heq | []]].
      * contradiction.
      * apply (Hfresh u); [left; reflexivity | symmetry; exact Heq].
    + apply IH; [exact Hnd |]. intros w Hw. apply Hfresh. right. exact Hw.
Qed.

Lemma wf_clearTimer (h : option positive) (s : State) :
  wf s -> wf (clearTimer h s).
Proof.
  destruct h as [id |]; [| intros H; exact H].
  intros (Hnd & Hlt & Hpoll). unfold wf, clearTimer. simpl.
  split; [apply NoDup_map_filter; exact Hnd |]. split.
  - intros t Ht. apply In_filter_handle in Ht. apply Hlt. tauto.
  - intros t Ht. apply In_filter_handle in Ht. apply Hpoll. tauto.
Qed.

Lemma wf_register (cb : callback) (when : Z) (period : option Z) (s : State) :
  is_poll cb = false -> wf s ->
  wf (with_timers s (Pos.succ (next_id s))
                  (timers s ++ [mkTimer (next_id s) when period cb])).
Proof.
  intros Hcb (Hnd & Hlt & Hpoll). unfold wf. simpl. split; [| split].
  - apply NoDup_map_snoc; [exact Hnd |]. simpl. intros u Hu.
    specialize (Hlt u Hu). lia.
  - intros t Ht. apply List.in_app_iff in Ht. destruct Ht as [Ht | [<- | []]].
    + specialize (Hlt t Ht). lia.
    + simpl. lia.
  - intros t Ht. apply List.in_app_iff in Ht. destruct Ht as [Ht | [<- | []]].
    + apply Hpoll. exact Ht.
    + simpl. congruence.
Qed.

Lemma wf_setTimeout (cb : callback) (delay : Z) (s : State) :
  is_poll cb = false -> wf s -> wf (setTimeout cb delay s).
Proof. apply wf_register. Qed.

Lemma wf_setInterval (cb : callback) (period : Z) (s : State) :
  is_poll cb = false -> wf s -> wf (setInterval cb period s).
Proof. apply wf_register. Qed.

(** Once the interval under [pollingIntervalId] is cleared, a well-formed
    queue holds no polling callback. *)
Lemma cleared_no_poll (s : State) (t : Timer) :
  wf s -> In t (timers (clearTimer (pollingIntervalId s) s)) -> is_poll (run t) = false.
Proof.
  intros (_ & _ & Hpoll) Ht.
  destruct (is_poll (run t)) eqn:E; [| reflexivity].
  destruct (pollingIntervalId s) as [h |] eqn:Hp; simpl in Ht.
  - apply In_filter_handle in Ht. destruct Ht as [Ht Hne].
    destruct (Hpoll t Ht E) as [Heq _]. congruence.
  - destruct (Hpoll t Ht E) as [Heq _]. congruence.
Qed.

Lemma wf_startPolling (s : State) : wf s -> wf (startPolling s).
Proof.
  intros Hwf. pose proof (wf_clearTimer (pollingIntervalId s) s Hwf) as (Hnd & Hlt & _).
  unfold startPolling, wf. cbv zeta. simpl. split; [| split].
  - apply NoDup_map_snoc; [exact Hnd |]. simpl. intros u Hu.
    specialize (Hlt u Hu). lia.
  - intros t Ht. apply List.in_app_iff in Ht. destruct Ht as [Ht | [<- | []]].
    + specialize (Hlt t Ht). lia.
    + simpl. lia.
  - intros t Ht Hp. apply List.in_app_iff in Ht. destruct Ht as [Ht | [<- | []]].
    + rewrite (cleared_no_poll s t Hwf Ht) in Hp. discriminate.
    + simpl. destruct (pollingIntervalId s); split; reflexivity.
Qed.

Lemma wf_switchToStage (next : string) (s : State) : wf s -> wf (switchToStage next s).
Proof.
  intros H. unfold switchToStage.
  destruct (card_exists s (currentStageId s)); [apply wf_setTimeout; auto | exact H].
Qed.

Lemma wf_with_video (s : State) (e : Fade.Element) : wf s -> wf (with_video s e).
Proof. intros H. exact H. Qed.

Lemma wf_with_stage (s : State) (stage : string) : wf s -> wf (with_stage s stage).
Proof. intros H. exact H. Qed.

Lemma wf_with_epilogue (s : State) (b : bool) : wf s -> wf (with_epilogue s b).
Proof. intros H. exact H. Qed.

Lemma wf_with_session (s : State) (sid : option string) : wf s -> wf (with_session s sid).
Proof. intros H. exact H. Qed.

Lemma wf_with_fetch (s : State) (u : string) : wf s -> wf (with_fetch s u).
Proof. intros H. exact H. Qed.

Lemma wf_fadeAudio (v : version) (target duration : float) (s : State) :
  wf s -> wf (fadeAudio v target duration s).
Proof.
  intros H. unfold fadeAudio.
  destruct (Fade.start_fade _ _ _ _ _) as [e [st |]]; [| exact H].
  apply wf_with_video, wf_setInterval; [reflexivity |]. apply wf_clearTimer. exact H.
Qed.

Lemma wf_fade_tick (v : version) (self : positive) (f : Fade.Fader) (s : State) :
  wf s -> wf (fade_tick v self f s).
Proof.
  intros H. unfold fade_tick. destruct v.
  - destruct (Fade.tick f (video s)) as [e | e | [|]];
      try exact H; apply wf_with_video, wf_clearTimer; exact H.
  - destruct (Fade.tick_v2 f (video s)) as [e | e | [|]];
      try exact H; try apply wf_with_video; apply wf_clearTimer; exact H.
Qed.

Lemma wf_poll_tick (v : version) (s : State) : wf s -> wf (poll_tick v s).
Proof.
  intros H. unfold poll_tick. destruct v; [| exact H].
  destruct (negb (has_session s)); [apply wf_clearTimer |]; exact H.
Qed.

Create HintDb wf_db.

#[local] Hint Resolve wf_clearTimer wf_setTimeout wf_setInterval wf_startPolling
  wf_switchToStage wf_with_video wf_with_stage wf_with_epilogue wf_with_session
  wf_with_fetch wf_fadeAudio wf_fade_tick wf_poll_tick : wf_db.

Lemma wf_handleState (v : version) (status : string) (s : State) :
  wf s -> wf (handleState v status s).
Proof.
  intros H. unfold handleState.
  repeat match goal with
         | |- context [String.eqb ?a ?b] => destruct (String.eqb a b)
         end;
    cbv zeta; try destruct v; auto 12 with wf_db.
Qed.

Lemma wf_exec (v : version) (self : positive) (cb : callback) (s : State) :
  wf s -> wf (exec v self cb s).
Proof.
  intros H. destruct cb; simpl;
    repeat match goal with
           | |- context [if ?b then _ else _] => destruct b
           end;
    try destruct v; auto 8 with wf_db;
    apply (wf_clearTimer (Some self)); exact H.
Qed.

Lemma is_poll_next_closure (cb : callback) : is_poll (next_closure cb) = is_poll cb.
Proof. destruct cb; reflexivity. Qed.

Lemma In_rearm (t : Timer) (l : list Timer) (u : Timer) :
  In u (rearm t l) ->
  (In u l /\ handle u <> handle t) \/
  (exists period, every t = Some period /\
     u = mkTimer (handle t) (due t + period) (Some period) (next_closure (run t)) /\
     exists w, In w l /\ handle w = handle t).
Proof.
  unfold rearm. destruct (every t) as [period |].
  - intros Hin. apply List.in_map_iff in Hin. destruct Hin as (w & Hw & Hin).
    destruct (Pos.eqb_spec (handle w) (handle t)) as [Heq | Hne].
    + right. exists period. split; [reflexivity |]. split; [symmetry; exact Hw |].
      exists w. split; assumption.
    + left. subst u. split; assumption.
  - intros Hin. apply In_filter_handle in Hin. left. exact Hin.
Qed.

Lemma map_handle_rearm (t : Timer) (l : list Timer) (period : Z) :
  every t = Some period -> map handle (rearm t l) = map handle l.
Proof.
  intros He. unfold rearm. rewrite He. rewrite List.map_map.
  apply List.map_ext. intros u. destruct (Pos.eqb_spec (handle u) (handle t)); simpl; congruence.
Qed.

Lemma earliest_In (l : list Timer) (t : Timer) : earliest l = Some t -> In t l.
Proof.
  revert t. induction l as [| u l IH]; simpl; intros t H; [discriminate |].
  destruct (earliest l) as [w |].
  - destruct (due u <=? due w); injection H as <-; [left; reflexivity | right; auto].
  - injection H as <-. left. reflexivity.
Qed.

Lemma wf_with_run (s : State) (t : Timer) (now : Z) :
  wf s -> In t (timers s) -> wf (with_run s now (run t) (rearm t (timers s))).
Proof.
  intros (Hnd & Hlt & Hpoll) Ht. unfold wf. simpl. split; [| split].
  - destruct (every t) as [period |] eqn:He.
    + rewrite (map_handle_rearm t _ period He). exact Hnd.
    + unfold rearm. rewrite He. apply NoDup_map_filter. exact Hnd.
  - intros u Hu. apply In_rearm in Hu.
    destruct Hu as [[Hu _] | (period & _ & -> & _)]; [apply Hlt; exact Hu |].
    simpl. apply Hlt. exact Ht.
  - intros u Hu Hp. apply In_rearm in Hu.
    destruct Hu as [[Hu _] | (period & He & -> & _)]; [apply Hpoll; assumption |].
    simpl in *. rewrite is_poll_next_closure in Hp.
    destruct (Hpoll t Ht Hp) as [H1 H2]. split; [exact H1 | congruence].
Qed.

Lemma wf_fire_next (v : version) (s s' : State) :
  wf s -> fire_next v s = Some s' -> wf s'.
Proof.
  intros H. unfold fire_next. destruct (earliest (timers s)) as [t |] eqn:E; [| discriminate].
  intros Hs. injection Hs as <-. apply wf_exec. apply wf_with_run; [exact H |].
  apply earliest_In. exact E.
Qed.

Lemma wf_startHealingEpilogue (v : version) (s : State) :
  wf s -> wf (startHealingEpilogue v s).
Proof.
  intros H. unfold startHealingEpilogue.
  destruct (epilogueTriggered s); [exact H |]. cbv zeta. auto 8 with wf_db.
Qed.

Lemma wf_react (v : version) (ev : event) (s : State) : wf s -> wf (react v ev s).
Proof.
  intros H. destruct ev; simpl.
  - destruct (fire_next v s) as [s' |] eqn:E; [eapply wf_fire_next; eauto | exact H].
  - destruct v; [destruct (String.eqb status "ERROR") |];
      try apply wf_handleState; try apply wf_clearTimer; exact H.
  - destruct v; [apply wf_clearTimer |]; exact H.
  - destruct (String.eqb (currentStageId s) "step-input"); [| apply wf_with_stage]; exact H.
  - destruct (has_session (with_session s sid)); [apply wf_startPolling |]; exact H.
  - apply wf_with_session. unfold resetUI. simpl.
    destruct (pollingIntervalId s) as [h |] eqn:Hp; [| exact H].
    pose proof (wf_clearTimer (Some h) (with_stage s "step-input") H) as (Hnd & Hlt & _).
    split; [exact Hnd |]. split; [exact Hlt |].
    intros t Ht Hpoll. exfalso.
    pose proof (cleared_no_poll s t H) as Hno. rewrite Hp in Hno.
    rewrite Hno in Hpoll; [discriminate | exact Ht].
  - apply wf_startHealingEpilogue. exact H.
  - destruct v; apply wf_startHealingEpilogue; auto with wf_db.
  - exact H.
Qed.

Lemma wf_initial (first_id : positive) (stage_cards : list string) (volume : float) :
  wf (initial first_id stage_cards volume).
Proof.
  split; [constructor |]. split; intros t [].
Qed.

Lemma wf_react_all (v : version) (evs : list event) (s : State) :
  wf s -> wf (react_all v evs s).
Proof.
  revert s. induction evs as [| ev evs IH]; intros s H; [exact H |].
  simpl. apply IH. apply wf_react. exact H.
Qed.

Lemma reachable_wf (v : version) (s : State) : reachable v s -> wf s.
Proof.
  intros (first_id & stage_cards & volume & evs & ->).
  apply wf_react_all, wf_initial.
Qed.

(** A well-formed queue holds at most one polling interval. *)
Lemma wf_one_polling_interval (s : State) : wf s -> (polling_intervals s <= 1)%nat.
Proof.
  intros (Hnd & _ & Hpoll). unfold polling_intervals.
  assert (Hsame : forall t u, In t (timers s) -> In u (timers s) ->
            is_poll (run t) = true -> is_poll (run u) = true -> handle t = handle u).
  { intros t u Ht Hu Hpt Hpu.
    destruct (Hpoll t Ht Hpt) as [H1 _]. destruct (Hpoll u Hu Hpu) as [H2 _]. congruence. }
  clear Hpoll. induction (timers s) as [| t l IH]; simpl; [lia |].
  simpl in Hnd. apply List.NoDup_cons_iff in Hnd. destruct Hnd as [Hnotin Hnd].
  assert (IHl : (length (List.filter (fun t => is_poll (run t)) l) <= 1)%nat).
  { apply IH; [exact Hnd |]. intros a b Ha Hb. apply Hsame; right; assumption. }
  destruct (is_poll (run t)) eqn:Hp; [| exact IHl].
  destruct (List.filter (fun t => is_poll (run t)) l) as [| u rest] eqn:Hf; simpl; [lia |].
  exfalso. assert (Hu : In u (List.filter (fun t => is_poll (run t)) l)) by (rewrite Hf; left; reflexivity).
  apply List.filter_In in Hu. destruct Hu as [Hu Hpu].
  apply Hnotin. apply List.in_map_iff. exists u. split; [| exact Hu].
  symmetry. apply Hsame; [left; reflexivity | right; exact Hu | exact Hp | exact Hpu].
Qed.

(** ** Time and the quiet period *)

Lemma clock_clearTimer (h : option positive) (s : State) : clock (clearTimer h s) = clock s.
Proof. destruct h; reflexivity. Qed.

Lemma clock_switchToStage (next : string) (s : State) : clock (switchToStage next s) = clock s.
Proof. unfold switchToStage. destruct (card_exists s (currentStageId s)); reflexivity. Qed.

Lemma clock_startPolling (s : State) : clock (startPolling s) = clock s.
Proof. unfold startPolling. simpl. apply clock_clearTimer. Qed.

Lemma clock_fadeAudio (v : version) (target duration : float) (s : State) :
  clock (fadeAudio v target duration s) = clock s.
Proof.
  unfold fadeAudio. destruct (Fade.start_fade _ _ _ _ _) as [e [st |]]; [| reflexivity].
  simpl. apply clock_clearTimer.
Qed.

Lemma clock_fade_tick (v : version) (self : positive) (f : Fade.Fader) (s : State) :
  clock (fade_tick v self f s) = clock s.
Proof.
  unfold fade_tick. destruct v.
  - destruct (Fade.tick f (video s)) as [e | e | [|]]; simpl;
      try reflexivity; apply clock_clearTimer.
  - destruct (Fade.tick_v2 f (video s)) as [e | e | [|]]; reflexivity.
Qed.

Lemma clock_setTimeout (cb : callback) (delay : Z) (s : State) :
  clock (setTimeout cb delay s) = clock s.
Proof. reflexivity. Qed.

Lemma clock_poll_tick (v : version) (s : State) : clock (poll_tick v s) = clock s.
Proof.
  unfold poll_tick. destruct v; [| reflexivity].
  destruct (negb (has_session s)); [apply clock_clearTimer | reflexivity].
Qed.

Lemma clock_with_stage (s : State) (stage : string) : clock (with_stage s stage) = clock s.
Proof. reflexivity. Qed.

Lemma clock_with_epilogue (s : State) (b : bool) : clock (with_epilogue s b) = clock s.
Proof. reflexivity. Qed.

Lemma clock_exec (v : version) (self : positive) (cb : callback) (s : State) :
  clock (exec v self cb s) = clock s.
Proof.
  destruct cb; unfold exec; cbv zeta;
    repeat match goal with
           | |- context [if ?b then _ else _] => destruct b
           | |- context [match v with V13 => _ | V2 => _ end] => destruct v
           end;
    repeat progress
      rewrite ?clock_startPolling, ?clock_switchToStage, ?clock_fadeAudio,
              ?clock_fade_tick, ?clock_clearTimer, ?clock_setTimeout, ?clock_poll_tick,
              ?clock_with_stage, ?clock_with_epilogue;
    reflexivity.
Qed.

Lemma clock_fire_next (v : version) (s s' : State) :
  fire_next v s = Some s' -> clock s <= clock s'.
Proof.
  unfold fire_next. destruct (earliest (timers s)) as [t |]; [| discriminate].
  intros H. injection H as <-. rewrite clock_exec. simpl. lia.
Qed.

Lemma clock_run_timers (v : version) (n : nat) (s : State) :
  clock s <= clock (run_timers v n s).
Proof.
  revert s. induction n as [| n IH]; intros s; simpl; [lia |].
  destruct (fire_next v s) as [s' |] eqn:E; [| lia].
  pose proof (clock_fire_next v s s' E). specialize (IH s'). lia.
Qed.

Lemma polling_active_false (s : State) :
  polling_active s = false <-> forall t, In t (timers s) -> is_poll (run t) = false.
Proof.
  unfold polling_active. split.
  - intros H t Ht. destruct (is_poll (run t)) eqn:E; [| reflexivity].
    assert (Hex : existsb (fun t => is_poll (run t)) (timers s) = true).
    { apply List.existsb_exists. exists t. split; assumption. }
    congruence.
  - intros H. destruct (existsb _ (timers s)) eqn:E; [| reflexivity].
    apply List.existsb_exists in E. destruct E as (t & Ht & Hp).
    rewrite (H t Ht) in Hp. discriminate.
Qed.

Lemma quiet_clearTimer (v : version) (bound : Z) (h : option positive) (s : State) :
  quiet v bound s -> quiet v bound (clearTimer h s).
Proof.
  destruct h as [id |]; [| intros H; exact H].
  intros [Hp Hr]. rewrite polling_active_false in Hp. split.
  - apply polling_active_false. simpl. intros t Ht.
    apply In_filter_handle in Ht. apply Hp. tauto.
  - simpl. intros t off Ht. apply In_filter_handle in Ht. apply Hr. tauto.
Qed.

Lemma quiet_register (v : version) (bound : Z) (cb : callback) (when : Z)
    (period : option Z) (s : State) :
  is_poll cb = false ->
  (forall off, resumes_after v cb = Some off -> period = None /\ bound <= when + off) ->
  quiet v bound s ->
  quiet v bound (with_timers s (Pos.succ (next_id s))
                             (timers s ++ [mkTimer (next_id s) when period cb])).
Proof.
  intros Hcb Hoff [Hp Hr]. rewrite polling_active_false in Hp. split.
  - apply polling_active_false. simpl. intros t Ht.
    apply List.in_app_iff in Ht. destruct Ht as [Ht | [<- | []]]; [apply Hp; exact Ht | exact Hcb].
  - simpl. intros t off Ht. apply List.in_app_iff in Ht.
    destruct Ht as [Ht | [<- | []]]; [apply Hr; exact Ht | apply Hoff].
Qed.

Lemma quiet_setTimeout (v : version) (bound : Z) (cb : callback) (delay : Z) (s : State) :
  is_poll cb = false ->
  (forall off, resumes_after v cb = Some off -> bound <= clock s + delay + off) ->
  quiet v bound s -> quiet v bound (setTimeout cb delay s).
Proof.
  intros Hcb Hoff. apply quiet_register; [exact Hcb |].
  intros off H. split; [reflexivity | apply Hoff; exact H].
Qed.

Lemma quiet_plain_timeout (v : version) (bound : Z) (cb : callback) (delay : Z) (s : State) :
  is_poll cb = false -> resumes_after v cb = None ->
  quiet v bound s -> quiet v bound (setTimeout cb delay s).
Proof.
  intros Hcb Hnone. apply quiet_setTimeout; [exact Hcb |]. intros off H. congruence.
Qed.

Lemma quiet_plain_interval (v : version) (bound : Z) (cb : callback) (period : Z) (s : State) :
  is_poll cb = false -> resumes_after v cb = None ->
  quiet v bound s -> quiet v bound (setInterval cb period s).
Proof.
  intros Hcb Hnone. apply quiet_register; [exact Hcb |]. intros off H. congruence.
Qed.

Lemma quiet_switchToStage (v : version) (bound : Z) (next : string) (s : State) :
  quiet v bound s -> quiet v bound (switchToStage next s).
Proof.
  intros H. unfold switchToStage. destruct (card_exists s (currentStageId s)); [| exact H].
  apply quiet_plain_timeout; [reflexivity | reflexivity | exact H].
Qed.

Lemma quiet_with_video (v : version) (bound : Z) (s : State) (e : Fade.Element) :
  quiet v bound s -> quiet v bound (with_video s e).
Proof. intros H. exact H. Qed.

Lemma quiet_with_stage (v : version) (bound : Z) (s : State) (stage : string) :
  quiet v bound s -> quiet v bound (with_stage s stage).
Proof. intros H. exact H. Qed.

Lemma quiet_with_epilogue (v : version) (bound : Z) (s : State) (b : bool) :
  quiet v bound s -> quiet v bound (with_epilogue s b).
Proof. intros H. exact H. Qed.

Lemma quiet_fadeAudio (v : version) (bound : Z) (target duration : float) (s : State) :
  quiet v bound s -> quiet v bound (fadeAudio v target duration s).
Proof.
  intros H. unfold fadeAudio.
  destruct (Fade.start_fade _ _ _ _ _) as [e [st |]]; [| exact H].
  apply quiet_with_video, quiet_plain_interval; [reflexivity | reflexivity |].
  apply quiet_clearTimer. exact H.
Qed.

Lemma quiet_fade_tick (v : version) (bound : Z) (self : positive) (f : Fade.Fader)
    (s : State) :
  quiet v bound s -> quiet v bound (fade_tick v self f s).
Proof.
  intros H. unfold fade_tick. destruct v.
  - destruct (Fade.tick f (video s)) as [e | e | [|]];
      try exact H; apply quiet_with_video, quiet_clearTimer; exact H.
  - destruct (Fade.tick_v2 f (video s)) as [e | e | [|]];
      try exact H; try apply quiet_with_video; apply quiet_clearTimer; exact H.
Qed.

Create HintDb quiet_db.

#[local] Hint Resolve quiet_clearTimer quiet_plain_timeout quiet_plain_interval
  quiet_switchToStage quiet_with_video quiet_with_stage quiet_with_epilogue
  quiet_fadeAudio quiet_fade_tick : quiet_db.

(** Running a callback that is not the polling callback and does not
    resume polling before [bound] keeps the queue quiet. *)
Lemma quiet_exec (v : version) (bound : Z) (self : positive) (cb : callback) (s : State) :
  quiet v bound s -> is_poll cb = false -> clock s < bound ->
  (forall off, resumes_after v cb = Some off -> bound <= clock s + off) ->
  quiet v bound (exec v self cb s).
Proof.
  intros H Hcb Hclock Hoff.
  destruct cb; try discriminate Hcb;
    try (specialize (Hoff 0 eq_refl); lia); simpl.
  - destruct (S stepIndex <? 3)%nat; [exact H |].
    apply (quiet_clearTimer v bound (Some self)). exact H.
  - apply quiet_setTimeout; [reflexivity | |].
    + intros off Ho. injection Ho as <-. simpl. specialize (Hoff _ eq_refl). lia.
    + auto with quiet_db.
  - exact H.
  - exact H.
  - exact H.
  - auto with quiet_db.
  - exact H.
  - auto with quiet_db.
  - exact H.
  - exact H.
  - exact H.
  - auto with quiet_db.
  - auto with quiet_db.
  - destruct (card_exists s next); auto with quiet_db.
  - auto with quiet_db.
  - destruct v; auto with quiet_db.
Qed.

Lemma resumes_after_next_closure (v : version) (cb : callback) :
  resumes_after v (next_closure cb) = resumes_after v cb.
Proof. destruct cb; reflexivity. Qed.

Lemma quiet_with_run (v : version) (bound : Z) (s : State) (t : Timer) (now : Z) :
  quiet v bound s -> In t (timers s) ->
  quiet v bound (with_run s now (run t) (rearm t (timers s))).
Proof.
  intros [Hp Hr] Ht. rewrite polling_active_false in Hp. split.
  - apply polling_active_false. simpl. intros u Hu. apply In_rearm in Hu.
    destruct Hu as [[Hu _] | (period & _ & -> & _)]; [apply Hp; exact Hu |].
    simpl. rewrite is_poll_next_closure. apply Hp. exact Ht.
  - simpl. intros u off Hu Hoff. apply In_rearm in Hu.
    destruct Hu as [[Hu _] | (period & He & -> & _)]; [apply (Hr u off); assumption |].
    simpl in Hoff. rewrite resumes_after_next_closure in Hoff.
    destruct (Hr t off Ht Hoff) as [Hnone _]. congruence.
Qed.

Lemma quiet_fire_next (v : version) (bound : Z) (s s' : State) :
  quiet v bound s -> fire_next v s = Some s' -> clock s' < bound -> quiet v bound s'.
Proof.
  intros Hq. unfold fire_next.
  destruct (earliest (timers s)) as [t |] eqn:E; [| discriminate].
  intros H. injection H as <-. rewrite clock_exec. simpl. intros Hclock.
  pose proof (earliest_In _ _ E) as Ht.
  apply quiet_exec.
  - apply quiet_with_run; assumption.
  - destruct Hq as [Hp _]. rewrite polling_active_false in Hp. apply Hp. exact Ht.
  - simpl. exact Hclock.
  - simpl. intros off Hoff. destruct Hq as [_ Hr].
    destruct (Hr t off Ht Hoff) as [_ Hb]. lia.
Qed.

(** While the clock has not reached [bound], a quiet queue stays quiet,
    whatever timers run. *)
Lemma quiet_run_timers (v : version) (bound : Z) (n : nat) (s : State) :
  quiet v bound s -> clock (run_timers v n s) < bound ->
  quiet v bound (run_timers v n s).
Proof.
  revert s. induction n as [| n IH]; intros s Hq Hclock; [exact Hq |].
  simpl in *. destruct (fire_next v s) as [s' |] eqn:E; [| exact Hq].
  apply IH; [| exact Hclock].
  apply (quiet_fire_next v bound s s' Hq E).
  pose proof (clock_run_timers v n s'). lia.
Qed.

(** ** The stage handler and the queue *)

Lemma resume_times_app (v : version) (l l' : list Timer) :
  resume_times v (l ++ l') = (resume_times v l ++ resume_times v l')%list.
Proof. unfold resume_times. apply List.flat_map_app. Qed.

Lemma resume_times_none (v : version) (l : list Timer) :
  (forall t, In t l -> resumes_after v (run t) = None) -> resume_times v l = [].
Proof.
  induction l as [| t l IH]; intros H; [reflexivity |].
  simpl. rewrite (H t (or_introl eq_refl)). simpl. apply IH.
  intros u Hu. apply H. right. exact Hu.
Qed.

Lemma no_resume_clearTimer (v : version) (h : option positive) (s : State) :
  no_resume_pending v s -> no_resume_pending v (clearTimer h s).
Proof.
  destruct h as [id |]; [| intros H; exact H].
  intros H t Ht. simpl in Ht. apply In_filter_handle in Ht. apply H. tauto.
Qed.

Lemma no_resume_switchToStage (v : version) (next : string) (s : State) :
  no_resume_pending v s -> no_resume_pending v (switchToStage next s).
Proof.
  intros H. unfold switchToStage. destruct (card_exists s (currentStageId s)); [| exact H].
  intros t Ht. simpl in Ht. apply List.in_app_iff in Ht.
  destruct Ht as [Ht | [<- | []]]; [apply H; exact Ht | reflexivity].
Qed.

(** Once the handler has cleared the polling interval and switched the
    stage, the queue is quiet for every bound. *)
Lemma cleared_is_quiet (v : version) (bound : Z) (next : string) (s : State) :
  wf s -> no_resume_pending v s ->
  quiet v bound (switchToStage next (clearTimer (pollingIntervalId s) s)) /\
  resume_times v (timers (switchToStage next (clearTimer (pollingIntervalId s) s))) = [] /\
  clock (switchToStage next (clearTimer (pollingIntervalId s) s)) = clock s.
Proof.
  intros Hwf Hno.
  assert (Hq : quiet v bound (clearTimer (pollingIntervalId s) s)).
  { split.
    - apply polling_active_false. intros t Ht. apply (cleared_no_poll s t Hwf Ht).
    - intros t off Ht Hoff.
      rewrite (no_resume_clearTimer v _ s Hno t Ht) in Hoff. discriminate. }
  split; [apply quiet_switchToStage; exact Hq |]. split.
  - apply resume_times_none. apply no_resume_switchToStage, no_resume_clearTimer. exact Hno.
  - rewrite clock_switchToStage. apply clock_clearTimer.
Qed.

Lemma resume_times_setTimeout (v : version) (cb : callback) (delay : Z) (s : State) :
  resume_times v (timers (setTimeout cb delay s))
  = (resume_times v (timers s)
     ++ match resumes_after v cb with
        | Some off => [clock s + delay + off]
        | None => []
        end)%list.
Proof.
  simpl. rewrite resume_times_app. simpl. destruct (resumes_after v cb); reflexivity.
Qed.

Lemma resume_times_setInterval_plain (v : version) (cb : callback) (period : Z) (s : State) :
  resumes_after v cb = None ->
  resume_times v (timers (setInterval cb period s)) = resume_times v (timers s).
Proof.
  intros H. simpl. rewrite resume_times_app. simpl. rewrite H. apply List.app_nil_r.
Qed.

(** After the handler has run for one of the three animated stages, the
    queue is quiet until the stage's delay has passed, and it resumes
    polling exactly then. *)
Lemma handleState_quiet (v : version) (status : string) (delay : Z) (s : State) :
  wf s -> no_resume_pending v s -> stage_delay v status = Some delay ->
  quiet v (clock s + delay) (handleState v status s) /\
  resume_times v (timers (handleState v status s)) = [clock s + delay].
Proof.
  intros Hwf Hno. unfold stage_delay, handleState.
  destruct (String.eqb status "AC_COMPLETE");
    [| destruct (String.eqb status "KG_COMPLETE");
       [| destruct (String.eqb status "ISO_PRINCIPLE_READY"); [| discriminate]]];
    intros Hd; injection Hd as <-; cbv zeta.
  - destruct (cleared_is_quiet v (clock s + (3500 + ac_resume_delay v))
                "step-emotion-analysis" s Hwf Hno) as (Hq & Hrt & Hc).
    set (s2 := switchToStage "step-emotion-analysis" (clearTimer (pollingIntervalId s) s)) in *.
    split.
    + apply quiet_setTimeout; [reflexivity | |].
      * intros off Hoff. injection Hoff as <-. simpl clock. rewrite Hc. lia.
      * apply quiet_plain_interval; [reflexivity | reflexivity | exact Hq].
    + rewrite resume_times_setTimeout, resume_times_setInterval_plain by reflexivity.
      rewrite Hrt. simpl. rewrite Hc. f_equal. lia.
  - destruct (cleared_is_quiet v (clock s + kg_resume_delay v)
                "step-kg-result" s Hwf Hno) as (Hq & Hrt & Hc).
    set (s2 := switchToStage "step-kg-result" (clearTimer (pollingIntervalId s) s)) in *.
    destruct v; (split;
      [ apply quiet_setTimeout;
          [ reflexivity
          | intros off Hoff; injection Hoff as <-; simpl clock; rewrite Hc; lia
          | auto with quiet_db ]
      | rewrite !resume_times_setTimeout; rewrite Hrt; simpl; rewrite Hc; f_equal; lia ]).
  - destruct (cleared_is_quiet v (clock s + iso_resume_delay v)
                "step-iso-principle" s Hwf Hno) as (Hq & Hrt & Hc).
    set (s2 := switchToStage "step-iso-principle" (clearTimer (pollingIntervalId s) s)) in *.
    split.
    + apply quiet_setTimeout;
        [ reflexivity
        | intros off Hoff; injection Hoff as <-; simpl clock; rewrite Hc; lia
        | auto with quiet_db ].
    + rewrite !resume_times_setTimeout. rewrite Hrt. simpl. rewrite Hc. f_equal. lia.
Qed.

(** After the handler has run for VIDEO_READY the queue is quiet for
    good: nothing in it resumes polling. *)
Lemma handleState_video_quiet (v : version) (bound : Z) (s : State) :
  wf s -> no_resume_pending v s ->
  quiet v bound (handleState v "VIDEO_READY" s) /\
  resume_times v (timers (handleState v "VIDEO_READY" s)) = [].
Proof.
  intros Hwf Hno.
  change (handleState v "VIDEO_READY" s)
    with (setTimeout PreludeEnd 3500
            (setTimeout OverlayVisible 100
               (switchToStage "step-video-player"
                  (with_video (clearTimer (pollingIntervalId s) s)
                     (Fade.mkElement 0
                        (Fade.fadeInterval (video (clearTimer (pollingIntervalId s) s)))))))).
  set (e := Fade.mkElement 0 (Fade.fadeInterval (video (clearTimer (pollingIntervalId s) s)))).
  assert (Hq : quiet v bound (with_video (clearTimer (pollingIntervalId s) s) e)).
  { apply quiet_with_video. split.
    - apply polling_active_false. intros t Ht. apply (cleared_no_poll s t Hwf Ht).
    - intros t off Ht Hoff.
      rewrite (no_resume_clearTimer v _ s Hno t Ht) in Hoff. discriminate. }
  split; [auto 6 with quiet_db |].
  rewrite !resume_times_setTimeout. simpl. rewrite !List.app_nil_r.
  apply resume_times_none.
  apply (no_resume_switchToStage v "step-video-player"
           (with_video (clearTimer (pollingIntervalId s) s) e)).
  apply (no_resume_clearTimer v _ s Hno).
Qed.

(** ** The animation of a stage *)

Lemma earliest_min (l : list Timer) (t : Timer) :
  earliest l = Some t -> forall u, In u l -> due t <= due u.
Proof.
  revert t. induction l as [| w l IH]; simpl; intros t H u Hu; [contradiction |].
  destruct (earliest l) as [m |] eqn:E.
  - specialize (IH m eq_refl).
    destruct (Z.leb_spec (due w) (due m)); injection H as <-.
    + destruct Hu as [<- | Hu]; [lia |]. specialize (IH u Hu). lia.
    + destruct Hu as [<- | Hu]; [lia |]. apply IH. exact Hu.
  - injection H as <-. destruct Hu as [<- | Hu]; [lia |].
    destruct l; [contradiction | simpl in E].
    destruct (earliest l); [destruct (due t <=? due t0) |]; discriminate.
Qed.

Lemma on_time_clearTimer (h : option positive) (s : State) :
  on_time s -> on_time (clearTimer h s).
Proof.
  destruct h as [id |]; [| intros H; exact H].
  intros H t Ht. simpl in Ht. apply In_filter_handle in Ht. apply H. tauto.
Qed.

Lemma on_time_register (cb : callback) (when : Z) (period : option Z) (s : State) :
  clock s <= when -> (forall p, period = Some p -> 0 <= p) ->
  on_time s ->
  on_time (with_timers s (Pos.succ (next_id s))
                       (timers s ++ [mkTimer (next_id s) when period cb])).
Proof.
  intros Hw Hp H t Ht. simpl in Ht. apply List.in_app_iff in Ht.
  destruct Ht as [Ht | [<- | []]]; [apply H; exact Ht |]. simpl. split; assumption.
Qed.

Lemma on_time_setTimeout (cb : callback) (delay : Z) (s : State) :
  0 <= delay -> on_time s -> on_time (setTimeout cb delay s).
Proof.
  intros Hd. apply on_time_register; [lia | discriminate].
Qed.

Lemma on_time_setInterval (cb : callback) (period : Z) (s : State) :
  0 <= period -> on_time s -> on_time (setInterval cb period s).
Proof.
  intros Hd. apply on_time_register; [lia |]. intros p Hp. injection Hp as <-. exact Hd.
Qed.

Lemma on_time_switchToStage (next : string) (s : State) :
  on_time s -> on_time (switchToStage next s).
Proof.
  intros H. unfold switchToStage. destruct (card_exists s (currentStageId s)); [| exact H].
  apply on_time_setTimeout; [lia | exact H].
Qed.

Lemma on_time_startPolling (s : State) : on_time s -> on_time (startPolling s).
Proof.
  intros H. unfold startPolling.
  apply (on_time_setInterval PollTick poll_period); [unfold poll_period; lia |].
  apply on_time_clearTimer. exact H.
Qed.

Lemma on_time_fadeAudio (v : version) (target duration : float) (s : State) :
  on_time s -> on_time (fadeAudio v target duration s).
Proof.
  intros H. unfold fadeAudio.
  destruct (Fade.start_fade _ _ _ _ _) as [e [st |]]; [| exact H].
  apply (on_time_setInterval (FadeTick (Fade.fader st)) 50); [lia |].
  apply on_time_clearTimer. exact H.
Qed.

Lemma on_time_fade_tick (v : version) (self : positive) (f : Fade.Fader) (s : State) :
  on_time s -> on_time (fade_tick v self f s).
Proof.
  intros H. unfold fade_tick. destruct v.
  - destruct (Fade.tick f (video s)) as [e | e | [|]];
      try exact H; apply (on_time_clearTimer _ s H).
  - destruct (Fade.tick_v2 f (video s)) as [e | e | [|]];
      try exact H; apply (on_time_clearTimer _ s H).
Qed.

Lemma on_time_poll_tick (v : version) (s : State) : on_time s -> on_time (poll_tick v s).
Proof.
  intros H. unfold poll_tick. destruct v; [| exact H].
  destruct (negb (has_session s)); [apply on_time_clearTimer |]; exact H.
Qed.

Lemma on_time_exec (v : version) (self : positive) (cb : callback) (s : State) :
  on_time s -> on_time (exec v self cb s).
Proof.
  intros H. destruct cb, v; unfold exec; cbv zeta;
    repeat match goal with
           | |- context [if ?b then _ else _] => destruct b
           end;
    repeat first
      [ exact H
      | apply on_time_startPolling
      | apply on_time_switchToStage
      | apply on_time_fadeAudio
      | apply on_time_fade_tick
      | apply on_time_poll_tick
      | apply on_time_clearTimer
      | apply on_time_setTimeout; [unfold ac_resume_delay; lia |] ].
Qed.

Lemma on_time_fire_next (v : version) (s s' : State) :
  on_time s -> fire_next v s = Some s' ->
  on_time s' /\
  exists t, earliest (timers s) = Some t /\ clock s' = due t.
Proof.
  intros H. unfold fire_next.
  destruct (earliest (timers s)) as [t |] eqn:E; [| discriminate].
  intros Hs. injection Hs as <-.
  pose proof (earliest_In _ _ E) as Ht. pose proof (earliest_min _ _ E) as Hmin.
  destruct (H t Ht) as [Hclock Hperiod].
  assert (Hnow : Z.max (clock s) (due t) = due t) by lia.
  split; [| exists t; split; [reflexivity | rewrite clock_exec; simpl; exact Hnow]].
  apply on_time_exec. intros u Hu. simpl in Hu. simpl clock. rewrite Hnow.
  apply In_rearm in Hu. destruct Hu as [[Hu _] | (period & He & -> & _)].
  - split; [apply Hmin; exact Hu | apply (H u Hu)].
  - simpl. specialize (Hperiod period He). split; [lia |].
    intros p Hp. injection Hp as <-. exact Hperiod.
Qed.

Lemma settling_clearTimer (bound : Z) (h : option positive) (s : State) :
  settling bound s -> settling bound (clearTimer h s).
Proof.
  destruct h as [id |]; [| intros H; exact H].
  intros H t Ht. simpl in Ht. apply In_filter_handle in Ht. apply H. tauto.
Qed.

Lemma settling_register (bound : Z) (cb : callback) (when : Z) (period : option Z)
    (s : State) :
  (stage_animation cb = true ->
     when + horizon cb < bound /\
     period = match cb with TypingTick _ => Some 1200 | _ => None end) ->
  settling bound s ->
  settling bound (with_timers s (Pos.succ (next_id s))
                              (timers s ++ [mkTimer (next_id s) when period cb])).
Proof.
  intros Hcb H t Ht. simpl in Ht. apply List.in_app_iff in Ht.
  destruct Ht as [Ht | [<- | []]]; [apply H; exact Ht | exact Hcb].
Qed.

Lemma settling_plain_timeout (bound : Z) (cb : callback) (delay : Z) (s : State) :
  stage_animation cb = false -> settling bound s -> settling bound (setTimeout cb delay s).
Proof. intros Hcb. apply settling_register. congruence. Qed.

Lemma settling_plain_interval (bound : Z) (cb : callback) (period : Z) (s : State) :
  stage_animation cb = false -> settling bound s -> settling bound (setInterval cb period s).
Proof. intros Hcb. apply settling_register. congruence. Qed.

(** A timeout of the animation, registered early enough. *)
Lemma settling_stage_timeout (bound : Z) (cb : callback) (delay : Z) (s : State) :
  clock s + delay + horizon cb < bound ->
  match cb with TypingTick _ => False | _ => True end ->
  settling bound s -> settling bound (setTimeout cb delay s).
Proof.
  intros Hb Hcb. apply settling_register. intros _. split; [exact Hb |].
  destruct cb; try reflexivity. contradiction.
Qed.

Lemma settling_switchToStage (bound : Z) (next : string) (s : State) :
  settling bound s -> settling bound (switchToStage next s).
Proof.
  intros H. unfold switchToStage. destruct (card_exists s (currentStageId s)); [| exact H].
  apply settling_plain_timeout; [reflexivity | exact H].
Qed.

Lemma settling_startPolling (bound : Z) (s : State) :
  settling bound s -> settling bound (startPolling s).
Proof.
  intros H. unfold startPolling.
  apply (settling_plain_interval bound PollTick poll_period); [reflexivity |].
  apply settling_clearTimer. exact H.
Qed.

Lemma settling_fadeAudio (bound : Z) (v : version) (target duration : float) (s : State) :
  settling bound s -> settling bound (fadeAudio v target duration s).
Proof.
  intros H. unfold fadeAudio.
  destruct (Fade.start_fade _ _ _ _ _) as [e [st |]]; [| exact H].
  apply (settling_plain_interval bound (FadeTick (Fade.fader st)) 50); [reflexivity |].
  apply settling_clearTimer. exact H.
Qed.

Lemma settling_fade_tick (bound : Z) (v : version) (self : positive) (f : Fade.Fader)
    (s : State) :
  settling bound s -> settling bound (fade_tick v self f s).
Proof.
  intros H. unfold fade_tick. destruct v.
  - destruct (Fade.tick f (video s)) as [e | e | [|]];
      try exact H; apply (settling_clearTimer bound _ s H).
  - destruct (Fade.tick_v2 f (video s)) as [e | e | [|]];
      try exact H; apply (settling_clearTimer bound _ s H).
Qed.

Lemma settling_poll_tick (bound : Z) (v : version) (s : State) :
  settling bound s -> settling bound (poll_tick v s).
Proof.
  intros H. unfold poll_tick. destruct v; [| exact H].
  destruct (negb (has_session s)); [apply settling_clearTimer |]; exact H.
Qed.

(** Running a callback at its time keeps the animation within [bound]. *)
Lemma settling_exec (bound : Z) (v : version) (self : positive) (cb : callback)
    (s : State) :
  settling bound s ->
  (stage_animation cb = true -> clock s + horizon cb < bound) ->
  settling bound (exec v self cb s).
Proof.
  intros H Hb.
  destruct cb, v; unfold exec; cbv zeta;
    repeat match goal with
           | |- context [if ?b then _ else _] => destruct b
           end;
    try specialize (Hb eq_refl); simpl horizon in *;
    repeat first
      [ exact H
      | apply settling_startPolling
      | apply settling_switchToStage
      | apply settling_fadeAudio
      | apply settling_fade_tick
      | apply settling_poll_tick
      | apply settling_clearTimer
      | apply settling_plain_timeout; [reflexivity |]
      | apply settling_stage_timeout; [simpl; lia | exact I |] ].
Qed.

Lemma stage_animation_next_closure (cb : callback) :
  stage_animation (next_closure cb) = stage_animation cb.
Proof. destruct cb; reflexivity. Qed.

Lemma settling_fire_next (bound : Z) (v : version) (s s' : State) :
  settling bound s -> on_time s -> fire_next v s = Some s' -> settling bound s'.
Proof.
  intros H Hon. unfold fire_next.
  destruct (earliest (timers s)) as [t |] eqn:E; [| discriminate].
  intros Hs. injection Hs as <-.
  pose proof (earliest_In _ _ E) as Ht.
  destruct (Hon t Ht) as [Hclock _].
  assert (Hnow : Z.max (clock s) (due t) = due t) by lia. rewrite Hnow.
  assert (Hold : forall u, In u (rearm t (timers s)) -> handle u <> handle t ->
                   stage_animation (run u) = true ->
                   (due u + horizon (run u) < bound) /\
                   (every u = match run u with TypingTick _ => Some 1200 | _ => None end)).
  { intros u Hu Hne. apply In_rearm in Hu.
    destruct Hu as [[Hu _] | (period & _ & -> & _)]; [apply H; exact Hu |].
    simpl in Hne. contradiction. }
  assert (Hre : forall u, In u (rearm t (timers s)) -> handle u = handle t ->
                  stage_animation (run u) = true ->
                  exists stepIndex, run t = TypingTick stepIndex /\
                    u = mkTimer (handle t) (due t + 1200) (Some 1200)
                                (TypingTick (S stepIndex))).
  { intros u Hu Heq Hst. apply In_rearm in Hu.
    destruct Hu as [[_ Hne] | (period & He & -> & _)]; [contradiction |].
    simpl in Hst. rewrite stage_animation_next_closure in Hst.
    destruct (H t Ht Hst) as [_ Hev]. rewrite He in Hev.
    destruct (run t) as [| | stepIndex | | | | | | | | | | | | | | | |];
      try discriminate Hev.
    injection Hev as ->. exists stepIndex. split; reflexivity. }
  assert (Hself : stage_animation (run t) = true -> due t + horizon (run t) < bound).
  { intros Hst. apply (H t Ht Hst). }
  destruct (run t) as [| | stepIndex | | | | | | | | | | | | | | | |] eqn:Hrun;
    try (apply settling_exec;
         [ intros u Hu Hst; simpl in Hu;
           destruct (Pos.eq_dec (handle u) (handle t)) as [Heq | Hne];
           [ destruct (Hre u Hu Heq Hst) as (k & Hk & _); discriminate Hk
           | apply Hold; assumption ]
         | exact Hself ]).
  (* the typing interval *)
  specialize (Hself eq_refl). simpl in Hself.
  unfold exec. destruct (Nat.ltb_spec (S stepIndex) 3) as [Hlt | Hge].
  - intros u Hu Hst. simpl in Hu.
    destruct (Pos.eq_dec (handle u) (handle t)) as [Heq | Hne]; [| apply Hold; assumption].
    destruct (Hre u Hu Heq Hst) as (k & Hk & ->). injection Hk as <-.
    simpl. split; [lia | reflexivity].
  - intros u Hu Hst. simpl in Hu. apply In_filter_handle in Hu.
    destruct Hu as [Hu Hne]. apply Hold; assumption.
Qed.

Lemma on_time_run_timers (v : version) (n : nat) (s : State) :
  on_time s -> on_time (run_timers v n s).
Proof.
  revert s. induction n as [| n IH]; intros s H; [exact H |].
  simpl. destruct (fire_next v s) as [s' |] eqn:E; [| exact H].
  apply IH. apply (on_time_fire_next v s s' H E).
Qed.

Lemma settling_run_timers (bound : Z) (v : version) (n : nat) (s : State) :
  settling bound s -> on_time s -> settling bound (run_timers v n s).
Proof.
  revert s. induction n as [| n IH]; intros s H Hon; [exact H |].
  simpl. destruct (fire_next v s) as [s' |] eqn:E; [| exact H].
  apply IH; [apply (settling_fire_next bound v s s' H Hon E) |].
  apply (on_time_fire_next v s s' Hon E).
Qed.

Lemma on_time_handleState (v : version) (status : string) (s : State) :
  on_time s -> on_time (handleState v status s).
Proof.
  intros H. unfold handleState.
  repeat match goal with
         | |- context [String.eqb ?a ?b] => destruct (String.eqb a b)
         end;
    cbv zeta; destruct v;
    repeat first
      [ exact H
      | apply on_time_switchToStage
      | apply on_time_clearTimer
      | apply on_time_setTimeout;
          [unfold kg_resume_delay, iso_resume_delay; lia |]
      | apply on_time_setInterval; [lia |] ].
Qed.

Lemma settling_cleared (bound : Z) (next : string) (s : State) :
  no_animation_pending s ->
  settling bound (switchToStage next (clearTimer (pollingIntervalId s) s)).
Proof.
  intros Hno. apply settling_switchToStage, settling_clearTimer.
  intros t Ht Hst. rewrite (Hno t Ht) in Hst. discriminate.
Qed.

(** The animation the handler starts is over before its stage resumes
    polling. *)
Lemma handleState_settling (v : version) (status : string) (delay : Z) (s : State) :
  no_animation_pending s -> stage_delay v status = Some delay ->
  settling (clock s + delay) (handleState v status s).
Proof.
  intros Hno. unfold stage_delay, handleState.
  destruct (String.eqb status "AC_COMPLETE");
    [| destruct (String.eqb status "KG_COMPLETE");
       [| destruct (String.eqb status "ISO_PRINCIPLE_READY"); [| discriminate]]];
    intros Hd; injection Hd as <-; cbv zeta.
  - pose proof (settling_cleared (clock s + (3500 + ac_resume_delay v))
                  "step-emotion-analysis" s Hno) as Hs.
    pose proof (clock_switchToStage "step-emotion-analysis"
                  (clearTimer (pollingIntervalId s) s)) as Hc.
    rewrite clock_clearTimer in Hc.
    set (s2 := switchToStage "step-emotion-analysis" (clearTimer (pollingIntervalId s) s)) in *.
    apply settling_stage_timeout;
      [simpl; rewrite Hc; destruct v; simpl; lia | exact I |].
    apply settling_register; [| exact Hs].
    intros _. split; [| reflexivity]. rewrite Hc. destruct v; simpl; lia.
  - pose proof (settling_cleared (clock s + kg_resume_delay v)
                  "step-kg-result" s Hno) as Hs.
    pose proof (clock_switchToStage "step-kg-result"
                  (clearTimer (pollingIntervalId s) s)) as Hc.
    rewrite clock_clearTimer in Hc.
    set (s2 := switchToStage "step-kg-result" (clearTimer (pollingIntervalId s) s)) in *.
    destruct v;
      (apply settling_plain_timeout; [reflexivity |]);
      repeat (apply settling_stage_timeout; [simpl; rewrite Hc; lia | exact I |]);
      exact Hs.
  - pose proof (settling_cleared (clock s + iso_resume_delay v)
                  "step-iso-principle" s Hno) as Hs.
    pose proof (clock_switchToStage "step-iso-principle"
                  (clearTimer (pollingIntervalId s) s)) as Hc.
    rewrite clock_clearTimer in Hc.
    set (s2 := switchToStage "step-iso-principle" (clearTimer (pollingIntervalId s) s)) in *.
    apply settling_plain_timeout; [reflexivity |].
    repeat (apply settling_stage_timeout;
              [simpl; rewrite Hc; destruct v; simpl; lia | exact I |]).
    exact Hs.
Qed.

Lemma horizon_nonneg (cb : callback) : 0 <= horizon cb.
Proof. destruct cb; simpl; lia. Qed.

(** As long as nothing happens but timers running: take a well-formed state
    in which no timer is overdue and neither a resumption of polling nor a
    stage animation is pending.  The handler of a response with status
    AC_COMPLETE, KG_COMPLETE or ISO_PRINCIPLE_READY leaves no polling
    interval in the queue and schedules exactly one resumption of polling,
    [stage_delay] ms later; whatever timers run, no polling interval is in
    the queue before that time, and a timer of the stage's animation is in
    the queue only before that time.  After a response with status
    VIDEO_READY no polling interval is in the queue, no resumption is
    scheduled, and no run of the timers brings one back. *)
Theorem handleState_pauses_polling (v : version) (status : string) (s : State) (n : nat) :
  wf s -> on_time s -> no_resume_pending v s -> no_animation_pending s ->
  (forall delay, stage_delay v status = Some delay ->
     polling_active (handleState v status s) = false /\
     resume_times v (timers (handleState v status s)) = [clock s + delay] /\
     (clock (run_timers v n (handleState v status s)) < clock s + delay ->
      polling_active (run_timers v n (handleState v status s)) = false) /\
     (forall t, In t (timers (run_timers v n (handleState v status s))) ->
        stage_animation (run t) = true ->
        clock (run_timers v n (handleState v status s)) < clock s + delay /\
        polling_active (run_timers v n (handleState v status s)) = false)) /\
  (status = "VIDEO_READY" ->
     polling_active (handleState v status s) = false /\
     resume_times v (timers (handleState v status s)) = [] /\
     polling_active (run_timers v n (handleState v status s)) = false).
Proof.
  intros Hwf Hon Hno Hna. split.
  - intros delay Hd.
    destruct (handleState_quiet v status delay s Hwf Hno Hd) as [Hq Hrt].
    pose proof (handleState_settling v status delay s Hna Hd) as Hs.
    pose proof (on_time_handleState v status s Hon) as Hon'.
    set (s' := handleState v status s) in *.
    assert (Hwin : clock (run_timers v n s') < clock s + delay ->
                   polling_active (run_timers v n s') = false).
    { intros Hclock. exact (proj1 (quiet_run_timers v _ n _ Hq Hclock)). }
    split; [exact (proj1 Hq) |]. split; [exact Hrt |]. split; [exact Hwin |].
    intros t Ht Hst.
    destruct (settling_run_timers _ v n s' Hs Hon' t Ht Hst) as [Hb _].
    destruct (on_time_run_timers v n s' Hon' t Ht) as [Hc _].
    pose proof (horizon_nonneg (run t)).
    assert (Hclock : clock (run_timers v n s') < clock s + delay) by lia.
    split; [exact Hclock | exact (Hwin Hclock)].
  - intros ->.
    destruct (handleState_video_quiet v 0 s Hwf Hno) as [Hq Hrt].
    split; [exact (proj1 Hq) |]. split; [exact Hrt |].
    set (s' := handleState v "VIDEO_READY" s) in *.
    destruct (handleState_video_quiet v (clock (run_timers v n s') + 1) s Hwf Hno)
      as [Hq' _].
    fold s' in Hq'.
    apply (quiet_run_timers v _ n s' Hq'). lia.
Qed.

(** ** The polling interval *)

Lemma startPolling_timers (s : State) :
  timers (startPolling s)
  = (timers (clearTimer (pollingIntervalId s) s)
     ++ [mkTimer (next_id s) (clock s + poll_period) (Some poll_period) PollTick])%list /\
  pollingIntervalId (startPolling s) = Some (next_id s).
Proof.
  unfold startPolling. simpl. destruct (pollingIntervalId s); split; reflexivity.
Qed.

Lemma startPolling_polled (v : version) (s : State) :
  timers (clearTimer (pollingIntervalId s) s) = [] ->
  startPolling s = polled v s 0.
Proof.
  intros Hempty. unfold startPolling, polled, setInterval, with_polling, with_timers.
  rewrite Hempty. simpl.
  assert (Hn : next_id (clearTimer (pollingIntervalId s) s) = next_id s)
    by (destruct (pollingIntervalId s); reflexivity).
  assert (Hc : clock (clearTimer (pollingIntervalId s) s) = clock s)
    by apply clock_clearTimer.
  rewrite Hn, Hc.
  change (Z.of_nat 0) with 0. change (Z.of_nat 1) with 1.
  replace (clock s + poll_period * 0) with (clock s) by lia.
  replace (clock s + poll_period * 1) with (clock s + poll_period) by lia.
  rewrite !List.app_nil_r.
  destruct (pollingIntervalId s); reflexivity.
Qed.

Lemma polled_fire_next (v : version) (s : State) (k : nat) :
  (v = V13 -> has_session s = true) ->
  fire_next v (polled v s k) = Some (polled v s (S k)).
Proof.
  intros Hsession. unfold fire_next, polled.
  cbn [timers earliest handle run due clock every rearm map].
  rewrite Pos.eqb_refl.
  assert (Hmax : Z.max (clock s + poll_period * Z.of_nat k)
                       (clock s + poll_period * Z.of_nat (S k))
                 = clock s + poll_period * Z.of_nat (S k))
    by (unfold poll_period; lia).
  rewrite Hmax.
  assert (Hdue : clock s + poll_period * Z.of_nat (S k) + poll_period
                 = clock s + poll_period * Z.of_nat (S (S k)))
    by (unfold poll_period; lia).
  rewrite Hdue.
  assert (Hseq : forall (A : Type) (f : nat -> A),
             map f (seq 1 (S k)) = (map f (seq 1 k) ++ [f (S k)])%list).
  { intros A f. rewrite List.seq_S, List.map_app. reflexivity. }
  rewrite !Hseq, !List.app_assoc.
  unfold exec, poll_tick, with_run, with_fetch, has_session, status_url.
  cbn [timers earliest handle run due clock every rearm map sessionId next_id
       pollingIntervalId currentStageId cards video epilogueTriggered fetches log
       next_closure].
  destruct v; [| reflexivity].
  specialize (Hsession eq_refl). unfold has_session in Hsession. rewrite Hsession.
  reflexivity.
Qed.

Lemma polled_run_timers (v : version) (s : State) (n k : nat) :
  (v = V13 -> has_session s = true) ->
  run_timers v n (polled v s k) = polled v s (k + n).
Proof.
  intros Hsession. revert k. induction n as [| n IH]; intros k.
  - rewrite Nat.add_0_r. reflexivity.
  - cbn [run_timers]. rewrite (polled_fire_next v s k Hsession). rewrite IH.
    f_equal. lia.
Qed.

Lemma filter_none (f : Timer -> bool) (l : list Timer) :
  (forall u, In u l -> f u = false) -> List.filter f l = [].
Proof.
  induction l as [| t l IH]; intros H; [reflexivity |].
  simpl. rewrite (H t (or_introl eq_refl)). apply IH.
  intros u Hu. apply H. right. exact Hu.
Qed.

Lemma polling_intervals_startPolling (s : State) :
  wf s -> polling_intervals (startPolling s) = 1%nat.
Proof.
  intros Hwf. unfold polling_intervals.
  rewrite (proj1 (startPolling_timers s)), List.filter_app, List.length_app.
  rewrite filter_none; [reflexivity |].
  intros u Hu. apply (cleared_no_poll s u Hwf Hu).
Qed.

Lemma polling_intervals_polled (v : version) (s : State) (k : nat) :
  polling_intervals (polled v s k) = 1%nat.
Proof. reflexivity. Qed.

(** V13 without a session: the first run of the callback cancels the
    interval and sends nothing. *)
Lemma polled_without_session (s : State) :
  timers (clearTimer (pollingIntervalId s) s) = [] -> has_session s = false ->
  fetches (run_timers V13 1 (startPolling s)) = fetches s /\
  polling_intervals (run_timers V13 1 (startPolling s)) = 0%nat.
Proof.
  intros Hempty Hsession. rewrite (startPolling_polled V13 s Hempty).
  unfold run_timers, fire_next, polled.
  cbn [timers earliest handle run due clock every rearm map].
  rewrite Pos.eqb_refl.
  unfold exec, poll_tick, with_run, has_session.
  cbn [sessionId]. unfold has_session in Hsession. rewrite Hsession.
  cbn [negb]. unfold clearTimer, with_timers, polling_intervals.
  cbn [timers pollingIntervalId List.filter handle fetches seq map next_closure].
  rewrite Pos.eqb_refl. cbn [negb length List.filter].
  split; [apply List.app_nil_r | reflexivity].
Qed.

(** One run of the polling callback, whatever else is in the queue: the
    request goes out at the time of the run and the interval is due again
    2000 ms after its nominal time. *)
Lemma poll_run (v : version) (s : State) (t : Timer) :
  wf s -> earliest (timers s) = Some t -> run t = PollTick ->
  (v = V13 -> has_session s = true) ->
  exists s',
    fire_next v s = Some s' /\
    fetches s' = (fetches s ++ [(Z.max (clock s) (due t), status_url v s)])%list /\
    In (mkTimer (handle t) (due t + 2000) (Some 2000) PollTick) (timers s').
Proof.
  intros (_ & _ & Hpoll) E Hrun Hsession.
  pose proof (earliest_In _ _ E) as Ht.
  destruct (Hpoll t Ht) as [_ Hevery]; [rewrite Hrun; reflexivity |].
  unfold fire_next. rewrite E. cbv zeta. rewrite Hrun.
  eexists. split; [reflexivity |].
  assert (Hin : In (mkTimer (handle t) (due t + 2000) (Some 2000) PollTick)
                   (rearm t (timers s))).
  { unfold rearm. rewrite Hevery, Hrun. apply List.in_map_iff.
    exists t. split; [| exact Ht]. rewrite Pos.eqb_refl. reflexivity. }
  unfold exec, poll_tick. destruct v.
  - specialize (Hsession eq_refl).
    assert (Hs : has_session (with_run s (Z.max (clock s) (due t)) PollTick
                                       (rearm t (timers s))) = true) by exact Hsession.
    rewrite Hs. simpl. split; [reflexivity | exact Hin].
  - simpl. split; [reflexivity | exact Hin].
Qed.

(** C5: in every state the page can reach there is at most one polling
    interval; [startPolling] first clears the one registered before, so
    that the queue holds no polling callback, and then registers the
    polling callback as an interval of 2000 ms under a new handle, which it
    stores; each run of the polling callback sends one request to the
    [session_status] endpoint and leaves the interval due 2000 ms after its
    nominal time; left alone, the [i]-th run happens [2000 * i] ms after the
    call; V13 without a session cancels the interval at its first run
    instead of sending. *)
Theorem startPolling_single_interval (v : version) (s : State) (k : nat) :
  reachable v s ->
  (polling_intervals s <= 1)%nat /\
  (forall t, In t (timers (clearTimer (pollingIntervalId s) s)) -> is_poll (run t) = false) /\
  timers (startPolling s)
    = (timers (clearTimer (pollingIntervalId s) s)
       ++ [mkTimer (next_id s) (clock s + 2000) (Some 2000) PollTick])%list /\
  pollingIntervalId (startPolling s) = Some (next_id s) /\
  polling_intervals (startPolling s) = 1%nat /\
  (forall t, earliest (timers s) = Some t -> run t = PollTick ->
   (v = V13 -> has_session s = true) ->
     exists s',
       fire_next v s = Some s' /\
       fetches s' = (fetches s ++ [(Z.max (clock s) (due t), status_url v s)])%list /\
       In (mkTimer (handle t) (due t + 2000) (Some 2000) PollTick) (timers s')) /\
  (timers (clearTimer (pollingIntervalId s) s) = [] ->
   (v = V13 -> has_session s = true) ->
     fetches (run_timers v k (startPolling s))
       = (fetches s
          ++ map (fun i => (clock s + 2000 * Z.of_nat i, status_url v s)) (seq 1 k))%list /\
     polling_intervals (run_timers v k (startPolling s)) = 1%nat) /\
  (timers (clearTimer (pollingIntervalId s) s) = [] ->
   v = V13 -> has_session s = false ->
     fetches (run_timers v 1 (startPolling s)) = fetches s /\
     polling_intervals (run_timers v 1 (startPolling s)) = 0%nat).
Proof.
  intros Hr. pose proof (reachable_wf v s Hr) as Hwf.
  split; [apply wf_one_polling_interval; exact Hwf |].
  split; [intros t Ht; apply (cleared_no_poll s t Hwf Ht) |].
  split; [exact (proj1 (startPolling_timers s)) |].
  split; [exact (proj2 (startPolling_timers s)) |].
  split; [apply polling_intervals_startPolling; exact Hwf |].
  split; [intros t; apply poll_run; exact Hwf |].
  split.
  - intros Hempty Hsession.
    rewrite (startPolling_polled v s Hempty), (polled_run_timers v s k 0 Hsession).
    split; reflexivity.
  - intros Hempty -> Hsession. apply polled_without_session; assumption.
Qed.

Lemma startPolling_single_interval_witness :
  fetches (run_timers V13 3 (startPolling sample_session))
  = [(2000, "https://f0a54943db34.ngrok-free.app/api/session_status?id=abc");
     (4000, "https://f0a54943db34.ngrok-free.app/api/session_status?id=abc");
     (6000, "https://f0a54943db34.ngrok-free.app/api/session_status?id=abc")] /\
  polling_intervals (run_timers V13 3 (startPolling sample_session)) = 1%nat.
Proof.
  destruct (startPolling_single_interval V13 sample_session 3)
    as (_ & _ & _ & _ & _ & _ & Hrun & _).
  - exists 1%positive, all_cards, 1%float, [SessionCreated (Some "abc")]. reflexivity.
  - apply Hrun; [reflexivity | intros _; reflexivity].
Defined.

Lemma sample_polling_ready :
  wf sample_polling /\ on_time sample_polling /\
  no_resume_pending V13 sample_polling /\ no_animation_pending sample_polling.
Proof.
  split; [| split; [| split]].
  - apply reachable_wf with (v := V13).
    exists 1%positive, all_cards, 1%float, [SessionCreated (Some "abc"); Fire]. reflexivity.
  - intros t Ht. vm_compute in Ht. destruct Ht as [<- | []].
    split; [vm_compute; discriminate |].
    intros p Hp. injection Hp as <-. vm_compute. discriminate.
  - intros t Ht. vm_compute in Ht. destruct Ht as [<- | []]. reflexivity.
  - intros t Ht. vm_compute in Ht. destruct Ht as [<- | []]. reflexivity.
Defined.

Lemma handleState_pauses_polling_witness :
  resume_times V13 (timers (handleState V13 "AC_COMPLETE" sample_polling)) = [9500] /\
  clock (run_timers V13 7 (handleState V13 "AC_COMPLETE" sample_polling)) = 9000 /\
  polling_active (run_timers V13 7 (handleState V13 "AC_COMPLETE" sample_polling)) = false.
Proof.
  destruct sample_polling_ready as (Hwf & Hon & Hnr & Hna).
  destruct (handleState_pauses_polling V13 "AC_COMPLETE" sample_polling 7 Hwf Hon Hnr Hna)
    as [Hstage _].
  destruct (Hstage 7500 eq_refl) as (_ & Hrt & Hwin & _).
  split; [exact Hrt |]. split; [reflexivity |].
  apply Hwin. vm_compute. reflexivity.
Defined.

(** ** Timelines *)

(** C4: two runs on which the page polls while timers of a stage's animation
    are pending, although every stage handler cleared the interval and
    scheduled the resumption for after its animation.

    Answers overlap (V13): the second answer is handled at 5200 ms, so its
    stage resumes polling at 12700 ms; the resumption scheduled by the first
    answer runs at 11500 ms, and polling is on while the reveal of the
    second animation (due at 12200 ms) is still in the queue.

    Restart during a stage (both versions): the restart button cancels the
    polling interval only, the new session starts polling at once, and the
    requests of the new session go out while the acts of the KG animation
    of the old session are still to come. *)
Theorem polling_on_during_animation :
  (fetches overlapping
   = [(2000, "https://f0a54943db34.ngrok-free.app/api/session_status?id=abc");
      (4000, "https://f0a54943db34.ngrok-free.app/api/session_status?id=abc")] /\
   stage_delay V13 "AC_COMPLETE" = Some 7500 /\
   clock overlapping + 7500 = 12700 /\
   clock (run_timers V13 11 (handleState V13 "AC_COMPLETE" overlapping)) = 11500 /\
   polling_active (run_timers V13 11 (handleState V13 "AC_COMPLETE" overlapping)) = true /\
   In (mkTimer 12 12200 None AcReveal)
      (timers (run_timers V13 11 (handleState V13 "AC_COMPLETE" overlapping)))) /\
  (polling_active (restart_during_stage V13) = true /\
   In (mkTimer 3 6000 None (KgStage 1)) (timers (restart_during_stage V13)) /\
   In (mkTimer 4 10000 None (KgStage 2)) (timers (restart_during_stage V13)) /\
   fetches (react_all V13 [Fire; Fire; Fire] (restart_during_stage V13))
   = [(2000, "https://f0a54943db34.ngrok-free.app/api/session_status?id=abc");
      (4000, "https://f0a54943db34.ngrok-free.app/api/session_status?id=def")] /\
   In (mkTimer 4 10000 None (KgStage 2))
      (timers (react_all V13 [Fire; Fire; Fire] (restart_during_stage V13)))) /\
  (polling_active (restart_during_stage V2) = true /\
   In (mkTimer 4 6000 None (KgStage 2)) (timers (restart_during_stage V2)) /\
   In (mkTimer 5 12000 None (KgStage 3)) (timers (restart_during_stage V2)) /\
   fetches (react_all V2 [Fire; Fire; Fire; Fire] (restart_during_stage V2))
   = [(2000, "http://127.0.0.1:5001/api/session_status?id=abc");
      (4000, "http://127.0.0.1:5001/api/session_status?id=def")] /\
   In (mkTimer 4 6000 None (KgStage 2))
      (timers (react_all V2 [Fire; Fire; Fire; Fire] (restart_during_stage V2)))).
Proof.
  split; [| split].
  - split; [vm_compute; reflexivity |].
    split; [vm_compute; reflexivity |].
    split; [vm_compute; reflexivity |].
    split; [vm_compute; reflexivity |].
    split; [vm_compute; reflexivity |].
    vm_compute. left. reflexivity.
  - split; [vm_compute; reflexivity |].
    split; [vm_compute; tauto |].
    split; [vm_compute; tauto |].
    split; [vm_compute; reflexivity |].
    vm_compute. tauto.
  - split; [vm_compute; reflexivity |].
    split; [vm_compute; tauto |].
    split; [vm_compute; tauto |].
    split; [vm_compute; reflexivity |].
    vm_compute. tauto.
Qed.

Example ac_timeline_v13 :
  log (run_timers V13 9 (handleState V13 "AC_COMPLETE" sample_polling))
  = [(2000, PollTick);
     (2600, SwitchHide "step-input" "step-emotion-analysis");
     (2650, SwitchShow "step-emotion-analysis");
     (3200, TypingTick 0); (4400, TypingTick 1);
     (5500, AcRadar); (5600, TypingTick 2);
     (9000, AcReveal);
     (9500, StartPolling); (11500, PollTick)].
Proof. vm_compute. reflexivity. Qed.

Example kg_timeline_v2 :
  log (run_timers V2 7 (handleState V2 "KG_COMPLETE" sample_polling))
  = [(2000, PollTick);
     (2500, KgStage 1);
     (2600, SwitchHide "step-input" "step-kg-result");
     (2650, SwitchShow "step-kg-result");
     (6000, KgStage 2); (12000, KgStage 3);
     (15500, StartPolling); (17500, PollTick)].
Proof. vm_compute. reflexivity. Qed.

Example iso_timeline_v13 :
  log (run_timers V13 13 (handleState V13 "ISO_PRINCIPLE_READY" sample_polling))
  = [(2000, PollTick);
     (2500, IsoMatch);
     (2600, SwitchHide "step-input" "step-iso-principle");
     (2650, SwitchShow "step-iso-principle");
     (6500, IsoEntrain); (7100, IsoEntrainText);
     (10500, IsoArrive); (11100, IsoArriveText); (12500, IsoExit);
     (13000, IsoFinish);
     (13600, SwitchHide "step-iso-principle" "step-synthesis");
     (13650, SwitchShow "step-synthesis");
     (15000, PollTick); (17000, PollTick)].
Proof. vm_compute. reflexivity. Qed.

Example video_ready_v2_stays_silent :
  polling_active (run_timers V2 200 (handleState V2 "VIDEO_READY" sample_polling)) = false /\
  timers (run_timers V2 200 (handleState V2 "VIDEO_READY" sample_polling)) = [] /\
  Fade.volume (video (run_timers V2 200 (handleState V2 "VIDEO_READY" sample_polling))) = 1%float.
Proof.
  split; [vm_compute; reflexivity |]. split; vm_compute; reflexivity.
Qed.

(** ** What the callbacks leave alone *)

Lemma same_session_refl (s : State) : same_session s s.
Proof. repeat split. Qed.

Lemma same_session_trans (s1 s2 s3 : State) :
  same_session s1 s2 -> same_session s2 s3 -> same_session s1 s3.
Proof. unfold same_session. intros (? & ? & ?) (? & ? & ?). repeat split; congruence. Qed.

Lemma same_session_clearTimer (h : option positive) (s : State) :
  same_session s (clearTimer h s).
Proof. destruct h; repeat split. Qed.

Lemma same_session_setTimeout (cb : callback) (delay : Z) (s : State) :
  same_session s (setTimeout cb delay s).
Proof. repeat split. Qed.

Lemma same_session_setInterval (cb : callback) (period : Z) (s : State) :
  same_session s (setInterval cb period s).
Proof. repeat split. Qed.

Lemma same_session_startPolling (s : State) : same_session s (startPolling s).
Proof.
  unfold startPolling. cbv zeta.
  destruct (same_session_clearTimer (pollingIntervalId s) s) as (H1 & H2 & H3).
  repeat split; simpl; assumption.
Qed.

Lemma same_session_switchToStage (next : string) (s : State) :
  same_session s (switchToStage next s).
Proof. unfold switchToStage. destruct (card_exists s (currentStageId s)); repeat split. Qed.

Lemma same_session_fadeAudio (v : version) (target duration : float) (s : State) :
  same_session s (fadeAudio v target duration s).
Proof.
  unfold fadeAudio. destruct (Fade.start_fade _ _ _ _ _) as [e [st |]]; [| repeat split].
  destruct (same_session_clearTimer (Fade.cancelled st) s) as (H1 & H2 & H3).
  repeat split; simpl; assumption.
Qed.

Lemma same_session_fade_tick (v : version) (self : positive) (f : Fade.Fader) (s : State) :
  same_session s (fade_tick v self f s).
Proof.
  unfold fade_tick. destruct v.
  - destruct (Fade.tick f (video s)) as [e | e | [|]]; try (repeat split; fail);
      destruct (same_session_clearTimer (Fade.fadeInterval (video s)) s) as (H1 & H2 & H3);
      repeat split; simpl; assumption.
  - destruct (Fade.tick_v2 f (video s)) as [e | e | [|]]; repeat split.
Qed.

Lemma same_session_with_stage (s : State) (stage : string) :
  same_session s (with_stage s stage).
Proof. repeat split. Qed.

Lemma same_session_with_video (s : State) (e : Fade.Element) :
  same_session s (with_video s e).
Proof. repeat split. Qed.

Lemma same_session_with_polling (s : State) (h : option positive) :
  same_session s (with_polling s h).
Proof. repeat split. Qed.

Ltac chain_same :=
  repeat first
    [ apply same_session_refl
    | match goal with
      | |- same_session ?s (setTimeout ?cb ?d ?s') =>
          apply (same_session_trans s s'); [| apply same_session_setTimeout]
      | |- same_session ?s (setInterval ?cb ?d ?s') =>
          apply (same_session_trans s s'); [| apply same_session_setInterval]
      | |- same_session ?s (clearTimer ?h ?s') =>
          apply (same_session_trans s s'); [| apply same_session_clearTimer]
      | |- same_session ?s (startPolling ?s') =>
          apply (same_session_trans s s'); [| apply same_session_startPolling]
      | |- same_session ?s (switchToStage ?n ?s') =>
          apply (same_session_trans s s'); [| apply same_session_switchToStage]
      | |- same_session ?s (fadeAudio ?v ?t ?d ?s') =>
          apply (same_session_trans s s'); [| apply same_session_fadeAudio]
      | |- same_session ?s (fade_tick ?v ?i ?f ?s') =>
          apply (same_session_trans s s'); [| apply same_session_fade_tick]
      | |- same_session ?s (with_stage ?s' ?x) =>
          apply (same_session_trans s s'); [| apply same_session_with_stage]
      | |- same_session ?s (with_video ?s' ?x) =>
          apply (same_session_trans s s'); [| apply same_session_with_video]
      | |- same_session ?s (with_polling ?s' ?x) =>
          apply (same_session_trans s s'); [| apply same_session_with_polling]
      end ].

Lemma same_session_handleState (v : version) (status : string) (s : State) :
  same_session s (handleState v status s).
Proof.
  unfold handleState. cbv zeta.
  repeat match goal with
         | |- context [if ?b then _ else _] => destruct b
         | |- context [match v with V13 => _ | V2 => _ end] => destruct v
         end; chain_same.
Qed.

(** A callback of V13 other than the polling callback. *)
Lemma same_session_exec_V13 (self : positive) (cb : callback) (s : State) :
  is_poll cb = false -> same_session s (exec V13 self cb s).
Proof.
  intros Hcb. destruct cb; try discriminate Hcb; unfold exec; cbv zeta;
    repeat match goal with
           | |- context [if ?b then _ else _] => destruct b
           end; chain_same.
Qed.

Lemma poll_tick_V13 (s : State) :
  sessionId (poll_tick V13 s) = sessionId s /\
  epilogueTriggered (poll_tick V13 s) = epilogueTriggered s /\
  (has_session s = false -> fetches (poll_tick V13 s) = fetches s).
Proof.
  unfold poll_tick. destruct (has_session s); cbn [negb].
  - repeat split. discriminate.
  - destruct (same_session_clearTimer (pollingIntervalId s) s) as (H1 & H2 & H3).
    split; [exact H1 |]. split; [exact H3 |]. intros _. exact H2.
Qed.

Lemma fire_next_V13 (s s' : State) :
  fire_next V13 s = Some s' ->
  sessionId s' = sessionId s /\
  epilogueTriggered s' = epilogueTriggered s /\
  (has_session s = false -> fetches s' = fetches s).
Proof.
  unfold fire_next. destruct (earliest (timers s)) as [t |]; [| discriminate].
  intros H. injection H as <-.
  set (s1 := with_run s (Z.max (clock s) (due t)) (run t) (rearm t (timers s))).
  assert (H1 : sessionId s1 = sessionId s /\ epilogueTriggered s1 = epilogueTriggered s /\
               fetches s1 = fetches s /\ has_session s1 = has_session s)
    by (repeat split).
  destruct H1 as (Hs & He & Hf & Hh).
  destruct (is_poll (run t)) eqn:Hp.
  - destruct (run t); try discriminate Hp. unfold exec.
    destruct (poll_tick_V13 s1) as (P1 & P2 & P3).
    rewrite P1, P2, Hs, He. split; [reflexivity |]. split; [reflexivity |].
    intros Hno. rewrite P3; [exact Hf | rewrite Hh; exact Hno].
  - destruct (same_session_exec_V13 (handle t) (run t) s1 Hp) as (E1 & E2 & E3).
    rewrite E1, E2, E3, Hs, He, Hf. repeat split.
Qed.

Lemma has_session_eq (s s' : State) :
  sessionId s' = sessionId s -> has_session s' = has_session s.
Proof. unfold has_session. intros ->. reflexivity. Qed.

Lemma react_V13_without_session (ev : event) (s : State) :
  has_session s = false ->
  (forall sid, ev = SessionCreated sid -> falsy_id sid = true) ->
  has_session (react V13 ev s) = false /\ fetches (react V13 ev s) = fetches s.
Proof.
  intros Hno Hev.
  assert (Hsame : forall s', same_session s s' ->
            has_session s' = false /\ fetches s' = fetches s).
  { intros s' (H1 & H2 & _). rewrite (has_session_eq _ _ H1). split; assumption. }
  destruct ev; simpl.
  - destruct (fire_next V13 s) as [s' |] eqn:E; [| split; [exact Hno | reflexivity]].
    destruct (fire_next_V13 s s' E) as (H1 & _ & H3).
    rewrite (has_session_eq _ _ H1). split; [exact Hno | exact (H3 Hno)].
  - apply Hsame. destruct (String.eqb status "ERROR");
      [apply same_session_clearTimer | apply same_session_handleState].
  - apply Hsame. apply same_session_clearTimer.
  - apply Hsame. unfold resetUI.
    destruct (String.eqb (currentStageId s) "step-input"); chain_same.
  - specialize (Hev sid eq_refl).
    assert (Hs1 : has_session (with_session s sid) = false).
    { unfold has_session. simpl. destruct sid as [id |]; [| reflexivity].
      simpl in Hev. rewrite Hev. reflexivity. }
    rewrite Hs1. split; [exact Hs1 | reflexivity].
  - split; [reflexivity |].
    unfold resetUI. destruct (pollingIntervalId s) as [h |]; reflexivity.
  - unfold startHealingEpilogue.
    destruct (epilogueTriggered s); [split; [exact Hno | reflexivity] |].
    cbv zeta.
    destruct (same_session_fadeAudio V13 0 (fade_out_duration V13) (with_epilogue s true))
      as (H1 & H2 & _).
    split; [| exact H2].
    rewrite <- Hno. apply has_session_eq. exact H1.
  - unfold startHealingEpilogue.
    destruct (epilogueTriggered s); [split; [exact Hno | reflexivity] |].
    cbv zeta.
    destruct (same_session_fadeAudio V13 0 (fade_out_duration V13) (with_epilogue s true))
      as (H1 & H2 & _).
    split; [| exact H2].
    rewrite <- Hno. apply has_session_eq. exact H1.
  - split; [exact Hno | reflexivity].
Qed.

(** X19: In V13 no status request goes out while the page holds no session
    identifier: whatever timers run and whatever else happens, short of a
    session being created, the list of requests sent stays as it is; a
    polling interval that a leftover timer starts is cancelled by its
    first run. *)
Theorem no_request_without_session (evs : list event) (s : State) :
  has_session s = false -> creates_no_session evs ->
  has_session (react_all V13 evs s) = false /\
  fetches (react_all V13 evs s) = fetches s.
Proof.
  unfold react_all. revert s.
  induction evs as [| ev evs IH]; intros s Hno Hevs; [split; [exact Hno | reflexivity] |].
  cbn [fold_left].
  destruct (react_V13_without_session ev s Hno) as [H1 H2].
  { intros sid ->. apply Hevs. left. reflexivity. }
  destruct (IH (react V13 ev s) H1) as [H3 H4].
  { intros sid Hin. apply Hevs. right. exact Hin. }
  split; [exact H3 | congruence].
Qed.
Lemma no_request_without_session_witness :
  fetches (react_all V13 (repeat Fire 12) restarted)
  = [(2000, "https://f0a54943db34.ngrok-free.app/api/session_status?id=abc")].
Proof.
  destruct (no_request_without_session (repeat Fire 12) restarted) as [_ H].
  - reflexivity.
  - intros sid Hin. apply List.repeat_spec in Hin. discriminate Hin.
  - rewrite H. vm_compute. reflexivity.
Defined.

(** ** The epilogue *)

Lemma startHealingEpilogue_flag (v : version) (s : State) :
  epilogueTriggered (startHealingEpilogue v s) = true.
Proof.
  unfold startHealingEpilogue. destruct (epilogueTriggered s) eqn:E; [exact E |].
  cbv zeta.
  destruct (same_session_fadeAudio v 0 (fade_out_duration v) (with_epilogue s true))
    as (_ & _ & H).
  exact H.
Qed.

Lemma react_V13_keeps_epilogue (ev : event) (s : State) :
  epilogueTriggered s = true -> ev <> VideoLoadStart ->
  epilogueTriggered (react V13 ev s) = true.
Proof.
  intros Hflag Hev.
  assert (Hsame : forall s', same_session s s' -> epilogueTriggered s' = true)
    by (intros s' (_ & _ & H); congruence).
  destruct ev; simpl.
  - destruct (fire_next V13 s) as [s' |] eqn:E; [| exact Hflag].
    destruct (fire_next_V13 s s' E) as (_ & H & _). congruence.
  - apply Hsame. destruct (String.eqb status "ERROR");
      [apply same_session_clearTimer | apply same_session_handleState].
  - apply Hsame. apply same_session_clearTimer.
  - apply Hsame. unfold resetUI.
    destruct (String.eqb (currentStageId s) "step-input"); chain_same.
  - destruct (has_session (with_session s sid)); [| exact Hflag].
    destruct (same_session_startPolling (with_session s sid)) as (_ & _ & H).
    rewrite H. exact Hflag.
  - unfold resetUI. destruct (pollingIntervalId s) as [h |]; exact Hflag.
  - apply startHealingEpilogue_flag.
  - apply startHealingEpilogue_flag.
  - contradiction.
Qed.

Lemma epilogue_flag_stays (evs : list event) (s : State) :
  epilogueTriggered s = true -> ~ In VideoLoadStart evs ->
  epilogueTriggered (react_all V13 evs s) = true.
Proof.
  unfold react_all. revert s.
  induction evs as [| ev evs IH]; intros s Hflag Hevs; [exact Hflag |].
  cbn [fold_left]. apply IH.
  - apply react_V13_keeps_epilogue; [exact Hflag |].
    intros ->. apply Hevs. left. reflexivity.
  - intros Hin. apply Hevs. right. exact Hin.
Qed.

(** X20: In V13 the epilogue starts at most once for a loaded video: after the
    first [timeupdate] near the end, whatever timers run and whatever else
    happens short of a [loadstart], a further [timeupdate] near the end and
    the [ended] event leave the page as it is. *)
Theorem epilogue_starts_once_per_video (evs : list event) (s : State) :
  ~ In VideoLoadStart evs ->
  epilogueTriggered (react_all V13 evs (react V13 VideoNearEnd s)) = true /\
  react V13 VideoNearEnd (react_all V13 evs (react V13 VideoNearEnd s))
  = react_all V13 evs (react V13 VideoNearEnd s) /\
  react V13 VideoEnded (react_all V13 evs (react V13 VideoNearEnd s))
  = react_all V13 evs (react V13 VideoNearEnd s).
Proof.
  intros Hevs.
  assert (Hflag : epilogueTriggered (react_all V13 evs (react V13 VideoNearEnd s)) = true).
  { apply epilogue_flag_stays; [| exact Hevs]. apply startHealingEpilogue_flag. }
  split; [exact Hflag |].
  set (s1 := react_all V13 evs (react V13 VideoNearEnd s)) in *. clearbody s1.
  cbn [react]. unfold startHealingEpilogue. rewrite Hflag. split; reflexivity.
Qed.

Lemma epilogue_starts_once_per_video_witness :
  react V13 VideoEnded (react_all V13 [Fire] (react V13 VideoNearEnd (initial 1 all_cards 1)))
  = react_all V13 [Fire] (react V13 VideoNearEnd (initial 1 all_cards 1)).
Proof.
  apply (epilogue_starts_once_per_video [Fire] (initial 1 all_cards 1)).
  intros [H | []]. discriminate H.
Defined.

(** ** Restart, errors and statuses without a handler *)

(** X21: The restart button stops polling and forgets the session, and shows
    the input card; it cancels no timer but the one registered under
    [pollingIntervalId], so the timers of a running stage, the one that
    resumes polling included, stay in the queue. *)
Theorem restart_cancels_polling_only (v : version) (s : State) :
  wf s ->
  sessionId (react v RestartClick s) = None /\
  pollingIntervalId (react v RestartClick s) = None /\
  polling_active (react v RestartClick s) = false /\
  currentStageId (react v RestartClick s) = "step-input" /\
  (forall t, In t (timers s) -> Some (handle t) <> pollingIntervalId s ->
     In t (timers (react v RestartClick s))) /\
  (forall t, In t (timers (react v RestartClick s)) -> In t (timers s)).
Proof.
  intros Hwf.
  assert (Hreact : react v RestartClick s
                   = with_session
                       match pollingIntervalId s with
                       | Some h =>
                           with_polling (clearTimer (Some h) (with_stage s "step-input")) None
                       | None => with_stage s "step-input"
                       end None) by reflexivity.
  assert (Htimers : timers (react v RestartClick s)
                    = timers (clearTimer (pollingIntervalId s) s)).
  { rewrite Hreact. destruct (pollingIntervalId s) as [h |]; reflexivity. }
  split; [reflexivity |].
  split; [rewrite Hreact; destruct (pollingIntervalId s) eqn:E; [reflexivity | exact E] |].
  split.
  { apply polling_active_false. rewrite Htimers. intros t Ht.
    apply (cleared_no_poll s t Hwf Ht). }
  split; [rewrite Hreact; destruct (pollingIntervalId s); reflexivity |].
  rewrite Htimers. split.
  - intros t Ht Hh. destruct (pollingIntervalId s) as [h |]; [| exact Ht].
    apply In_filter_handle. split; [exact Ht | congruence].
  - intros t Ht. destruct (pollingIntervalId s) as [h |]; [| exact Ht].
    apply In_filter_handle in Ht. tauto.
Qed.

Lemma restart_cancels_polling_only_witness :
  polling_active restarted = false /\
  In (mkTimer 4 5500 None AcRadar) (timers restarted).
Proof.
  pose proof (restart_cancels_polling_only V13
                (react_all V13 [SessionCreated (Some "abc"); Fire; Response "AC_COMPLETE"]
                           (initial 1 all_cards 1))) as H.
  destruct H as (_ & _ & Hoff & _ & Hkeep & _).
  - apply reachable_wf with (v := V13).
    exists 1%positive, all_cards, 1%float,
           [SessionCreated (Some "abc"); Fire; Response "AC_COMPLETE"].
    reflexivity.
  - split; [exact Hoff |]. apply Hkeep; [vm_compute; tauto | vm_compute; discriminate].
Defined.

(** X22: A status that is none of the four stages is ignored: the page stays as
    it is and, if it was polling, polls on; this holds for [PENDING] and, in
    V2, for [ERROR] and for a request that fails.  In V13 an [ERROR] status
    and a failed request stop the polling. *)
Theorem status_without_stage_is_ignored (v : version) (status : string) (s : State) :
  status <> "AC_COMPLETE" -> status <> "KG_COMPLETE" ->
  status <> "ISO_PRINCIPLE_READY" -> status <> "VIDEO_READY" ->
  handleState v status s = s /\
  (status <> "ERROR" -> react v (Response status) s = s) /\
  react V2 (Response status) s = s /\
  react V2 ResponseError s = s /\
  (wf s ->
     polling_active (react V13 (Response "ERROR") s) = false /\
     polling_active (react V13 ResponseError s) = false).
Proof.
  intros H1 H2 H3 H4.
  assert (Hh : forall v', handleState v' status s = s).
  { intros v'. unfold handleState.
    destruct (String.eqb_spec status "AC_COMPLETE"); [contradiction |].
    destruct (String.eqb_spec status "KG_COMPLETE"); [contradiction |].
    destruct (String.eqb_spec status "ISO_PRINCIPLE_READY"); [contradiction |].
    destruct (String.eqb_spec status "VIDEO_READY"); [contradiction | reflexivity]. }
  split; [apply Hh |].
  split.
  { intros He. cbn [react]. destruct v; [| apply Hh].
    destruct (String.eqb_spec status "ERROR"); [contradiction | apply Hh]. }
  split; [apply Hh |]. split; [reflexivity |].
  intros Hwf. cbn [react String.eqb Ascii.eqb Bool.eqb]. unfold poll_failed.
  split; apply polling_active_false; intros t Ht; apply (cleared_no_poll s t Hwf Ht).
Qed.

Lemma status_without_stage_is_ignored_witness :
  react V13 (Response "PENDING") sample_polling = sample_polling /\
  polling_active (react V13 (Response "ERROR") sample_polling) = false.
Proof.
  destruct (status_without_stage_is_ignored V13 "PENDING" sample_polling)
    as (_ & Hsame & _ & _ & Hstop); try discriminate.
  split; [apply Hsame; discriminate |].
  apply Hstop. apply reachable_wf with (v := V13).
  exists 1%positive, all_cards, 1%float, [SessionCreated (Some "abc"); Fire]. reflexivity.
Defined.

(** ** The stage switch *)

Lemma run_timers_idle (v : version) (n : nat) (s : State) :
  fire_next v s = None -> run_timers v n s = s.
Proof. intros H. destruct n; [reflexivity |]. cbn [run_timers]. rewrite H. reflexivity. Qed.

Lemma run_timers_plus (v : version) (a b : nat) (s : State) :
  run_timers v (a + b) s = run_timers v b (run_timers v a s).
Proof.
  revert s. induction a as [| a IH]; intros s; [reflexivity |].
  cbn [Nat.add run_timers].
  destruct (fire_next v s) as [s' |] eqn:E; [apply IH |].
  symmetry. apply run_timers_idle. exact E.
Qed.

(** X23: On a page with nothing else in the timer queue, [switchToStage] makes
    the next card the current stage 650 ms later, provided that the current
    stage and the next one both name a card; when the next one names no
    card the stage stays for good, and when the current stage names no card
    [switchToStage] does nothing at all. *)
Theorem switchToStage_takes_650_ms (v : version) (next : string) (s : State) (n : nat) :
  timers s = [] ->
  (card_exists s (currentStageId s) = true -> card_exists s next = true ->
     currentStageId (run_timers v 1 (switchToStage next s)) = currentStageId s /\
     clock (run_timers v 1 (switchToStage next s)) = clock s + 600 /\
     currentStageId (run_timers v (2 + n) (switchToStage next s)) = next /\
     clock (run_timers v (2 + n) (switchToStage next s)) = clock s + 650 /\
     timers (run_timers v (2 + n) (switchToStage next s)) = []) /\
  (card_exists s (currentStageId s) = true -> card_exists s next = false ->
     currentStageId (run_timers v (1 + n) (switchToStage next s)) = currentStageId s /\
     timers (run_timers v (1 + n) (switchToStage next s)) = []) /\
  (card_exists s (currentStageId s) = false -> switchToStage next s = s).
Proof.
  intros Hempty.
  assert (Hidle : forall s0, timers s0 = [] -> run_timers v n s0 = s0).
  { intros s0 H0. destruct n; [reflexivity |]. cbn [run_timers]. unfold fire_next.
    rewrite H0. reflexivity. }
  split; [| split].
  - intros Hcur Hnext. unfold switchToStage. rewrite Hcur.
    assert (H1 : run_timers v 1 (setTimeout (SwitchHide (currentStageId s) next) 600 s)
                 = mkState (clock s + 600) (Pos.succ (Pos.succ (next_id s)))
                     [mkTimer (Pos.succ (next_id s)) (clock s + 600 + 50) None
                              (SwitchShow next)]
                     (sessionId s) (pollingIntervalId s) (currentStageId s) (cards s)
                     (video s) (epilogueTriggered s) (fetches s)
                     (log s ++ [(clock s + 600, SwitchHide (currentStageId s) next)])).
    { cbn [run_timers]. unfold fire_next, setTimeout, with_timers. rewrite Hempty.
      cbn [timers app earliest due every rearm List.filter handle run negb clock].
      rewrite Pos.eqb_refl. cbn [negb].
      replace (Z.max (clock s) (clock s + 600)) with (clock s + 600) by lia.
      unfold exec, with_run, card_exists. cbn [cards]. fold (card_exists s next).
      rewrite Hnext. reflexivity. }
    split; [rewrite H1; reflexivity |]. split; [rewrite H1; reflexivity |].
    change (2 + n)%nat with (1 + S n)%nat.
    rewrite run_timers_plus, H1. cbn [run_timers]. unfold fire_next.
    cbn [timers earliest due every rearm List.filter handle run negb clock].
    rewrite Pos.eqb_refl. cbn [negb].
    replace (Z.max (clock s + 600) (clock s + 600 + 50)) with (clock s + 650) by lia.
    unfold exec, with_run, with_stage.
    cbn [clock next_id timers sessionId pollingIntervalId currentStageId cards video
         epilogueTriggered fetches log].
    rewrite Hidle by reflexivity. repeat split.
  - intros Hcur Hnext. unfold switchToStage. rewrite Hcur.
    change (1 + n)%nat with (S n). cbn [run_timers]. unfold fire_next, setTimeout, with_timers.
    rewrite Hempty.
    cbn [timers app earliest due every rearm List.filter handle run negb clock].
    rewrite Pos.eqb_refl. cbn [negb].
    unfold exec, with_run, card_exists. cbn [cards]. fold (card_exists s next).
    rewrite Hnext. rewrite Hidle by reflexivity. split; reflexivity.
  - intros Hcur. unfold switchToStage. rewrite Hcur. reflexivity.
Qed.

Lemma switchToStage_takes_650_ms_witness :
  currentStageId (run_timers V13 2 (switchToStage "step-kg-result" (initial 1 all_cards 1)))
  = "step-kg-result" /\
  clock (run_timers V13 2 (switchToStage "step-kg-result" (initial 1 all_cards 1))) = 650.
Proof.
  destruct (switchToStage_takes_650_ms V13 "step-kg-result" (initial 1 all_cards 1) 0 eq_refl)
    as (H & _ & _).
  destruct H as (_ & _ & Hstage & Hclock & _); [reflexivity | reflexivity |].
  split; [exact Hstage | exact Hclock].
Defined.

(** ** One fade at a time *)

Lemma one_under_handle (p : Timer -> bool) (l : list Timer) :
  List.NoDup (map handle l) ->
  (forall t u, In t l -> In u l -> p t = true -> p u = true -> handle t = handle u) ->
  (length (List.filter p l) <= 1)%nat.
Proof.
  induction l as [| t l IH]; simpl; intros Hnd Hsame; [lia |].
  apply List.NoDup_cons_iff in Hnd. destruct Hnd as [Hnotin Hnd].
  assert (IHl : (length (List.filter p l) <= 1)%nat).
  { apply IH; [exact Hnd |]. intros a b Ha Hb. apply Hsame; right; assumption. }
  destruct (p t) eqn:Hp; [| exact IHl].
  destruct (List.filter p l) as [| u rest] eqn:Hf; simpl; [lia |].
  exfalso.
  assert (Hu : In u (List.filter p l)) by (rewrite Hf; left; reflexivity).
  apply List.filter_In in Hu. destruct Hu as [Hu Hpu].
  apply Hnotin. apply List.in_map_iff. exists u. split; [| exact Hu].
  symmetry. apply Hsame; [left; reflexivity | right; exact Hu | exact Hp | exact Hpu].
Qed.

Lemma tracked_one_fade (s : State) : wf s -> fade_tracked s -> (fade_intervals s <= 1)%nat.
Proof.
  intros (Hnd & _ & _) Htr. unfold fade_intervals.
  apply one_under_handle; [exact Hnd |].
  intros t u Ht Hu Hpt Hpu.
  pose proof (Htr t Ht Hpt) as H1. pose proof (Htr u Hu Hpu) as H2. congruence.
Qed.

Lemma tracked_clearTimer (h : option positive) (s : State) :
  fade_tracked s -> fade_tracked (clearTimer h s).
Proof.
  intros H. destruct h as [id |]; [| exact H].
  intros t Ht Hf. simpl in Ht. apply In_filter_handle in Ht. apply H; tauto.
Qed.

Lemma tracked_register (cb : callback) (when : Z) (period : option Z) (s : State) :
  is_fade cb = false -> fade_tracked s ->
  fade_tracked (with_timers s (Pos.succ (next_id s))
                            (timers s ++ [mkTimer (next_id s) when period cb])).
Proof.
  intros Hcb H t Ht Hf. simpl in Ht. apply List.in_app_iff in Ht.
  destruct Ht as [Ht | [<- | []]]; [apply H; assumption |].
  simpl in Hf. congruence.
Qed.

Lemma tracked_setTimeout (cb : callback) (delay : Z) (s : State) :
  is_fade cb = false -> fade_tracked s -> fade_tracked (setTimeout cb delay s).
Proof. apply tracked_register. Qed.

Lemma tracked_setInterval (cb : callback) (period : Z) (s : State) :
  is_fade cb = false -> fade_tracked s -> fade_tracked (setInterval cb period s).
Proof. apply tracked_register. Qed.

Lemma tracked_startPolling (s : State) : fade_tracked s -> fade_tracked (startPolling s).
Proof.
  intros H. unfold startPolling. cbv zeta.
  pose proof (tracked_setInterval PollTick poll_period _ eq_refl
                (tracked_clearTimer (pollingIntervalId s) s H)) as H1.
  exact H1.
Qed.

Lemma tracked_switchToStage (next : string) (s : State) :
  fade_tracked s -> fade_tracked (switchToStage next s).
Proof.
  intros H. unfold switchToStage.
  destruct (card_exists s (currentStageId s)); [| exact H].
  apply tracked_setTimeout; [reflexivity | exact H].
Qed.

Lemma tracked_same_video (s s' : State) :
  timers s' = timers s -> Fade.fadeInterval (video s') = Fade.fadeInterval (video s) ->
  fade_tracked s -> fade_tracked s'.
Proof.
  intros Ht Hv H t Hin Hf. rewrite Hv. apply H; [rewrite <- Ht; exact Hin | exact Hf].
Qed.

(** A state without fade callbacks in the queue. *)
Lemma tracked_no_fade (s : State) :
  (forall t, In t (timers s) -> is_fade (run t) = false) -> fade_tracked s.
Proof. intros H t Ht Hf. rewrite (H t Ht) in Hf. discriminate Hf. Qed.

Lemma cleared_no_fade (s : State) (t : Timer) :
  fade_tracked s -> In t (timers (clearTimer (Fade.fadeInterval (video s)) s)) ->
  is_fade (run t) = false.
Proof.
  intros H Ht. destruct (is_fade (run t)) eqn:Hf; [| reflexivity]. exfalso.
  destruct (Fade.fadeInterval (video s)) as [h |] eqn:E.
  - simpl in Ht. apply In_filter_handle in Ht. destruct Ht as [Ht Hne].
    pose proof (H t Ht Hf) as Hh. congruence.
  - pose proof (H t Ht Hf) as Hh. congruence.
Qed.

Lemma tracked_fadeAudio_V13 (target duration : float) (s : State) :
  fade_tracked s -> fade_tracked (fadeAudio V13 target duration s).
Proof.
  intros H. unfold fadeAudio, Fade.start_fade, Fade.fadeAudio. cbv zeta.
  destruct (Fade.volume (video s) =? target)%float; [exact H |].
  cbn [Fade.cancelled Fade.fader].
  intros t Ht Hf. cbn [video with_video Fade.fadeInterval].
  simpl in Ht. apply List.in_app_iff in Ht. destruct Ht as [Ht | [<- | []]].
  - exfalso. pose proof (cleared_no_fade s t H) as Hno.
    rewrite Hno in Hf; [discriminate Hf |].
    destruct (Fade.fadeInterval (video s)); exact Ht.
  - simpl. destruct (Fade.fadeInterval (video s)); reflexivity.
Qed.

Lemma tick_keeps_handle (f : Fade.Fader) (el e : Fade.Element) :
  Fade.tick f el = Fade.Continue e -> Fade.fadeInterval e = Fade.fadeInterval el.
Proof.
  unfold Fade.tick. cbv zeta.
  destruct (_ || _).
  - destruct (Fade.set_volume _ _); discriminate.
  - unfold Fade.set_volume.
    destruct (_ && _); [| discriminate]. intros H. injection H as <-. reflexivity.
Qed.

Lemma tick_done_handle (f : Fade.Fader) (el e : Fade.Element) :
  Fade.tick f el = Fade.Done e -> Fade.fadeInterval e = None.
Proof.
  unfold Fade.tick. cbv zeta.
  destruct (_ || _).
  - unfold Fade.set_volume. destruct (_ && _); [| discriminate].
    intros H. injection H as <-. reflexivity.
  - destruct (Fade.set_volume _ _); discriminate.
Qed.

Lemma tracked_fade_tick_V13 (self : positive) (f : Fade.Fader) (s : State) :
  fade_tracked s -> fade_tracked (fade_tick V13 self f s).
Proof.
  intros H. unfold fade_tick.
  destruct (Fade.tick f (video s)) as [e | e | [|]] eqn:E.
  - apply (tracked_same_video s); [reflexivity | | exact H].
    apply (tick_keeps_handle f). exact E.
  - apply tracked_no_fade. intros t Ht. apply (cleared_no_fade s t H).
    destruct (Fade.fadeInterval (video s)); exact Ht.
  - apply tracked_no_fade. intros t Ht. apply (cleared_no_fade s t H).
    destruct (Fade.fadeInterval (video s)); exact Ht.
  - exact H.
Qed.

Lemma tracked_poll_tick (v : version) (s : State) :
  fade_tracked s -> fade_tracked (poll_tick v s).
Proof.
  intros H. unfold poll_tick. destruct v; [| exact H].
  destruct (negb (has_session s)); [apply tracked_clearTimer |]; exact H.
Qed.

Ltac chain_tracked :=
  repeat first
    [ assumption
    | apply tracked_setTimeout; [reflexivity |]
    | apply tracked_setInterval; [reflexivity |]
    | apply tracked_clearTimer
    | apply tracked_startPolling
    | apply tracked_switchToStage
    | apply tracked_fadeAudio_V13
    | apply tracked_fade_tick_V13
    | apply tracked_poll_tick ].

Lemma tracked_handleState (v : version) (status : string) (s : State) :
  fade_tracked s -> fade_tracked (handleState v status s).
Proof.
  intros H. unfold handleState. cbv zeta.
  destruct (String.eqb status "AC_COMPLETE"); [chain_tracked |].
  destruct (String.eqb status "KG_COMPLETE"); [destruct v; chain_tracked |].
  destruct (String.eqb status "ISO_PRINCIPLE_READY"); [chain_tracked |].
  destruct (String.eqb status "VIDEO_READY"); [| exact H].
  apply tracked_setTimeout; [reflexivity |]. apply tracked_setTimeout; [reflexivity |].
  apply tracked_switchToStage.
  apply (tracked_same_video (clearTimer (pollingIntervalId s) s));
    [reflexivity | reflexivity | apply tracked_clearTimer; exact H].
Qed.

Lemma tracked_exec_V13 (self : positive) (cb : callback) (s : State) :
  fade_tracked s -> fade_tracked (exec V13 self cb s).
Proof.
  intros H. destruct cb; unfold exec; cbv zeta;
    repeat match goal with
           | |- context [if ?b then _ else _] => destruct b
           end; chain_tracked.
Qed.

Lemma is_fade_next_closure (cb : callback) : is_fade (next_closure cb) = is_fade cb.
Proof. destruct cb; reflexivity. Qed.

Lemma tracked_with_run (s : State) (t : Timer) (now : Z) :
  fade_tracked s -> In t (timers s) ->
  fade_tracked (with_run s now (run t) (rearm t (timers s))).
Proof.
  intros H Ht u Hu Hf. cbn [video with_run]. simpl in Hu. apply In_rearm in Hu.
  destruct Hu as [[Hu _] | (period & _ & -> & _)]; [apply H; assumption |].
  simpl in *. rewrite is_fade_next_closure in Hf. apply H; assumption.
Qed.

Lemma tracked_fire_next_V13 (s s' : State) :
  fade_tracked s -> fire_next V13 s = Some s' -> fade_tracked s'.
Proof.
  intros H. unfold fire_next. destruct (earliest (timers s)) as [t |] eqn:E; [| discriminate].
  intros Hs. injection Hs as <-. apply tracked_exec_V13. apply tracked_with_run; [exact H |].
  apply earliest_In. exact E.
Qed.

Lemma tracked_startHealingEpilogue_V13 (s : State) :
  fade_tracked s -> fade_tracked (startHealingEpilogue V13 s).
Proof.
  intros H. unfold startHealingEpilogue. destruct (epilogueTriggered s); [exact H |].
  cbv zeta. chain_tracked.
Qed.

Lemma tracked_react_V13 (ev : event) (s : State) :
  fade_tracked s -> fade_tracked (react V13 ev s).
Proof.
  intros H. destruct ev; simpl.
  - destruct (fire_next V13 s) as [s' |] eqn:E; [| exact H].
    apply (tracked_fire_next_V13 s s' H E).
  - destruct (String.eqb status "ERROR");
      [apply tracked_clearTimer | apply tracked_handleState]; exact H.
  - apply tracked_clearTimer. exact H.
  - destruct (String.eqb (currentStageId s) "step-input"); exact H.
  - destruct (has_session (with_session s sid)); [| exact H].
    apply tracked_startPolling. exact H.
  - destruct (pollingIntervalId s) as [h |]; [| exact H].
    apply (tracked_clearTimer (Some h) s H).
  - apply tracked_startHealingEpilogue_V13. exact H.
  - apply tracked_startHealingEpilogue_V13. exact H.
  - exact H.
Qed.

Lemma reachable_V13_tracked (s : State) : reachable V13 s -> fade_tracked s.
Proof.
  intros (first_id & stage_cards & volume & evs & ->).
  unfold react_all.
  assert (H0 : fade_tracked (initial first_id stage_cards volume)) by (intros t []).
  revert H0. generalize (initial first_id stage_cards volume).
  induction evs as [| ev evs IH]; intros s H; [exact H |].
  cbn [fold_left]. apply IH. apply tracked_react_V13. exact H.
Qed.

(** X24: In V13 at most one audio fade runs at a time: in every state the page
    can reach the queue holds at most one fade interval, for [fadeAudio]
    cancels the fade registered in [videoElement.fadeInterval] before it
    starts another.  V2 keeps no such handle: when the epilogue begins while
    the fade-in is still running, two fades work on the volume at once. *)
Theorem one_fade_at_a_time (s : State) (target duration : float) :
  reachable V13 s ->
  (fade_intervals s <= 1)%nat /\
  (fade_intervals (fadeAudio V13 target duration s) <= 1)%nat /\
  fade_intervals (react_all V13 early_epilogue (initial 1 all_cards 1)) = 1%nat /\
  fade_intervals (react_all V2 early_epilogue (initial 1 all_cards 1)) = 2%nat.
Proof.
  intros Hr.
  pose proof (reachable_wf V13 s Hr) as Hwf.
  pose proof (reachable_V13_tracked s Hr) as Htr.
  split; [apply tracked_one_fade; assumption |].
  split; [apply tracked_one_fade;
          [apply wf_fadeAudio; exact Hwf | apply tracked_fadeAudio_V13; exact Htr] |].
  split; vm_compute; reflexivity.
Qed.

Lemma one_fade_at_a_time_witness :
  (fade_intervals (react_all V13 early_epilogue (initial 1 all_cards 1)) <= 1)%nat.
Proof.
  destruct (one_fade_at_a_time (react_all V13 early_epilogue (initial 1 all_cards 1)) 0 7000)
    as [H _]; [| exact H].
  exists 1%positive, all_cards, 1%float, early_epilogue. reflexivity.
Defined.

(** ** The fade-in after the prelude *)

(** The runs of a fade interval that is alone in the queue follow
    [Fade.after]: as long as the callback goes on, the interval stays, due
    50 ms later each time. *)
Lemma fade_run_continues (v : version) (f : Fade.Fader) (h : positive) (d : Z) (k : nat)
    (s : State) (e : Fade.Element) :
  timers s = [mkTimer h d (Some 50) (FadeTick f)] -> clock s <= d ->
  Fade.after (Fade.callback (match v with V13 => false | V2 => true end) f) k (video s)
  = Fade.Continue e ->
  timers (run_timers v k s) = [mkTimer h (d + 50 * Z.of_nat k) (Some 50) (FadeTick f)] /\
  video (run_timers v k s) = e /\
  clock (run_timers v k s) <= d + 50 * Z.of_nat k /\
  (v = V13 -> Fade.fadeInterval e = Fade.fadeInterval (video s)).
Proof.
  intros Ht Hc. revert e. induction k as [| k IH]; intros e Hafter.
  - cbn [Fade.after] in Hafter. injection Hafter as <-. cbn [run_timers].
    rewrite Ht. replace (d + 50 * Z.of_nat 0) with d by lia.
    repeat split; [exact Hc].
  - cbn [Fade.after] in Hafter.
    destruct (Fade.after _ k (video s)) as [e' | e' | b] eqn:Ek; try discriminate Hafter.
    destruct (IH e' eq_refl) as (IHt & IHv & IHc & IHh).
    replace (S k) with (k + 1)%nat by lia. rewrite run_timers_plus.
    set (sk := run_timers v k s) in *. clearbody sk.
    cbn [run_timers]. unfold fire_next. rewrite IHt.
    cbn [earliest due every rearm map handle run next_closure].
    rewrite Pos.eqb_refl.
    replace (Z.max (clock sk) (d + 50 * Z.of_nat k)) with (d + 50 * Z.of_nat k) by lia.
    replace (d + 50 * Z.of_nat k + 50) with (d + 50 * Z.of_nat (k + 1)) by lia.
    unfold exec, fade_tick, with_run. cbn [video]. rewrite IHv.
    destruct v; unfold Fade.callback in Hafter; rewrite Hafter; unfold with_video;
      cbn [timers video clock].
    + split; [reflexivity |]. split; [reflexivity |]. split; [lia |].
      intros _. rewrite <- (IHh eq_refl). apply (tick_keeps_handle f). exact Hafter.
    + split; [reflexivity |]. split; [reflexivity |]. split; [lia | discriminate].
Qed.

(** The run on which the callback ends the fade leaves the queue empty. *)
Lemma fade_run_ends (v : version) (f : Fade.Fader) (h : positive) (d : Z) (k : nat)
    (s : State) (e' e : Fade.Element) :
  timers s = [mkTimer h d (Some 50) (FadeTick f)] -> clock s <= d ->
  (v = V13 -> Fade.fadeInterval (video s) = Some h) ->
  Fade.after (Fade.callback (match v with V13 => false | V2 => true end) f) k (video s)
  = Fade.Continue e' ->
  Fade.callback (match v with V13 => false | V2 => true end) f e' = Fade.Done e ->
  timers (run_timers v (k + 1) s) = [] /\
  video (run_timers v (k + 1) s) = e /\
  clock (run_timers v (k + 1) s) = d + 50 * Z.of_nat k.
Proof.
  intros Ht Hc Hh Hk Hdone.
  destruct (fade_run_continues v f h d k s e' Ht Hc Hk) as (IHt & IHv & IHc & IHh).
  rewrite run_timers_plus.
  set (sk := run_timers v k s) in *. clearbody sk.
  cbn [run_timers]. unfold fire_next. rewrite IHt.
  cbn [earliest due every rearm map handle run next_closure].
  rewrite Pos.eqb_refl.
  replace (Z.max (clock sk) (d + 50 * Z.of_nat k)) with (d + 50 * Z.of_nat k) by lia.
  unfold exec, fade_tick, with_run. cbn [video]. rewrite IHv.
  destruct v; unfold Fade.callback in Hdone; rewrite Hdone.
  - rewrite (IHh eq_refl), (Hh eq_refl). unfold clearTimer, with_timers, with_video.
    cbn [timers video clock List.filter handle]. rewrite Pos.eqb_refl. repeat split.
  - unfold clearTimer, with_timers, with_video.
    cbn [timers video clock List.filter handle]. rewrite Pos.eqb_refl. repeat split.
Qed.

Ltac fields :=
  cbn [clock next_id timers sessionId pollingIntervalId currentStageId cards video
       epilogueTriggered fetches log handle due every run].

(** Settle the comparisons of due times and of handles by arithmetic. *)
Ltac decide_tests :=
  repeat (match goal with
          | |- context [Z.leb ?a ?b] =>
              destruct (Z.leb_spec a b); try lia
          | |- context [Pos.eqb ?a ?b] =>
              destruct (Pos.eqb_spec a b); try lia
          | |- context [Z.max ?a ?b] =>
              replace (Z.max a b) with b by lia
          end; cbn beta iota; fields).

(** One turn of the event loop on a queue written out. *)
Ltac turn :=
  cbn [run_timers]; unfold fire_next; fields; cbn [earliest]; fields; decide_tests;
  unfold rearm; fields; cbn [List.filter]; fields; decide_tests; cbn [negb List.filter];
  unfold with_run; fields.

Lemma after_fade_in_V13 (fi : option positive) :
  exists e',
    Fade.after (Fade.tick (Fade.mkFader 1 (((1 - 0) / (5000 / Fade.intervalTime))%float))) 99
               (Fade.mkElement 0 fi) = Fade.Continue e' /\
    Fade.tick (Fade.mkFader 1 (((1 - 0) / (5000 / Fade.intervalTime))%float)) e'
    = Fade.Done (Fade.mkElement 1 None).
Proof. eexists. split; vm_compute; reflexivity. Qed.

Lemma after_fade_in_V2 (fi : option positive) :
  exists e',
    Fade.after (Fade.tick_v2 (Fade.mkFader 1 (((1 - 0) / (2500 / Fade.intervalTime))%float))) 49
               (Fade.mkElement 0 fi) = Fade.Continue e' /\
    Fade.tick_v2 (Fade.mkFader 1 (((1 - 0) / (2500 / Fade.intervalTime))%float)) e'
    = Fade.Done (Fade.mkElement 1 fi).
Proof. eexists. split; vm_compute; reflexivity. Qed.

(** What [PreludeEnd] does on an empty queue with the volume at 0. *)
Lemma prelude_end (v : version) (self : positive) (c : Z) (id : positive) (sid : option string)
    (pid : option positive) (stage : string) (cds : list string) (fi : option positive)
    (ep : bool) (fs : list (Z * string)) (lg : list (Z * callback)) :
  exists e,
    exec v self PreludeEnd
         (mkState c id [] sid pid stage cds (Fade.mkElement 0 fi) ep fs lg)
    = mkState c (Pos.succ id)
        [mkTimer id (c + 50) (Some 50)
                 (FadeTick (Fade.mkFader 1 (((1 - 0) / (fade_in_duration v / Fade.intervalTime))%float)))]
        sid pid stage cds e ep fs lg /\
    Fade.volume e = 0%float /\
    (v = V13 -> Fade.fadeInterval e = Some id).
Proof.
  unfold exec, fadeAudio. fields.
  destruct v; unfold Fade.start_fade, Fade.fadeAudio, Fade.fadeAudio_v2; cbv zeta;
    cbn [Fade.volume Fade.fadeInterval];
    change (0 =? 1)%float with false; cbn [Fade.cancelled Fade.fader].
  - exists (Fade.mkElement 0 (Some id)).
    split; [destruct fi; reflexivity |]. split; [reflexivity | intros _; reflexivity].
  - exists (Fade.mkElement 0 fi).
    split; [reflexivity |]. split; [reflexivity | discriminate].
Qed.

(** The page once the prelude has ended, [pre] runs after VIDEO_READY was
    handled: the volume has been 0 all along, and the fade interval is alone
    in the queue, due 50 ms later. *)
Lemma prelude_runs (v : version) (s : State) :
  timers s = [] ->
  exists pre h,
    (forall m, (m <= pre)%nat ->
       Fade.volume (video (run_timers v m (handleState v "VIDEO_READY" s))) = 0%float) /\
    clock (run_timers v pre (handleState v "VIDEO_READY" s)) = clock s + 3500 /\
    timers (run_timers v pre (handleState v "VIDEO_READY" s))
    = [mkTimer h (clock s + 3500 + 50) (Some 50)
               (FadeTick (Fade.mkFader 1 (((1 - 0) / (fade_in_duration v / Fade.intervalTime))%float)))] /\
    (v = V13 ->
       Fade.fadeInterval (video (run_timers v pre (handleState v "VIDEO_READY" s)))
       = Some h).
Proof.
  intros Hempty.
  destruct s as [c id tm sid pid stage cds vid ep fs lg]. cbn [timers] in Hempty. subst tm.
  assert (Hs : handleState v "VIDEO_READY" (mkState c id [] sid pid stage cds vid ep fs lg)
               = setTimeout PreludeEnd 3500
                   (setTimeout OverlayVisible 100
                      (switchToStage "step-video-player"
                         (mkState c id [] sid pid stage cds
                                  (Fade.mkElement 0 (Fade.fadeInterval vid)) ep fs lg)))).
  { unfold handleState. cbn [String.eqb Ascii.eqb Bool.eqb]. cbv zeta.
    destruct pid; reflexivity. }
  rewrite Hs. clear Hs. fields.
  set (fi := Fade.fadeInterval vid). clearbody fi. clear vid.
  unfold switchToStage. fields.
  destruct (card_exists _ stage) eqn:Hcur.
  - unfold card_exists in Hcur. cbn [cards] in Hcur.
    unfold setTimeout, with_timers. fields. cbn [app].
    set (S0 := mkState c _ _ sid pid stage cds (Fade.mkElement 0 fi) ep fs lg).
    assert (R1 : run_timers v 1 S0
                 = mkState (c + 100) (Pos.succ (Pos.succ (Pos.succ id)))
                     [mkTimer id (c + 600) None (SwitchHide stage "step-video-player");
                      mkTimer (Pos.succ (Pos.succ id)) (c + 3500) None PreludeEnd]
                     sid pid stage cds (Fade.mkElement 0 fi) ep fs
                     (lg ++ [(c + 100, OverlayVisible)])).
    { unfold S0. turn. reflexivity. }
    destruct (existsb (String.eqb "step-video-player") cds) eqn:Hnext.
    + assert (R2 : run_timers v 2 S0
                   = mkState (c + 600) (Pos.succ (Pos.succ (Pos.succ (Pos.succ id))))
                       [mkTimer (Pos.succ (Pos.succ id)) (c + 3500) None PreludeEnd;
                        mkTimer (Pos.succ (Pos.succ (Pos.succ id))) (c + 600 + 50) None
                                (SwitchShow "step-video-player")]
                       sid pid stage cds (Fade.mkElement 0 fi) ep fs
                       ((lg ++ [(c + 100, OverlayVisible)])
                        ++ [(c + 600, SwitchHide stage "step-video-player")])).
      { change 2%nat with (1 + 1)%nat. rewrite run_timers_plus, R1. turn.
        unfold exec, card_exists. fields. rewrite Hnext. reflexivity. }
      assert (R3 : run_timers v 3 S0
                   = mkState (c + 600 + 50) (Pos.succ (Pos.succ (Pos.succ (Pos.succ id))))
                       [mkTimer (Pos.succ (Pos.succ id)) (c + 3500) None PreludeEnd]
                       sid pid "step-video-player" cds (Fade.mkElement 0 fi) ep fs
                       (((lg ++ [(c + 100, OverlayVisible)])
                         ++ [(c + 600, SwitchHide stage "step-video-player")])
                        ++ [(c + 600 + 50, SwitchShow "step-video-player")])).
      { change 3%nat with (2 + 1)%nat. rewrite run_timers_plus, R2. turn. reflexivity. }
      destruct (prelude_end v (Pos.succ (Pos.succ id)) (c + 3500)
                  (Pos.succ (Pos.succ (Pos.succ (Pos.succ id)))) sid pid
                  "step-video-player" cds fi ep fs
                  ((((lg ++ [(c + 100, OverlayVisible)])
                     ++ [(c + 600, SwitchHide stage "step-video-player")])
                    ++ [(c + 600 + 50, SwitchShow "step-video-player")])
                   ++ [(c + 3500, PreludeEnd)])) as (e & He & Hvol & Hfi).
      assert (R4 : run_timers v 4 S0
                   = mkState (c + 3500)
                       (Pos.succ (Pos.succ (Pos.succ (Pos.succ (Pos.succ id)))))
                       [mkTimer (Pos.succ (Pos.succ (Pos.succ (Pos.succ id))))
                                (c + 3500 + 50) (Some 50)
                                (FadeTick (Fade.mkFader 1
                                   (((1 - 0) / (fade_in_duration v / Fade.intervalTime))%float)))]
                       sid pid "step-video-player" cds e ep fs
                       ((((lg ++ [(c + 100, OverlayVisible)])
                          ++ [(c + 600, SwitchHide stage "step-video-player")])
                         ++ [(c + 600 + 50, SwitchShow "step-video-player")])
                        ++ [(c + 3500, PreludeEnd)])).
      { change 4%nat with (3 + 1)%nat. rewrite run_timers_plus, R3. turn. exact He. }
      exists 4%nat, (Pos.succ (Pos.succ (Pos.succ (Pos.succ id)))).
      split.
      { intros m Hm. destruct m as [| [| [| [| [| m]]]]]; [| | | | | lia].
        - reflexivity.
        - rewrite R1. reflexivity.
        - rewrite R2. reflexivity.
        - rewrite R3. reflexivity.
        - rewrite R4. exact Hvol. }
      rewrite R4. fields. repeat split. exact Hfi.
    + assert (R2 : run_timers v 2 S0
                   = mkState (c + 600) (Pos.succ (Pos.succ (Pos.succ id)))
                       [mkTimer (Pos.succ (Pos.succ id)) (c + 3500) None PreludeEnd]
                       sid pid stage cds (Fade.mkElement 0 fi) ep fs
                       ((lg ++ [(c + 100, OverlayVisible)])
                        ++ [(c + 600, SwitchHide stage "step-video-player")])).
      { change 2%nat with (1 + 1)%nat. rewrite run_timers_plus, R1. turn.
        unfold exec, card_exists. fields. rewrite Hnext. reflexivity. }
      destruct (prelude_end v (Pos.succ (Pos.succ id)) (c + 3500)
                  (Pos.succ (Pos.succ (Pos.succ id))) sid pid stage cds fi ep fs
                  (((lg ++ [(c + 100, OverlayVisible)])
                    ++ [(c + 600, SwitchHide stage "step-video-player")])
                   ++ [(c + 3500, PreludeEnd)])) as (e & He & Hvol & Hfi).
      assert (R3 : run_timers v 3 S0
                   = mkState (c + 3500) (Pos.succ (Pos.succ (Pos.succ (Pos.succ id))))
                       [mkTimer (Pos.succ (Pos.succ (Pos.succ id)))
                                (c + 3500 + 50) (Some 50)
                                (FadeTick (Fade.mkFader 1
                                   (((1 - 0) / (fade_in_duration v / Fade.intervalTime))%float)))]
                       sid pid stage cds e ep fs
                       (((lg ++ [(c + 100, OverlayVisible)])
                         ++ [(c + 600, SwitchHide stage "step-video-player")])
                        ++ [(c + 3500, PreludeEnd)])).
      { change 3%nat with (2 + 1)%nat. rewrite run_timers_plus, R2. turn. exact He. }
      exists 3%nat, (Pos.succ (Pos.succ (Pos.succ id))).
      split.
      { intros m Hm. destruct m as [| [| [| [| m]]]]; [| | | | lia].
        - reflexivity.
        - rewrite R1. reflexivity.
        - rewrite R2. reflexivity.
        - rewrite R3. exact Hvol. }
      rewrite R3. fields. repeat split. exact Hfi.
  - unfold setTimeout, with_timers. fields. cbn [app].
    set (S0 := mkState c _ _ sid pid stage cds (Fade.mkElement 0 fi) ep fs lg).
    assert (R1 : run_timers v 1 S0
                 = mkState (c + 100) (Pos.succ (Pos.succ id))
                     [mkTimer (Pos.succ id) (c + 3500) None PreludeEnd]
                     sid pid stage cds (Fade.mkElement 0 fi) ep fs
                     (lg ++ [(c + 100, OverlayVisible)])).
    { unfold S0. turn. reflexivity. }
    destruct (prelude_end v (Pos.succ id) (c + 3500) (Pos.succ (Pos.succ id))
                sid pid stage cds fi ep fs
                ((lg ++ [(c + 100, OverlayVisible)]) ++ [(c + 3500, PreludeEnd)]))
      as (e & He & Hvol & Hfi).
    assert (R2 : run_timers v 2 S0
                 = mkState (c + 3500) (Pos.succ (Pos.succ (Pos.succ id)))
                     [mkTimer (Pos.succ (Pos.succ id)) (c + 3500 + 50) (Some 50)
                              (FadeTick (Fade.mkFader 1
                                 (((1 - 0) / (fade_in_duration v / Fade.intervalTime))%float)))]
                     sid pid stage cds e ep fs
                     ((lg ++ [(c + 100, OverlayVisible)]) ++ [(c + 3500, PreludeEnd)])).
    { change 2%nat with (1 + 1)%nat. rewrite run_timers_plus, R1. turn. exact He. }
    exists 2%nat, (Pos.succ (Pos.succ id)).
    split.
    { intros m Hm. destruct m as [| [| [| m]]]; [| | | lia].
      - reflexivity.
      - rewrite R1. reflexivity.
      - rewrite R2. exact Hvol. }
    rewrite R2. fields. repeat split. exact Hfi.
Qed.

(** The fade-in on a page with an empty queue. *)
Lemma fade_in_on_empty_queue (v : version) (s : State) :
  timers s = [] ->
  exists pre,
    (forall m, (m <= pre)%nat ->
       Fade.volume (video (run_timers v m (handleState v "VIDEO_READY" s))) = 0%float) /\
    clock (run_timers v pre (handleState v "VIDEO_READY" s)) = clock s + 3500 /\
    Fade.volume
      (video (run_timers v (pre + match v with V13 => 100 | V2 => 50 end)
                         (handleState v "VIDEO_READY" s))) = 1%float /\
    timers (run_timers v (pre + match v with V13 => 100 | V2 => 50 end)
                       (handleState v "VIDEO_READY" s)) = [] /\
    clock (run_timers v (pre + match v with V13 => 100 | V2 => 50 end)
                      (handleState v "VIDEO_READY" s))
    = clock s + 3500 + match v with V13 => 5000 | V2 => 2500 end /\
    (forall more,
       run_timers v (pre + match v with V13 => 100 | V2 => 50 end + more)
                  (handleState v "VIDEO_READY" s)
       = run_timers v (pre + match v with V13 => 100 | V2 => 50 end)
                    (handleState v "VIDEO_READY" s)).
Proof.
  intros Hempty.
  destruct (prelude_runs v s Hempty) as (pre & h & Hsilent & Hclock & Htimers & Hfi).
  exists pre. split; [exact Hsilent |]. split; [exact Hclock |].
  pose proof (Hsilent pre (Nat.le_refl pre)) as Hvol.
  set (s1 := handleState v "VIDEO_READY" s) in *. clearbody s1.
  assert (Hend : exists e, 
            timers (run_timers v (pre + match v with V13 => 100 | V2 => 50 end) s1) = [] /\
            video (run_timers v (pre + match v with V13 => 100 | V2 => 50 end) s1) = e /\
            Fade.volume e = 1%float /\
            clock (run_timers v (pre + match v with V13 => 100 | V2 => 50 end) s1)
            = clock s + 3500 + match v with V13 => 5000 | V2 => 2500 end).
  { rewrite run_timers_plus.
    set (sp := run_timers v pre s1) in *. clearbody sp.
    destruct (video sp) as [vol fi] eqn:Hvideo. cbn [Fade.volume] in Hvol. subst vol.
    destruct v.
    - destruct (after_fade_in_V13 fi) as (e' & Hk & Hdone).
      destruct (fade_run_ends V13 _ h (clock s + 3500 + 50) 99 sp e' (Fade.mkElement 1 None)
                  Htimers) as (Ht & Hv & Hc).
      + lia.
      + intros _. rewrite Hvideo. exact (Hfi eq_refl).
      + rewrite Hvideo. exact Hk.
      + exact Hdone.
      + change (99 + 1)%nat with 100%nat in Ht, Hv, Hc.
        exists (Fade.mkElement 1 None). repeat split; try assumption. rewrite Hc. lia.
    - destruct (after_fade_in_V2 fi) as (e' & Hk & Hdone).
      destruct (fade_run_ends V2 _ h (clock s + 3500 + 50) 49 sp e' (Fade.mkElement 1 fi)
                  Htimers) as (Ht & Hv & Hc).
      + lia.
      + discriminate.
      + rewrite Hvideo. exact Hk.
      + exact Hdone.
      + change (49 + 1)%nat with 50%nat in Ht, Hv, Hc.
        exists (Fade.mkElement 1 fi). repeat split; try assumption. rewrite Hc. lia. }
  destruct Hend as (e & Ht & Hv & Hone & Hc).
  split; [rewrite Hv; exact Hone |]. split; [exact Ht |]. split; [exact Hc |].
  intros more. rewrite run_timers_plus. apply run_timers_idle.
  unfold fire_next. rewrite Ht. reflexivity.
Qed.

Lemma run_timers_fire (v : version) (n : nat) (s s' : State) :
  fire_next v s = Some s' -> run_timers v (S n) s = run_timers v n s'.
Proof. intros H. cbn [run_timers]. rewrite H. reflexivity. Qed.

Lemma clearTimer_only_polling (s : State) :
  only_polling s ->
  clearTimer (pollingIntervalId s) s
  = mkState (clock s) (next_id s) [] (sessionId s) (pollingIntervalId s) (currentStageId s)
            (cards s) (video s) (epilogueTriggered s) (fetches s) (log s).
Proof.
  intros H. destruct s as [c id tm sid pid stage cds vid ep fs lg].
  unfold only_polling in H. cbn [timers pollingIntervalId] in H. fields.
  destruct pid as [h |].
  - unfold clearTimer, with_timers. fields. f_equal.
    induction tm as [| t tm IH]; [reflexivity |].
    cbn [List.filter].
    assert (Ht : handle t = h).
    { specialize (H t (or_introl eq_refl)). congruence. }
    rewrite Ht, Pos.eqb_refl. cbn [negb]. apply IH.
    intros u Hu. apply H. right. exact Hu.
  - cbn [clearTimer]. destruct tm as [| t tm]; [reflexivity |].
    specialize (H t (or_introl eq_refl)). discriminate H.
Qed.

(** The handler of VIDEO_READY starts by clearing the polling interval:
    when nothing else is pending it goes on from an empty queue. *)
Lemma video_ready_only_polling (v : version) (s : State) :
  only_polling s ->
  handleState v "VIDEO_READY" s
  = handleState v "VIDEO_READY"
      (mkState (clock s) (next_id s) [] (sessionId s) (pollingIntervalId s)
               (currentStageId s) (cards s) (video s) (epilogueTriggered s) (fetches s)
               (log s)).
Proof.
  intros H. unfold handleState. cbn [String.eqb Ascii.eqb Bool.eqb]. cbv zeta.
  rewrite (clearTimer_only_polling s H). fields.
  destruct (pollingIntervalId s); reflexivity.
Qed.

(** X25: When VIDEO_READY is handled on a page with nothing pending but the
    polling interval, the video stays silent through the prelude of 3500 ms
    and is then faded in: after 100 runs of the fade callback in V13
    (5000 ms) and 50 in V2 (2500 ms) the volume is 1 and the queue is empty,
    so that further turns of the event loop change nothing. *)
Theorem video_fades_in_after_prelude (v : version) (s : State) :
  only_polling s ->
  exists pre,
    (forall m, (m <= pre)%nat ->
       Fade.volume (video (run_timers v m (handleState v "VIDEO_READY" s))) = 0%float) /\
    clock (run_timers v pre (handleState v "VIDEO_READY" s)) = clock s + 3500 /\
    Fade.volume
      (video (run_timers v (pre + match v with V13 => 100 | V2 => 50 end)
                         (handleState v "VIDEO_READY" s))) = 1%float /\
    timers (run_timers v (pre + match v with V13 => 100 | V2 => 50 end)
                       (handleState v "VIDEO_READY" s)) = [] /\
    clock (run_timers v (pre + match v with V13 => 100 | V2 => 50 end)
                      (handleState v "VIDEO_READY" s))
    = clock s + 3500 + match v with V13 => 5000 | V2 => 2500 end /\
    (forall more,
       run_timers v (pre + match v with V13 => 100 | V2 => 50 end + more)
                  (handleState v "VIDEO_READY" s)
       = run_timers v (pre + match v with V13 => 100 | V2 => 50 end)
                    (handleState v "VIDEO_READY" s)).
Proof.
  intros H. rewrite (video_ready_only_polling v s H).
  exact (fade_in_on_empty_queue v
           (mkState (clock s) (next_id s) [] (sessionId s) (pollingIntervalId s)
                    (currentStageId s) (cards s) (video s) (epilogueTriggered s)
                    (fetches s) (log s))
           eq_refl).
Qed.

Lemma video_fades_in_after_prelude_witness :
  exists pre,
    Fade.volume (video (run_timers V13 (pre + 100)
                          (handleState V13 "VIDEO_READY" sample_polling))) = 1%float /\
    clock (run_timers V13 (pre + 100) (handleState V13 "VIDEO_READY" sample_polling))
    = 10500.
Proof.
  assert (H : only_polling sample_polling).
  { intros t [<- | []]. reflexivity. }
  destruct (video_fades_in_after_prelude V13 sample_polling H)
    as (pre & _ & _ & Hvol & _ & Hclock & _).
  exists pre. split; [exact Hvol | exact Hclock].
Defined.

(** ** Polling resumes *)

Lemma reach_step (v : version) (P : State -> Prop) (s s' : State) :
  fire_next v s = Some s' ->
  (exists n, P (run_timers v n s')) -> exists n, P (run_timers v n s).
Proof.
  intros H [n Hn]. exists (S n). rewrite (run_timers_fire v n s s' H). exact Hn.
Qed.

Lemma reach_now (v : version) (P : State -> Prop) (s : State) :
  P s -> exists n, P (run_timers v n s).
Proof. intros H. exists 0%nat. exact H. Qed.

Lemma one_more_fetch (fs : list (Z * string)) (t t' : Z) (u : string) :
  t = t' -> (fs ++ [(t, u)])%list = (fs ++ [(t', u)])%list.
Proof. intros ->. reflexivity. Qed.

Ltac normal :=
  cbv [setTimeout setInterval with_timers startPolling with_polling with_stage switchToStage
       poll_tick with_fetch card_exists with_session ac_resume_delay kg_resume_delay
       iso_resume_delay poll_period clearTimer next_closure Nat.ltb Nat.leb negb
       List.filter map
       clock next_id timers sessionId pollingIntervalId currentStageId cards video
       epilogueTriggered fetches log handle due every run];
  cbn [app].

Ltac known :=
  repeat match goal with
         | H : _ = _ |- _ => rewrite H
         | H : forall _, _ |- _ => rewrite H
         end.

(** One turn of the event loop, the callback included. *)
Ltac step :=
  eapply reach_step;
  [ unfold fire_next; fields; cbn [earliest]; fields; decide_tests;
    unfold rearm; fields; cbn [map List.filter]; fields; decide_tests;
    cbn [negb List.filter next_closure]; unfold with_run; fields;
    unfold exec; normal; known; normal; decide_tests; normal;
    reflexivity
  | ].

Ltac arrived :=
  apply reach_now; unfold resumed; fields;
  split; [apply one_more_fetch; unfold poll_period; lia |];
  split; [unfold poll_period; lia | reflexivity].

Ltac branch :=
  match goal with
  | |- context [if ?b then _ else _] => destruct b eqn:?
  end; cbn beta iota; normal.

Ltac play := repeat first [arrived | branch | step].

Lemma resumes_from_polling (v : version) (status : string) (delay : Z)
    (c : Z) (id : positive) (h : positive) (d : Z) (sid : string) (stage : string)
    (cds : list string) (vid : Fade.Element) (ep : bool) (fs : list (Z * string))
    (lg : list (Z * callback)) :
  String.eqb sid "" = false ->
  (h < id)%positive ->
  stage_delay v status = Some delay ->
  exists n,
    resumed v (mkState c id [mkTimer h d (Some poll_period) PollTick] (Some sid) (Some h)
                       stage cds vid ep fs lg) delay
      (run_timers v n
         (handleState v status
            (mkState c id [mkTimer h d (Some poll_period) PollTick] (Some sid) (Some h)
                     stage cds vid ep fs lg))).
Proof.
  intros Hsid Hlt Hd.
  assert (Hh : forall c id tm pid stage cds vid ep fs lg,
             has_session (mkState c id tm (Some sid) pid stage cds vid ep fs lg) = true).
  { intros. unfold has_session. fields. rewrite Hsid. reflexivity. }
  clear Hsid.
  unfold stage_delay in Hd. unfold handleState. cbv zeta.
  assert (Hclear : clearTimer
                     (pollingIntervalId
                        (mkState c id [mkTimer h d (Some poll_period) PollTick] (Some sid)
                                 (Some h) stage cds vid ep fs lg))
                     (mkState c id [mkTimer h d (Some poll_period) PollTick] (Some sid)
                              (Some h) stage cds vid ep fs lg)
                   = mkState c id [] (Some sid) (Some h) stage cds vid ep fs lg).
  { normal. rewrite Pos.eqb_refl. reflexivity. }
  rewrite Hclear. clear Hclear.
  destruct (String.eqb status "AC_COMPLETE") eqn:Eac.
  { injection Hd as <-. clear Eac.
    destruct v; normal.
    - play.
    - play. }
  destruct (String.eqb status "KG_COMPLETE") eqn:Ekg.
  { injection Hd as <-. clear Eac Ekg.
    destruct v; normal.
    - play.
    - play. }
  destruct (String.eqb status "ISO_PRINCIPLE_READY") eqn:Eiso; [| discriminate Hd].
  injection Hd as <-. clear Eac Ekg Eiso.
  destruct v; normal.
  - play.
  - play.
Qed.

(** X26: After the answer that starts a stage (AC_COMPLETE, KG_COMPLETE or
    ISO_PRINCIPLE_READY) comes in on a page that holds all its cards, has a
    session and is polling with nothing else pending, the timers of the
    stage run and polling comes back: the next status request, and the only
    one, goes out [stage_delay] ms plus one polling period after the answer
    was handled, and the polling interval is in the queue again.  (On a
    page that lacks the card of the stage the source stops on a
    [TypeError] before it registers the timers.) *)
Theorem polling_resumes_after_stage (v : version) (status : string) (delay : Z) (s : State) :
  holds_cards v s ->
  polling_alone s -> has_session s = true -> stage_delay v status = Some delay ->
  exists n,
    fetches (run_timers v n (handleState v status s))
    = (fetches s ++ [(clock s + delay + poll_period, status_url v s)])%list /\
    clock (run_timers v n (handleState v status s)) = clock s + delay + poll_period /\
    polling_active (run_timers v n (handleState v status s)) = true.
Proof.
  intros _ (h & d & Ht & Hp & Hlt) Hs Hd.
  destruct s as [c id tm sid pid stage cds vid ep fs lg].
  cbn [timers pollingIntervalId next_id] in Ht, Hp, Hlt. subst tm pid.
  unfold has_session in Hs. cbn [sessionId] in Hs.
  destruct sid as [sid |]; [| discriminate Hs].
  apply negb_true_iff in Hs.
  exact (resumes_from_polling v status delay c id h d sid stage cds vid ep fs lg Hs Hlt Hd).
Qed.

Lemma polling_resumes_after_stage_witness :
  exists n,
    fetches (run_timers V13 n (handleState V13 "ISO_PRINCIPLE_READY" sample_polling))
    = [(2000, "https://f0a54943db34.ngrok-free.app/api/session_status?id=abc");
       (15000, "https://f0a54943db34.ngrok-free.app/api/session_status?id=abc")].
Proof.
  destruct (polling_resumes_after_stage V13 "ISO_PRINCIPLE_READY" 11000 sample_polling)
    as (n & Hf & _).
  - intros id Hin. cbn [page_cards all_cards In] in Hin.
    repeat (destruct Hin as [<- | Hin]; [reflexivity |]). destruct Hin.
  - exists 1%positive, 4000. vm_compute. repeat split.
  - reflexivity.
  - reflexivity.
  - exists n. exact Hf.
Defined.

End Therapy.
